(** * public-bucket-scanner: content analysis, permission risk, provider probes

    A shallow embedding of the scanning core of the repository:

    - [src/workers/content_analyzer.py]   (module [ContentAnalyzer])
    - [src/workers/permission_checker.py] (module [PermissionChecker])
    - [src/scanner/base_scanner.py]       (module [BaseScanner])
    - [src/scanner/{aws,gcp,azure}_scanner.py], [check_bucket_exists] only
    - [src/scanner/orchestrator.py]       (module [ScanOrchestrator])

    Modelling conventions.

    - A Python [str] is a [string]: a sequence of 8-bit code points (the
      Latin-1 range of Unicode).  [str.lower] is [lower].
    - A Python [int] is a [Z]; [len] is [Z.of_nat (length _)].
    - A Python [float] is an IEEE-754 binary64 value, taken from the
      specification of floating-point arithmetic of the standard library
      ([spec_float] with [prec = 53] and [emax = 1024]).
    - Code that can raise returns an [outcome]; [try]/[except] is
      [try_except].  Only exceptions derived from [Exception] are modelled.
    - Network and SDK calls are read from an explicit environment record.
    - Logging has no effect on results and is left out. *)

From Stdlib Require Import ZArith QArith Qround Qpower Lia Lqa Bool Ascii String.
From Stdlib Require Import Floats.SpecFloat.
From stdpp Require Import base decidable option list strings.

Local Open Scope string_scope.
Local Open Scope list_scope.

(** ** Python strings *)

Module PyStr.

(** [str.lower] on the code points 0..255: A-Z and the Latin-1 capitals
    (U+00C0..U+00DE except the multiplication sign U+00D7) move up by 32.
    In this range [str.lower] works character by character. Beyond it,
    it depends on the neighbours of a character (the capital sigma has
    two lower-case forms), so what is proved of names holds for names in
    this range, and no statement is made that rests on [lower] commuting
    with cutting a name in pieces. *)
Definition lower_char (c : ascii) : ascii :=
  let n := N_of_ascii c in
  if ((65 <=? n) && (n <=? 90))%N
     || ((192 <=? n) && (n <=? 222) && negb (n =? 215))%N
  then ascii_of_N (n + 32)
  else c.

Fixpoint lower (s : string) : string :=
  match s with
  | EmptyString => EmptyString
  | String c s' => String (lower_char c) (lower s')
  end.

(** [s.startswith(p)], returning the rest of [s] after the prefix. *)
Fixpoint strip_prefix (p s : string) : option string :=
  match p with
  | EmptyString => Some s
  | String a p' =>
      match s with
      | EmptyString => None
      | String b s' => if Ascii.eqb a b then strip_prefix p' s' else None
      end
  end.

(** [p in s] for strings: [p] occurs as a contiguous substring of [s]. *)
Fixpoint contains (p s : string) : bool :=
  match strip_prefix p s with
  | Some _ => true
  | None =>
      match s with
      | EmptyString => false
      | String _ s' => contains p s'
      end
  end.

(** [c in cs] for a character and a string of characters. *)
Fixpoint char_in (c : ascii) (cs : string) : bool :=
  match cs with
  | EmptyString => false
  | String d cs' => Ascii.eqb c d || char_in c cs'
  end.

(** [any(p in s for p in ps)] *)
Definition contains_any (ps : list string) (s : string) : bool :=
  existsb (fun p => contains p s) ps.

(** [x in l] for a list of strings. *)
Definition list_in (x : string) (l : list string) : bool :=
  bool_decide (x ∈ l).

End PyStr.

(** ** The fragment of Python's [re] used by the pattern table *)

Module Re.
Import PyStr.

Inductive regex : Type :=
| Lit (s : string)            (* a run of literal characters *)
| OneOf (cs : string)         (* a character class [[...]] *)
| Opt (r : regex)             (* [r?] *)
| Alt (r1 r2 : regex)         (* [r1|r2] *)
| Seq (r1 r2 : regex)         (* [r1 r2] *)
| Eos.                        (* [$] without MULTILINE *)

Definition newline : ascii := ascii_of_N 10.

(** [$] matches at the end of the string and just before a newline that
    is the last character of the string. *)
Definition at_eos (s : string) : bool :=
  match s with
  | EmptyString => true
  | String c EmptyString => Ascii.eqb c newline
  | _ => false
  end.

(** Backtracking match of [r] at the start of [s], with continuation [k]
    applied to what is left of [s]. *)
Fixpoint matches_k (r : regex) (s : string) (k : string -> bool) : bool :=
  match r with
  | Lit l => match strip_prefix l s with Some s' => k s' | None => false end
  | OneOf cs =>
      match s with
      | String c s' => if char_in c cs then k s' else false
      | EmptyString => false
      end
  | Opt r1 => matches_k r1 s k || k s
  | Alt r1 r2 => matches_k r1 s k || matches_k r2 s k
  | Seq r1 r2 => matches_k r1 s (fun s' => matches_k r2 s' k)
  | Eos => at_eos s && k s
  end.

(** [bool(re.search(r, s))]: a match starting at some position of [s]. *)
Fixpoint search (r : regex) (s : string) : bool :=
  matches_k r s (fun _ => true)
  || match s with
     | EmptyString => false
     | String _ s' => search r s'
     end.

(** [a|b|c|...] *)
Fixpoint alts (r : regex) (rs : list regex) : regex :=
  match rs with
  | [] => r
  | r' :: rs' => Alt r (alts r' rs')
  end.

End Re.

(** ** Exceptions and results of code that can raise *)

Module Py.

(** The exception classes the code distinguishes in its [except] clauses.
    All of them derive from [Exception]. *)
Inductive exn : Type :=
| ClientError (code msg : string)      (* botocore.exceptions *)
| NotFound (msg : string)              (* google.cloud.exceptions *)
| Forbidden (msg : string)             (* google.cloud.exceptions *)
| ResourceNotFoundError (msg : string) (* azure.core.exceptions, an HttpResponseError *)
| HttpResponseError (msg : string)     (* azure.core.exceptions *)
| ZeroDivisionError (msg : string)
| OverflowError (msg : string)
| ValueError (msg : string)
| Exception (msg : string).            (* any other subclass of Exception *)

(** [str(e)] *)
Definition str_of_exn (e : exn) : string :=
  match e with
  | ClientError _ m | NotFound m | Forbidden m | ResourceNotFoundError m
  | HttpResponseError m | ZeroDivisionError m | OverflowError m
  | ValueError m | Exception m => m
  end.

Inductive outcome (A : Type) : Type :=
| Returned (a : A)
| Raised (e : exn).
Arguments Returned {A} a.
Arguments Raised {A} e.

Definition bind {A B} (m : outcome A) (f : A -> outcome B) : outcome B :=
  match m with
  | Returned a => f a
  | Raised e => Raised e
  end.

(** [try: body except Exception as e: handler(e)] *)
Definition try_except {A} (body : outcome A) (handler : exn -> outcome A)
  : outcome A :=
  match body with
  | Returned a => Returned a
  | Raised e => handler e
  end.

Definition returns {A} (m : outcome A) : Prop := exists a, m = Returned a.

End Py.

#[global] Instance outcome_ret : MRet Py.outcome := @Py.Returned.
#[global] Instance outcome_bind : MBind Py.outcome :=
  fun A B f m => Py.bind m f.

(** ** Python floats: IEEE-754 binary64 *)

Module PyFloat.
Import Py.

Definition prec : Z := 53.
Definition emax : Z := 1024.

(** The value of an [int] that is a list length, as an exact
    (mantissa, exponent 0) pair. *)
Definition of_len (n : nat) : spec_float :=
  match n with
  | O => S754_zero false
  | S _ => S754_finite false (Pos.of_nat n) 0
  end.

(** [a / b] on two [int]s: the correctly rounded quotient. *)
Definition truediv (a b : nat) : outcome spec_float :=
  match b with
  | O => Raised (ZeroDivisionError "division by zero")
  | S _ =>
      match SFdiv prec emax (of_len a) (of_len b) with
      | S754_infinity _ =>
          Raised (OverflowError "integer division result too large for a float")
      | r => Returned r
      end
  end.

(** The [float] that the [int] literal [50] converts to. *)
Definition fifty : spec_float := binary_normalize prec emax 50 0 false.

(** [x * 50] *)
Definition mul50 (x : spec_float) : spec_float := SFmul prec emax x fifty.

(** [int(x)]: truncation towards zero. *)
Definition int (x : spec_float) : outcome Z :=
  match x with
  | S754_zero _ => Returned 0%Z
  | S754_finite s m e => Returned (cond_Zopp s (Z.shiftl (Zpos m) e))
  | S754_infinity _ =>
      Raised (OverflowError "cannot convert float infinity to integer")
  | S754_nan => Raised (ValueError "cannot convert float NaN to integer")
  end.

End PyFloat.

(** ** [src/workers/content_analyzer.py] *)

Module ContentAnalyzer.
Import PyStr Re Py.

Inductive category : Type :=
| credentials | private_keys | config_files | database
| source_code | cloud_config | logs.

#[global] Instance category_eq_dec : EqDecision category.
Proof. solve_decision. Defined.

Definition category_name (c : category) : string :=
  match c with
  | credentials => "credentials"
  | private_keys => "private_keys"
  | config_files => "config_files"
  | database => "database"
  | source_code => "source_code"
  | cloud_config => "cloud_config"
  | logs => "logs"
  end.

(** [r'x$'] and [r'a[-_]?b'] *)
Definition lit_eos (s : string) : regex := Seq (Lit s) Eos.
Definition dash_opt (a b : string) : regex :=
  Seq (Lit a) (Seq (Opt (OneOf "-_")) (Lit b)).

(** [SENSITIVE_PATTERNS], in the insertion order of the dict literal. *)
Definition SENSITIVE_PATTERNS : list (category * list regex) :=
  [ (credentials,
      [ lit_eos ".env"; Lit ".env.";
        Lit "secret"; Lit "password"; Lit "passwd";
        Lit "credential"; Lit "creds";
        Lit "auth"; Lit "token"; dash_opt "api" "key" ]);
    (private_keys,
      [ lit_eos ".pem"; lit_eos ".key"; lit_eos ".ppk";
        dash_opt "private" "key"; Lit "id_rsa"; Lit "id_dsa";
        lit_eos ".p12"; lit_eos ".pfx" ]);
    (config_files,
      [ Seq (Lit "config.")
          (Seq (alts (Lit "json")
                  [Lit "xml"; Lit "yml"; Lit "yaml"; Lit "ini"; Lit "conf"])
               Eos);
        lit_eos "wp-config.php";
        Seq (Lit "settings.")
          (Seq (alts (Lit "py") [Lit "json"; Lit "xml"]) Eos);
        lit_eos ".htaccess"; lit_eos ".htpasswd" ]);
    (database,
      [ lit_eos ".sql"; lit_eos ".db"; Lit ".sqlite";
        Lit "database"; Lit "backup."; Lit "dump.";
        lit_eos ".mdb"; lit_eos ".accdb" ]);
    (source_code,
      [ Lit ".git/"; Lit ".svn/"; Lit ".hg/";
        Lit ".env.local"; Lit ".env.production" ]);
    (cloud_config,
      [ Lit ".aws/"; Lit ".azure/"; Lit ".gcp/";
        Lit "credentials.json"; dash_opt "service" "account" ]);
    (logs,
      [ lit_eos ".log"; Lit "access_log"; Lit "error_log";
        Lit "debug."; Lit "trace." ]) ].

(** The inner loop [for pattern in patterns: if re.search(...): ...; break]
    runs its body at most once, exactly when some pattern matches. *)
Definition any_pattern (patterns : list regex) (file_lower : string) : bool :=
  existsb (fun pattern => search pattern file_lower) patterns.

(** The loop over [SENSITIVE_PATTERNS.items()] of [_detect_sensitive_files]
    for one file; [sensitive] is the list being built. *)
Fixpoint detect_categories (items : list (category * list regex))
    (file file_lower : string) (sensitive : list string) : list string :=
  match items with
  | [] => sensitive
  | (_, patterns) :: items' =>
      let sensitive' :=
        if any_pattern patterns file_lower then sensitive ++ [file]
        else sensitive in
      if list_in file sensitive' then sensitive'
      else detect_categories items' file file_lower sensitive'
  end.

Definition _detect_sensitive_files (files : list string) : list string :=
  fold_left
    (fun sensitive file =>
       detect_categories SENSITIVE_PATTERNS file (lower file) sensitive)
    files [].

(** [file.rsplit('.', 1)[-1]] when ['.' in file]: what follows the last dot. *)
Fixpoint after_last_dot (file : string) : option string :=
  match file with
  | EmptyString => None
  | String c file' =>
      match after_last_dot file' with
      | Some ext => Some ext
      | None => if Ascii.eqb c "." then Some file' else None
      end
  end.

(** [d[k] = d.get(k, 0) + 1] on a dict kept in insertion order. *)
Fixpoint dict_incr (k : string) (d : list (string * Z)) : list (string * Z) :=
  match d with
  | [] => [(k, 1%Z)]
  | (k', n) :: d' =>
      if String.eqb k k' then (k', (n + 1)%Z) :: d' else (k', n) :: dict_incr k d'
  end.

Definition _analyze_file_types (files : list string) : list (string * Z) :=
  fold_left
    (fun file_types file =>
       let ext := match after_last_dot file with
                  | Some e => lower e
                  | None => "no_extension"
                  end in
       dict_incr ext file_types)
    files [].

Definition high_risk_patterns : list string :=
  [ "password"; "secret"; ".env"; "credential";
    "private"; ".key"; ".pem"; "id_rsa" ].

Definition len {A} (l : list A) : Z := Z.of_nat (length l).

Definition _calculate_risk_score (files sensitive_files : list string)
  : outcome Z :=
  match files with
  | [] => Returned 0%Z
  | _ =>
      let score := 0%Z in
      let score := (score + 10)%Z in
      let score :=
        if (len files >? 1000)%Z then (score + 20)%Z
        else if (len files >? 100)%Z then (score + 15)%Z
        else if (len files >? 10)%Z then (score + 10)%Z
        else (score + 5)%Z in
      score ← match sensitive_files with
              | [] => Returned score
              | _ =>
                  ratio ← PyFloat.truediv (length sensitive_files) (length files);
                  bonus ← PyFloat.int (PyFloat.mul50 ratio);
                  Returned (score + bonus)%Z
              end;
      let score :=
        fold_left
          (fun score file =>
             if contains_any high_risk_patterns (lower file)
             then (score + 5)%Z else score)
          sensitive_files score in
      Returned (Z.min score 100)
  end.

(** [categorized], a dict from category to the list of its files, kept in
    insertion order. *)
Fixpoint dict_append (k : category) (file : string)
    (d : list (category * list string)) : list (category * list string) :=
  match d with
  | [] => [(k, [file])]
  | (k', fs) :: d' =>
      if decide (k = k') then (k', fs ++ [file]) :: d'
      else (k', fs) :: dict_append k file d'
  end.

(** The grouping loops of [_generate_findings]: the [break] leaves the
    loop over patterns only, the loop over categories goes on. *)
Definition categorize_file (categorized : list (category * list string))
    (file : string) : list (category * list string) :=
  fold_left
    (fun categorized '(cat, patterns) =>
       if any_pattern patterns (lower file)
       then dict_append cat file categorized
       else categorized)
    SENSITIVE_PATTERNS categorized.

Definition categorize (sensitive_files : list string)
  : list (category * list string) :=
  fold_left categorize_file sensitive_files [].

Definition _get_category_severity (category : string) : string :=
  if list_in category ["credentials"; "private_keys"; "cloud_config"]
  then "critical"
  else if list_in category ["database"; "config_files"] then "high"
  else if list_in category ["source_code"; "logs"] then "medium"
  else "low".

Definition _get_category_description (category : string) : string :=
  if String.eqb category "credentials"
  then "Environment files, secrets, passwords, or API keys detected"
  else if String.eqb category "private_keys"
  then "Private cryptographic keys or certificates found"
  else if String.eqb category "config_files"
  then "Configuration files that may contain sensitive settings"
  else if String.eqb category "database"
  then "Database files, backups, or SQL dumps discovered"
  else if String.eqb category "source_code"
  then "Source code repository files or version control data"
  else if String.eqb category "cloud_config"
  then "Cloud provider configuration or service account files"
  else if String.eqb category "logs"
  then "Log files that may contain sensitive information"
  else "Potentially sensitive files detected".

Record finding : Type := {
  f_category : string;
  f_severity : string;
  f_count : Z;
  f_files : list string;
  f_description : string
}.

Definition make_finding (entry : category * list string) : finding :=
  let '(cat, files_list) := entry in
  {| f_category := category_name cat;
     f_severity := _get_category_severity (category_name cat);
     f_count := len files_list;
     f_files := take 10 files_list;
     f_description := _get_category_description (category_name cat) |}.

Definition _generate_findings (files sensitive_files : list string)
  : list finding :=
  map make_finding (categorize sensitive_files).

Record ContentAnalysisResult : Type := {
  bucket_name : string;
  total_files : Z;
  sensitive_files : list string;
  file_types : list (string * Z);
  risk_score : Z;
  findings : list finding
}.

Definition analyze (name : string) (files : list string)
  : outcome ContentAnalysisResult :=
  match files with
  | [] =>
      Returned {| bucket_name := name; total_files := 0;
                  sensitive_files := []; file_types := [];
                  risk_score := 0; findings := [] |}
  | _ =>
      let sensitive := _detect_sensitive_files files in
      let types := _analyze_file_types files in
      score ← _calculate_risk_score files sensitive;
      let fnd := _generate_findings files sensitive in
      Returned {| bucket_name := name; total_files := len files;
                  sensitive_files := sensitive; file_types := types;
                  risk_score := score; findings := fnd |}
  end.

End ContentAnalyzer.

(** ** [src/workers/permission_checker.py] *)

Module PermissionChecker.
Import PyStr Py.

Inductive PermissionType : Type :=
| READ | WRITE | LIST | DELETE | READ_ACL | WRITE_ACL.

#[global] Instance PermissionType_eq_dec : EqDecision PermissionType.
Proof. solve_decision. Defined.

(** The [recommendations] field is text for the reader; it is computed
    from the same flags by [_generate_recommendations] and does not feed
    back into the other fields, so the record leaves it out. *)
Record PermissionCheckResult : Type := {
  bucket_name : string;
  provider : string;
  permissions : list PermissionType;
  is_public : bool;
  is_writable : bool;
  risk_level : string
}.

Definition sensitive_patterns : list string :=
  [ ".env"; "secret"; "password"; "credential"; "key"; ".pem" ].

(** Truth value of an optional list: [None] and [[]] are false. *)
Definition truthy {A} (l : option (list A)) : bool :=
  match l with
  | Some (_ :: _) => true
  | _ => false
  end.

Definition _calculate_risk_level (is_public is_writable : bool)
    (permissions : list PermissionType)
    (files_found : option (list string)) : string :=
  if negb is_public then "low"
  else if is_writable then "critical"
  else
    let files := default [] files_found in
    if truthy files_found
       && existsb (fun f => contains_any sensitive_patterns (lower f)) files
    then "high"
    else if truthy files_found && (0 <? length files)%nat then "medium"
    else "medium".

Definition analyze_permissions (name prov : string)
    (raw : list string) (public : bool)
    (files_found : option (list string)) : PermissionCheckResult :=
  let perm_types := [] in
  let perm_types :=
    if list_in "list" raw then perm_types ++ [LIST] else perm_types in
  let perm_types :=
    if list_in "read" raw || list_in "get" raw
    then perm_types ++ [READ] else perm_types in
  let perm_types :=
    if list_in "write" raw || list_in "put" raw
    then perm_types ++ [WRITE] else perm_types in
  let perm_types :=
    if list_in "delete" raw then perm_types ++ [DELETE] else perm_types in
  let writable :=
    existsb (fun p => bool_decide (p ∈ perm_types)) [WRITE; DELETE; WRITE_ACL] in
  let risk := _calculate_risk_level public writable perm_types files_found in
  {| bucket_name := name; provider := prov; permissions := perm_types;
     is_public := public; is_writable := writable; risk_level := risk |}.

End PermissionChecker.

(** ** [src/scanner/base_scanner.py] *)

Module BaseScanner.
Import PyStr Py.

Inductive BucketAccessLevel : Type :=
| PRIVATE | PUBLIC_READ | PUBLIC_WRITE | PUBLIC_READ_WRITE
| AUTHENTICATED_READ | UNKNOWN.

#[global] Instance BucketAccessLevel_eq_dec : EqDecision BucketAccessLevel.
Proof. solve_decision. Defined.

Inductive CloudProvider : Type := AWS_S3 | GCP_GCS | AZURE_BLOB.

#[global] Instance CloudProvider_eq_dec : EqDecision CloudProvider.
Proof. solve_decision. Defined.

Record BucketScanResult : Type := {
  provider : CloudProvider;
  bucket_name : string;
  exists_ : bool;
  is_accessible : bool;
  access_level : BucketAccessLevel;
  permissions : list string;
  url : string;
  files_found : option (list string);
  sensitive_files : option (list string);
  error : option string;
  metadata : option (list (string * string))
}.

(** A scanner object: its provider and its abstract methods. *)
Record Scanner : Type := {
  sc_provider : CloudProvider;
  check_bucket_exists : string -> outcome bool;
  check_public_access : string -> outcome BucketAccessLevel;
  list_files : string -> outcome (list string);
  get_bucket_permissions : string -> outcome (list string);
  _get_bucket_url : string -> string
}.

Definition sensitive_patterns : list string :=
  [ ".env"; "config"; "secret"; "password"; "credential";
    "token"; "key"; "private"; ".pem"; ".key"; ".ppk";
    "backup"; ".sql"; ".db"; "database"; "admin";
    "wp-config"; ".git"; ".aws"; "id_rsa" ].

Definition _detect_sensitive_files (files : list string) : list string :=
  fold_left
    (fun sensitive file =>
       if contains_any sensitive_patterns (lower file)
       then sensitive ++ [file] else sensitive)
    files [].

(** The result built on both early exits of [scan_bucket]. *)
Definition not_found_result (self : Scanner) (name msg : string)
  : BucketScanResult :=
  {| provider := sc_provider self; bucket_name := name;
     exists_ := false; is_accessible := false; access_level := UNKNOWN;
     permissions := []; url := _get_bucket_url self name;
     files_found := None; sensitive_files := None;
     error := Some msg; metadata := None |}.

(** The body of the [try] block of [scan_bucket]. *)
Definition scan_steps (self : Scanner) (name : string)
  : outcome BucketScanResult :=
  found ← check_bucket_exists self name;
  if negb found
  then Returned (not_found_result self name "Bucket does not exist")
  else
    level ← check_public_access self name;
    let accessible := negb (bool_decide (level ∈ [PRIVATE; UNKNOWN])) in
    perms ← get_bucket_permissions self name;
    listing ← (if accessible
               then files ← list_files self name;
                    Returned (Some files, Some (_detect_sensitive_files files))
               else Returned (None, None));
    Returned
      {| provider := sc_provider self; bucket_name := name;
         exists_ := true; is_accessible := accessible;
         access_level := level; permissions := perms;
         url := _get_bucket_url self name;
         files_found := fst listing; sensitive_files := snd listing;
         error := None; metadata := None |}.

Definition scan_bucket (self : Scanner) (name : string)
  : outcome BucketScanResult :=
  try_except
    (scan_steps self name)
    (fun e => Returned (not_found_result self name (str_of_exn e))).

End BaseScanner.

(** ** [check_bucket_exists] of the three provider scanners *)

Module Probes.
Import PyStr Py.

(** What the network and the provider SDKs answer.  [http_head url] is
    the status code of [client.head(url, timeout=5.0)], or what it
    raised; the other three are the native-client calls of the fallback. *)
Record Env : Type := {
  http_head : string -> outcome Z;
  s3_head_bucket : string -> outcome unit;
  gcs_bucket_reload : string -> outcome unit;
  azure_get_container_properties : string -> outcome unit
}.

Definition status_in (code : Z) (codes : list Z) : bool :=
  bool_decide (code ∈ codes).

Module AWSS3Scanner.
Definition check_bucket_exists (env : Env) (name : string) : outcome bool :=
  try_except
    (let url := "https://" +:+ name +:+ ".s3.amazonaws.com" in
     code ← http_head env url;
     Returned (status_in code [200; 403; 301]%Z))
    (fun _ =>
       try_except
         (_ ← s3_head_bucket env name; Returned true)
         (fun e =>
            match e with
            | ClientError error_code _ => Returned (String.eqb error_code "403")
            | _ => Returned false
            end)).
End AWSS3Scanner.

Module GCPStorageScanner.
Definition check_bucket_exists (env : Env) (name : string) : outcome bool :=
  try_except
    (let url := "https://storage.googleapis.com/" +:+ name in
     code ← http_head env url;
     Returned (status_in code [200; 403]%Z))
    (fun _ =>
       try_except
         (_ ← gcs_bucket_reload env name; Returned true)
         (fun e =>
            match e with
            | NotFound _ => Returned false
            | Forbidden _ => Returned true
            | _ => Returned false
            end)).
End GCPStorageScanner.

Module AzureBlobScanner.
(** [account_name] and whether [blob_service_client] is set. *)
Record self_ : Type := {
  account_name : string;
  has_blob_service_client : bool
}.

Definition check_bucket_exists (env : Env) (self : self_) (name : string)
  : outcome bool :=
  try_except
    (let url := "https://" +:+ account_name self
                +:+ ".blob.core.windows.net/" +:+ name
                +:+ "?restype=container" in
     code ← http_head env url;
     Returned (status_in code [200; 403; 409]%Z))
    (fun _ =>
       if has_blob_service_client self
       then
         try_except
           (_ ← azure_get_container_properties env name; Returned true)
           (fun e =>
              match e with
              | ResourceNotFoundError _ => Returned false
              | HttpResponseError _ => Returned true
              | _ => Returned false
              end)
       else Returned false).
End AzureBlobScanner.

End Probes.

(** ** [src/scanner/orchestrator.py] *)

Module ScanOrchestrator.
Import Py BaseScanner.

(** [self.scanners], a dict from provider to scanner in insertion order. *)
Record t : Type := { scanners : list (CloudProvider * Scanner) }.

(** The dict built by [__init__]. *)
Definition init (aws gcp azure : Scanner) : t :=
  {| scanners := [(AWS_S3, aws); (GCP_GCS, gcp); (AZURE_BLOB, azure)] |}.

Fixpoint dict_get (p : CloudProvider) (d : list (CloudProvider * Scanner))
  : option Scanner :=
  match d with
  | [] => None
  | (k, v) :: d' => if decide (p = k) then Some v else dict_get p d'
  end.

(** [asyncio.gather] with [return_exceptions=True]: one entry per task,
    in order, a raised exception standing in for the missing result. *)
Definition gather {A} (tasks : list (outcome A)) : list (A + exn) :=
  map (fun task => match task with
                   | Returned a => inl a
                   | Raised e => inr e
                   end) tasks.

(** [[r for r in results if isinstance(r, BucketScanResult)]] *)
Definition only_results {A} (results : list (A + exn)) : list A :=
  omap (fun r => match r with inl a => Some a | inr _ => None end) results.

Definition scan_bucket (self : t) (name : string)
    (provider : option CloudProvider) : outcome (list BucketScanResult) :=
  match provider with
  | Some p =>
      match dict_get p (scanners self) with
      | Some scanner =>
          result ← BaseScanner.scan_bucket scanner name;
          Returned [result]
      | None => Returned []
      end
  | None =>
      let tasks :=
        map (fun entry => BaseScanner.scan_bucket (snd entry) name)
            (scanners self) in
      Returned (only_results (gather tasks))
  end.

End ScanOrchestrator.

(** * Properties *)

(** ** The permission risk assessor *)

Section PermissionProperties.
Import PyStr PermissionChecker.

Lemma list_in_true (x : string) (l : list string) :
  list_in x l = true <-> x ∈ l.
Proof. unfold list_in. apply bool_decide_eq_true. Qed.

Lemma _calculate_risk_level_table (public writable : bool)
    (perms : list PermissionType) (files : option (list string)) :
  _calculate_risk_level public writable perms files =
    if negb public then "low"
    else if writable then "critical"
    else if existsb
              (fun f => contains_any sensitive_patterns (lower f))
              (default [] files)
    then "high"
    else "medium".
Proof.
  unfold _calculate_risk_level.
  destruct public, writable; cbn [negb]; try reflexivity.
  destruct files as [[|f fs]|]; reflexivity.
Qed.

(** [is_writable] as a function of the raw permission strings. *)
Lemma analyze_permissions_writable
    (name prov : string) (raw : list string) (public : bool)
    (files : option (list string)) :
  is_writable (analyze_permissions name prov raw public files)
  = list_in "write" raw || list_in "put" raw || list_in "delete" raw.
Proof.
  unfold analyze_permissions; cbn [is_writable].
  destruct (list_in "list" raw), (list_in "read" raw), (list_in "get" raw),
    (list_in "write" raw), (list_in "put" raw), (list_in "delete" raw);
    reflexivity.
Qed.

(** C2. The risk level of [analyze_permissions] follows the decision
    table, first match winning, as a function of its arguments alone:
    not public gives "low"; public and writable, that is with 'write',
    'put' or 'delete' among the raw permission strings, gives "critical"
    whatever the files; public with a file whose lowercase name contains
    one of .env, secret, password, credential, key, .pem gives "high";
    every other public bucket, with or without files, gives "medium".
    The [is_writable] field of the result is the writable condition of
    the table. *)
Theorem analyze_permissions_decision_table
    (name prov : string) (raw : list string) (public : bool)
    (files : option (list string)) :
  let r := analyze_permissions name prov raw public files in
  let writable :=
    bool_decide ("write" ∈ raw \/ "put" ∈ raw \/ "delete" ∈ raw) in
  is_writable r = writable
  /\ risk_level r =
       if negb public then "low"
       else if writable then "critical"
       else if existsb
                 (fun f =>
                    existsb (fun pat => contains pat (lower f))
                      [".env"; "secret"; "password"; "credential"; "key";
                       ".pem"])
                 (default [] files)
       then "high"
       else "medium".
Proof.
  cbv zeta.
  assert (bool_decide ("write" ∈ raw \/ "put" ∈ raw \/ "delete" ∈ raw)
          = list_in "write" raw || list_in "put" raw || list_in "delete" raw)
    as ->.
  { unfold list_in. rewrite <- !bool_decide_or. apply bool_decide_ext. tauto. }
  rewrite <- (analyze_permissions_writable name prov raw public files).
  split; [reflexivity|].
  unfold analyze_permissions; cbn [risk_level is_writable].
  apply _calculate_risk_level_table.
Qed.

(** C10. [analyze_permissions] emits only LIST, READ, WRITE and DELETE,
    never READ_ACL or WRITE_ACL, and [is_writable] holds exactly when the
    raw permission list contains 'write', 'put' or 'delete'. *)
Theorem analyze_permissions_types_and_writable
    (name prov : string) (raw : list string) (public : bool)
    (files : option (list string)) :
  let r := analyze_permissions name prov raw public files in
  (READ_ACL ∉ permissions r)
  /\ (WRITE_ACL ∉ permissions r)
  /\ Forall (fun p => p ∈ [LIST; READ; WRITE; DELETE]) (permissions r)
  /\ (is_writable r = true
      <-> "write" ∈ raw \/ "put" ∈ raw \/ "delete" ∈ raw).
Proof.
  cbv zeta. unfold analyze_permissions; cbn [permissions is_writable].
  rewrite <- !list_in_true.
  destruct (list_in "list" raw), (list_in "read" raw), (list_in "get" raw),
    (list_in "write" raw), (list_in "put" raw), (list_in "delete" raw);
    cbn; (split; [|split; [|split; [|split]]]);
    try (intros Hin; repeat (apply elem_of_cons in Hin as [Hin|Hin];
           [discriminate Hin|]); by apply elem_of_nil in Hin);
    try (repeat constructor; fail);
    try (repeat (apply Forall_cons; split;
                 [repeat (first [apply elem_of_list_here
                                | apply elem_of_list_further])|]);
         apply Forall_nil; fail);
    try tauto; try (intros; discriminate); try (intros [|[|]]; discriminate).
Qed.

End PermissionProperties.

(** ** The composite scan of one provider *)

Section ScanBucketProperties.
Import PyStr Py BaseScanner.

(** Results of the two early exits carry no signal besides [error]. *)
Lemma not_found_result_fields (self : Scanner) (name msg : string) :
  let r := not_found_result self name msg in
  exists_ r = false /\ is_accessible r = false /\ access_level r = UNKNOWN
  /\ permissions r = [] /\ files_found r = None /\ sensitive_files r = None
  /\ error r = Some msg.
Proof. cbv zeta. repeat split. Qed.

(** When the body of the [try] block returns a result that says the
    bucket does not exist, it is the early-exit result. *)
Lemma scan_steps_absent (self : Scanner) (name : string) (r : BucketScanResult) :
  scan_steps self name = Returned r -> exists_ r = false ->
  r = not_found_result self name "Bucket does not exist".
Proof.
  unfold scan_steps.
  destruct (check_bucket_exists self name) as [[|]|e]; cbn; try discriminate.
  - destruct (check_public_access self name) as [level|e]; cbn; try discriminate.
    destruct (get_bucket_permissions self name) as [perms|e]; cbn; try discriminate.
    destruct (negb _); cbn.
    + destruct (list_files self name) as [files|e]; cbn; try discriminate.
      intros [= <-]; cbn; discriminate.
    + intros [= <-]; cbn; discriminate.
  - intros [= <-]; reflexivity.
Qed.

(** An exception of any of the four steps leaves the [try] body. *)
Lemma scan_steps_raised (self : Scanner) (name : string) (e : exn) :
  check_bucket_exists self name = Raised e
  \/ (check_bucket_exists self name = Returned true
      /\ (check_public_access self name = Raised e
          \/ exists level,
              check_public_access self name = Returned level
              /\ (get_bucket_permissions self name = Raised e
                  \/ exists perms,
                      get_bucket_permissions self name = Returned perms
                      /\ bool_decide (level ∈ [PRIVATE; UNKNOWN]) = false
                      /\ list_files self name = Raised e))) ->
  scan_steps self name = Raised e.
Proof.
  unfold scan_steps.
  intros [->|[-> [->|(level & -> & [->|(perms & -> & Hacc & Hl)])]]];
    cbn; try reflexivity.
  rewrite Hacc, Hl. reflexivity.
Qed.

(** C3. [scan_bucket] never raises.  An exception of the existence,
    access-level, permissions or listing step is turned into a result
    with exists=false, access_level=unknown and error set to the message
    of the exception; and a result with exists=false has every signal
    field besides [error] at its empty value. *)
Theorem scan_bucket_never_raises (self : Scanner) (name : string) :
  exists r,
    scan_bucket self name = Returned r
    /\ (forall e,
          check_bucket_exists self name = Raised e
          \/ (check_bucket_exists self name = Returned true
              /\ (check_public_access self name = Raised e
                  \/ exists level,
                      check_public_access self name = Returned level
                      /\ (get_bucket_permissions self name = Raised e
                          \/ exists perms,
                              get_bucket_permissions self name = Returned perms
                              /\ bool_decide (level ∈ [PRIVATE; UNKNOWN]) = false
                              /\ list_files self name = Raised e))) ->
          exists_ r = false /\ access_level r = UNKNOWN
          /\ error r = Some (str_of_exn e))
    /\ (exists_ r = false ->
          is_accessible r = false /\ permissions r = []
          /\ files_found r = None /\ sensitive_files r = None).
Proof.
  unfold scan_bucket.
  destruct (scan_steps self name) as [r|e0] eqn:Hsteps; cbn.
  - exists r. split; [reflexivity|]. split.
    + intros e He. apply scan_steps_raised in He. congruence.
    + intros Hr. rewrite (scan_steps_absent _ _ _ Hsteps Hr). repeat split.
  - eexists. split; [reflexivity|]. split.
    + intros e He. apply scan_steps_raised in He.
      assert (e = e0) as -> by congruence. repeat split.
    + intros _. repeat split.
Qed.

(** C9, as the code has it.  When the existence check returns false,
    [scan_bucket] returns, without raising, a result with exists=false
    and every signal field empty, whose [error] is the fixed text
    "Bucket does not exist". *)
Theorem scan_bucket_absent_bucket (self : Scanner) (name : string) :
  check_bucket_exists self name = Returned false ->
  scan_bucket self name =
    Returned
      {| provider := sc_provider self; bucket_name := name;
         exists_ := false; is_accessible := false; access_level := UNKNOWN;
         permissions := []; url := _get_bucket_url self name;
         files_found := None; sensitive_files := None;
         error := Some "Bucket does not exist"; metadata := None |}.
Proof.
  intros Hc. unfold scan_bucket, scan_steps. rewrite Hc. reflexivity.
Qed.

(** A scanner for which no bucket exists and no other call succeeds. *)
Definition absent_scanner : Scanner :=
  {| sc_provider := AWS_S3;
     check_bucket_exists := fun _ => Returned false;
     check_public_access := fun _ => Raised (Exception "unreachable");
     list_files := fun _ => Raised (Exception "unreachable");
     get_bucket_permissions := fun _ => Raised (Exception "unreachable");
     _get_bucket_url := fun name => "https://" +:+ name +:+ ".s3.amazonaws.com" |}.

(** A public bucket whose listing times out. *)
Definition listing_fails_scanner : Scanner :=
  {| sc_provider := GCP_GCS;
     check_bucket_exists := fun _ => Returned true;
     check_public_access := fun _ => Returned PUBLIC_READ;
     list_files := fun _ => Raised (Exception "timed out");
     get_bucket_permissions := fun _ => Returned ["list"];
     _get_bucket_url := fun name => "https://storage.googleapis.com/" +:+ name |}.

Example scan_bucket_listing_fails :
  scan_bucket listing_fails_scanner "assets" =
    Returned
      {| provider := GCP_GCS; bucket_name := "assets";
         exists_ := false; is_accessible := false; access_level := UNKNOWN;
         permissions := []; url := "https://storage.googleapis.com/assets";
         files_found := None; sensitive_files := None;
         error := Some "timed out"; metadata := None |}.
Proof. reflexivity. Qed.

Lemma scan_bucket_absent_bucket_witness :
  check_bucket_exists absent_scanner "ghost" = Returned false
  /\ scan_bucket absent_scanner "ghost" =
       Returned
         {| provider := AWS_S3; bucket_name := "ghost";
            exists_ := false; is_accessible := false; access_level := UNKNOWN;
            permissions := []; url := "https://ghost.s3.amazonaws.com";
            files_found := None; sensitive_files := None;
            error := Some "Bucket does not exist"; metadata := None |}.
Proof.
  split; [reflexivity|].
  apply (scan_bucket_absent_bucket absent_scanner "ghost"). reflexivity.
Defined.

(** C9, as stated, fails: the merely absent bucket does get an error
    string. *)
Lemma scan_bucket_absent_reports_error :
  check_bucket_exists absent_scanner "ghost" = Returned false
  /\ exists r,
       scan_bucket absent_scanner "ghost" = Returned r
       /\ exists_ r = false
       /\ error r = Some "Bucket does not exist"
       /\ error r <> None.
Proof.
  split; [reflexivity|]. eexists. split; [reflexivity|]. cbn.
  repeat split. discriminate.
Qed.

End ScanBucketProperties.

(** ** Existence probes *)

Section ProbeProperties.
Import PyStr Py Probes.

Lemma status_in_spec (code : Z) (codes : list Z) :
  status_in code codes = true <-> code ∈ codes.
Proof. unfold status_in. apply bool_decide_eq_true. Qed.

(** C7. On every environment and bucket name, [check_bucket_exists] of
    each of the three scanners returns a boolean and never raises.  When
    the HEAD request answers, the result is true exactly for the status
    codes 200/403/301 (S3), 200/403 (GCS), 200/403/409 (Azure).  When the
    HEAD request raises, the native client decides: success and "access
    denied" (S3 error code 403, GCS Forbidden, Azure HttpResponseError)
    give true, "not found" gives false, and every other failure, as well
    as a missing Azure client, gives false. *)
Theorem check_bucket_exists_total
    (env : Env) (azure : AzureBlobScanner.self_) (name : string) :
  AWSS3Scanner.check_bucket_exists env name =
    Returned
      match http_head env ("https://" +:+ name +:+ ".s3.amazonaws.com") with
      | Returned code => bool_decide (code = 200 \/ code = 403 \/ code = 301)%Z
      | Raised _ =>
          match s3_head_bucket env name with
          | Returned _ => true
          | Raised (ClientError code _) => String.eqb code "403"
          | Raised _ => false
          end
      end
  /\ GCPStorageScanner.check_bucket_exists env name =
    Returned
      match http_head env ("https://storage.googleapis.com/" +:+ name) with
      | Returned code => bool_decide (code = 200 \/ code = 403)%Z
      | Raised _ =>
          match gcs_bucket_reload env name with
          | Returned _ => true
          | Raised (Forbidden _) => true
          | Raised _ => false
          end
      end
  /\ AzureBlobScanner.check_bucket_exists env azure name =
    Returned
      match http_head env
              ("https://" +:+ AzureBlobScanner.account_name azure
               +:+ ".blob.core.windows.net/" +:+ name +:+ "?restype=container") with
      | Returned code => bool_decide (code = 200 \/ code = 403 \/ code = 409)%Z
      | Raised _ =>
          if AzureBlobScanner.has_blob_service_client azure then
            match azure_get_container_properties env name with
            | Returned _ => true
            | Raised (ResourceNotFoundError _) => false
            | Raised (HttpResponseError _) => true
            | Raised _ => false
            end
          else false
      end.
Proof.
  assert (Hcodes : forall code codes (P : Prop) `{Decision P},
             (code ∈ codes <-> P) -> status_in code codes = bool_decide P).
  { intros code codes P ? HP. unfold status_in. by apply bool_decide_ext. }
  split; [|split].
  - unfold AWSS3Scanner.check_bucket_exists.
    destruct (http_head env _) as [code|e]; cbn.
    + f_equal. apply Hcodes. rewrite !elem_of_cons, elem_of_nil. tauto.
    + destruct (s3_head_bucket env name) as [[]|[]]; reflexivity.
  - unfold GCPStorageScanner.check_bucket_exists.
    destruct (http_head env _) as [code|e]; cbn.
    + f_equal. apply Hcodes. rewrite !elem_of_cons, elem_of_nil. tauto.
    + destruct (gcs_bucket_reload env name) as [[]|[]]; reflexivity.
  - unfold AzureBlobScanner.check_bucket_exists.
    destruct (http_head env _) as [code|e]; cbn.
    + f_equal. apply Hcodes. rewrite !elem_of_cons, elem_of_nil. tauto.
    + destruct (AzureBlobScanner.has_blob_service_client azure); [|reflexivity].
      destruct (azure_get_container_properties env name) as [[]|[]]; reflexivity.
Qed.

(** Nothing answers: every request and every native call fails. *)
Definition unreachable_env : Env :=
  {| http_head := fun _ => Raised (Exception "connection refused");
     s3_head_bucket := fun _ => Raised (ClientError "404" "Not Found");
     gcs_bucket_reload := fun _ => Raised (NotFound "404 bucket not found");
     azure_get_container_properties :=
       fun _ => Raised (ResourceNotFoundError "ContainerNotFound") |}.

Example check_bucket_exists_unreachable :
  AWSS3Scanner.check_bucket_exists unreachable_env "no-such-bucket-8e1f" = Returned false
  /\ GCPStorageScanner.check_bucket_exists unreachable_env "no-such-bucket-8e1f" = Returned false
  /\ AzureBlobScanner.check_bucket_exists unreachable_env
       {| AzureBlobScanner.account_name := "acct";
          AzureBlobScanner.has_blob_service_client := true |}
       "no-such-bucket-8e1f" = Returned false.
Proof. repeat split. Qed.

End ProbeProperties.

(** ** The orchestrator *)

Section OrchestratorProperties.
Import Py BaseScanner ScanOrchestrator.

Lemma scan_bucket_returns (self : Scanner) (name : string) :
  exists r, BaseScanner.scan_bucket self name = Returned r.
Proof.
  unfold BaseScanner.scan_bucket.
  destruct (scan_steps self name); cbn; eauto.
Qed.

(** The filter after [gather] keeps exactly the tasks that returned. *)
Lemma only_results_gather {A} (tasks : list (outcome A)) (a : A) :
  a ∈ only_results (gather tasks) <-> Returned a ∈ tasks.
Proof.
  unfold only_results, gather.
  induction tasks as [|[a'|e] tasks IH]; cbn.
  - by rewrite !elem_of_nil.
  - rewrite !elem_of_cons, IH. split; intros [H|H]; auto; left; congruence.
  - rewrite elem_of_cons, IH. split; [auto|]. by intros [|].
Qed.

Lemma only_results_length {A} (tasks : list (outcome A)) :
  length (only_results (gather tasks)) <= length tasks.
Proof.
  unfold only_results, gather.
  induction tasks as [|[a|e] tasks IH]; cbn; lia.
Qed.

Example gather_excludes_raised :
  only_results (gather [Returned 1; Raised (Exception "boom"); Returned 3]) = [1; 3].
Proof. reflexivity. Qed.

(** [self.scanners.get(provider)] finds the scanner stored under the
    provider, the keys of a dict being distinct, and nothing under a
    provider that is no key. *)
Lemma dict_get_elem_of (p : CloudProvider) (scanner : Scanner)
    (d : list (CloudProvider * Scanner)) :
  NoDup (map fst d) -> (p, scanner) ∈ d -> dict_get p d = Some scanner.
Proof.
  induction d as [|[k v] d IH]; cbn [map fst dict_get]; intros Hnd Hin.
  - by apply elem_of_nil in Hin.
  - apply NoDup_cons in Hnd as [Hk Hnd].
    apply elem_of_cons in Hin as [Heq|Hin].
    + injection Heq as -> ->. by rewrite decide_True.
    + rewrite decide_False; [by apply IH|].
      intros ->. apply Hk. apply list_elem_of_fmap. by exists (k, scanner).
Qed.

Lemma dict_get_not_elem_of (p : CloudProvider)
    (d : list (CloudProvider * Scanner)) :
  p ∉ map fst d -> dict_get p d = None.
Proof.
  induction d as [|[k v] d IH]; cbn [map fst dict_get]; intros Hp; [done|].
  apply not_elem_of_cons in Hp as [Hne Hp]. rewrite decide_False by done.
  by apply IH.
Qed.

(** The scanner that [__init__] stores under a provider. *)
Definition scanner_of (aws gcp azure : Scanner) (p : CloudProvider) : Scanner :=
  match p with
  | AWS_S3 => aws
  | GCP_GCS => gcp
  | AZURE_BLOB => azure
  end.

(** C8. [ScanOrchestrator.scan_bucket] never raises.  Without a provider
    it returns at most one result per scanner, hence between 0 and 3 for
    the three scanners of [__init__], keeping exactly the results of the
    tasks that returned.  With a provider it returns the single result of
    the scanner stored under that provider, and the empty list when no
    scanner is stored under it; after [__init__] every provider has its
    own scanner, so the call returns the singleton of that scanner's
    result: of the S3 scanner for AWS_S3, of the GCS scanner for GCP_GCS,
    of the Azure scanner for AZURE_BLOB. *)
Theorem orchestrator_scan_bucket_never_raises
    (self : ScanOrchestrator.t) (aws gcp azure : Scanner)
    (name : string) (provider : option CloudProvider) :
  (exists results,
     ScanOrchestrator.scan_bucket self name provider = Returned results
     /\ match provider with
        | None =>
            length results <= length (scanners self)
            /\ results =
                 only_results
                   (gather (map (fun entry => BaseScanner.scan_bucket (snd entry) name)
                                (scanners self)))
        | Some p =>
            length results <= 1
            /\ (forall scanner,
                  NoDup (map fst (scanners self)) ->
                  (p, scanner) ∈ scanners self ->
                  exists r, BaseScanner.scan_bucket scanner name = Returned r
                            /\ results = [r])
            /\ (p ∉ map fst (scanners self) -> results = [])
        end)
  /\ (exists results,
        ScanOrchestrator.scan_bucket (init aws gcp azure) name None = Returned results
        /\ length results <= 3)
  /\ (forall p,
        exists r,
          BaseScanner.scan_bucket (scanner_of aws gcp azure p) name = Returned r
          /\ ScanOrchestrator.scan_bucket (init aws gcp azure) name (Some p)
             = Returned [r])
  /\ (forall (tasks : list (outcome BucketScanResult)) (r : BucketScanResult),
        r ∈ only_results (gather tasks) <-> Returned r ∈ tasks).
Proof.
  split; [|split; [|split]].
  - unfold ScanOrchestrator.scan_bucket. destruct provider as [p|].
    + destruct (dict_get p (scanners self)) as [scanner|] eqn:Hget.
      * destruct (scan_bucket_returns scanner name) as [r Hr].
        exists [r]. rewrite Hr. split; [reflexivity|].
        split; [done|]. split.
        -- intros scanner' Hnd Hin.
           rewrite (dict_get_elem_of p scanner' _ Hnd Hin) in Hget.
           injection Hget as ->. by exists r.
        -- intros Hp. by rewrite (dict_get_not_elem_of p _ Hp) in Hget.
      * exists []. split; [reflexivity|]. split; [cbn; lia|]. split; [|done].
        intros scanner' Hnd Hin.
        by rewrite (dict_get_elem_of p scanner' _ Hnd Hin) in Hget.
    + eexists. split; [reflexivity|]. split; [|reflexivity].
      etransitivity; [apply only_results_length|]. by rewrite length_map.
  - eexists. split; [reflexivity|].
    etransitivity; [apply only_results_length|]. reflexivity.
  - intros p.
    destruct (scan_bucket_returns (scanner_of aws gcp azure p) name) as [r Hr].
    exists r. split; [done|].
    unfold ScanOrchestrator.scan_bucket.
    assert (dict_get p (scanners (init aws gcp azure))
            = Some (scanner_of aws gcp azure p)) as ->.
    { apply dict_get_elem_of.
      - cbn. apply (bool_decide_unpack _). by vm_compute.
      - destruct p; cbn [init scanners scanner_of];
          rewrite !elem_of_cons; auto. }
    by rewrite Hr.
  - intros tasks r. apply only_results_gather.
Qed.

(** An orchestrator that was given an S3 scanner only. *)
Example orchestrator_unknown_provider (aws : Scanner) :
  ScanOrchestrator.scan_bucket {| scanners := [(AWS_S3, aws)] |} "assets" (Some GCP_GCS)
  = Returned [].
Proof. reflexivity. Qed.

End OrchestratorProperties.

(** ** The content analyzer: detection and grouping *)

Section DetectionProperties.
Import PyStr Re Py ContentAnalyzer.
#[local] Arguments any_pattern : simpl never.
#[local] Arguments list_in : simpl never.
#[local] Arguments lower : simpl never.

(** Whether [file] matches the pattern table of one entry list. *)
Definition matches_any (items : list (category * list regex)) (file : string) : bool :=
  existsb (fun item => any_pattern (snd item) (lower file)) items.

(** One file leaves the list being built as it is or adds itself at the end. *)
Lemma detect_categories_step items file sensitive :
  detect_categories items file (lower file) sensitive = sensitive
  \/ (detect_categories items file (lower file) sensitive = sensitive ++ [file]
      /\ matches_any items file = true).
Proof.
  induction items as [|[c pats] items IH]; cbn; [by left|].
  destruct (any_pattern pats (lower file)) eqn:Hp; cbn.
  - right. split; [|done].
    unfold list_in. rewrite bool_decide_eq_true_2; [done|].
    apply elem_of_app. right. apply list_elem_of_singleton. reflexivity.
  - destruct (list_in file sensitive); [by left|]. apply IH.
Qed.

(** A file that is not yet listed and matches some category is added. *)
Lemma detect_categories_fresh items file sensitive :
  file ∉ sensitive -> matches_any items file = true ->
  detect_categories items file (lower file) sensitive = sensitive ++ [file].
Proof.
  intros Hfresh. induction items as [|[c pats] items IH]; cbn; [discriminate|].
  destruct (any_pattern pats (lower file)) eqn:Hp; cbn.
  - intros _. unfold list_in. rewrite bool_decide_eq_true_2; [done|].
    apply elem_of_app. right. apply list_elem_of_singleton. reflexivity.
  - intros Hm. unfold list_in. rewrite bool_decide_eq_false_2 by done. by apply IH.
Qed.

Lemma detect_fold_sublist files sensitive :
  exists out,
    fold_left
      (fun sensitive file =>
         detect_categories SENSITIVE_PATTERNS file (lower file) sensitive)
      files sensitive = sensitive ++ out
    /\ out `sublist_of` files
    /\ Forall (fun f => matches_any SENSITIVE_PATTERNS f = true) out.
Proof.
  revert sensitive. induction files as [|file files IH]; intros sensitive; cbn [fold_left].
  - exists []. rewrite app_nil_r. repeat split; constructor.
  - destruct (detect_categories_step SENSITIVE_PATTERNS file sensitive)
      as [->|[-> Hm]].
    + destruct (IH sensitive) as (out & -> & Hsub & Hall).
      exists out. split; [reflexivity|]. split; [by apply sublist_cons|done].
    + destruct (IH (sensitive ++ [file])) as (out & -> & Hsub & Hall).
      exists (file :: out). rewrite <- app_assoc. split; [reflexivity|].
      split; [by apply sublist_skip|by constructor].
Qed.

Lemma detect_sublist files : _detect_sensitive_files files `sublist_of` files.
Proof.
  destruct (detect_fold_sublist files []) as (out & Heq & Hsub & _).
  unfold _detect_sensitive_files. by rewrite Heq.
Qed.

Lemma detect_all_match files :
  Forall (fun f => matches_any SENSITIVE_PATTERNS f = true)
    (_detect_sensitive_files files).
Proof.
  destruct (detect_fold_sublist files []) as (out & Heq & _ & Hall).
  unfold _detect_sensitive_files. by rewrite Heq.
Qed.

(** Every file of the input that matches some category is listed. *)
Lemma detect_fold_complete files sensitive f :
  f ∈ files -> matches_any SENSITIVE_PATTERNS f = true ->
  f ∈ fold_left
        (fun sensitive file =>
           detect_categories SENSITIVE_PATTERNS file (lower file) sensitive)
        files sensitive.
Proof.
  assert (Hkeep : forall files sensitive,
            f ∈ sensitive ->
            f ∈ fold_left
                  (fun sensitive file =>
                     detect_categories SENSITIVE_PATTERNS file (lower file) sensitive)
                  files sensitive).
  { clear. induction files as [|file files IH]; intros sensitive Hin; cbn [fold_left]; [done|].
    apply IH.
    destruct (detect_categories_step SENSITIVE_PATTERNS file sensitive)
      as [->|[-> _]]; [done|]. apply elem_of_app. by left. }
  revert sensitive. induction files as [|file files IH]; intros sensitive Hin Hm.
  - by apply elem_of_nil in Hin.
  - cbn [fold_left]. apply elem_of_cons in Hin as [->|Hin]; [|by apply IH].
    apply Hkeep. destruct (decide (file ∈ sensitive)) as [Hs|Hs].
    + destruct (detect_categories_step SENSITIVE_PATTERNS file sensitive)
        as [->|[-> _]]; [done|]. apply elem_of_app. by left.
    + rewrite detect_categories_fresh by done.
      apply elem_of_app. right. by apply list_elem_of_singleton.
Qed.

Lemma detect_elem_of files f :
  f ∈ _detect_sensitive_files files
  <-> f ∈ files /\ matches_any SENSITIVE_PATTERNS f = true.
Proof.
  split.
  - intros Hin. split.
    + eapply sublist_subseteq; [apply detect_sublist|done].
    + pose proof (detect_all_match files) as Hall.
      rewrite Forall_forall in Hall. by apply Hall.
  - intros [Hin Hm]. by apply detect_fold_complete.
Qed.

End DetectionProperties.

Section GroupingProperties.
Import PyStr Re Py ContentAnalyzer.
#[local] Arguments any_pattern : simpl never.
#[local] Arguments lower : simpl never.

(** [d.get(k)] on a dict keyed by category. *)
Fixpoint dict_lookup {V} (k : category) (d : list (category * V)) : option V :=
  match d with
  | [] => None
  | (k', v) :: d' => if decide (k = k') then Some v else dict_lookup k d'
  end.

(** Whether [file] matches the pattern table of category [c]. *)
Definition matches_category (c : category) (file : string) : bool :=
  match dict_lookup c SENSITIVE_PATTERNS with
  | Some patterns => any_pattern patterns (lower file)
  | None => false
  end.

Lemma dict_append_lookup c k file (d : list (category * list string)) :
  dict_lookup c (dict_append k file d) =
    if decide (c = k) then Some (default [] (dict_lookup k d) ++ [file])
    else dict_lookup c d.
Proof.
  induction d as [|[k' fs] d IH]; cbn.
  - destruct (decide (c = k)); reflexivity.
  - destruct (decide (k = k')) as [->|Hk]; cbn.
    + destruct (decide (c = k')); reflexivity.
    + rewrite IH. destruct (decide (c = k')) as [->|Hc].
      * rewrite decide_False by done. reflexivity.
      * destruct (decide (c = k)); reflexivity.
Qed.

Lemma categorize_items_lookup items file d c :
  NoDup (map fst items) ->
  dict_lookup c
    (fold_left
       (fun categorized '(cat, patterns) =>
          if any_pattern patterns (lower file)
          then dict_append cat file categorized
          else categorized)
       items d)
  = match dict_lookup c items with
    | Some patterns =>
        if any_pattern patterns (lower file)
        then Some (default [] (dict_lookup c d) ++ [file])
        else dict_lookup c d
    | None => dict_lookup c d
    end.
Proof.
  revert d. induction items as [|[k pats] items IH]; intros d Hnd; [reflexivity|].
  cbn [map fst] in Hnd. apply NoDup_cons in Hnd as [Hk Hnd].
  cbn [fold_left dict_lookup]. rewrite IH by done.
  destruct (decide (c = k)) as [->|Hc].
  - assert (dict_lookup k items = None) as ->.
    { clear -Hk. induction items as [|[k' p'] items IH]; [reflexivity|].
      cbn in *. rewrite not_elem_of_cons in Hk. destruct Hk as [Hne Hk].
      rewrite decide_False by done. by apply IH. }
    destruct (any_pattern pats (lower file)); [|reflexivity].
    rewrite dict_append_lookup, decide_True by done. reflexivity.
  - assert (dict_lookup c
              (if any_pattern pats (lower file) then dict_append k file d else d)
            = dict_lookup c d) as ->.
    { destruct (any_pattern pats (lower file)); [|reflexivity].
      rewrite dict_append_lookup, decide_False by done. reflexivity. }
    reflexivity.
Qed.

Lemma SENSITIVE_PATTERNS_keys : NoDup (map fst SENSITIVE_PATTERNS).
Proof. apply (bool_decide_unpack _). by vm_compute. Qed.

Lemma categorize_file_lookup file d c :
  dict_lookup c (categorize_file d file) =
    if matches_category c file
    then Some (default [] (dict_lookup c d) ++ [file])
    else dict_lookup c d.
Proof.
  unfold categorize_file, matches_category.
  rewrite categorize_items_lookup by apply SENSITIVE_PATTERNS_keys.
  destruct (dict_lookup c SENSITIVE_PATTERNS); reflexivity.
Qed.

Lemma categorize_fold_lookup sensitive d c :
  dict_lookup c (fold_left categorize_file sensitive d) =
    match List.filter (matches_category c) sensitive with
    | [] => dict_lookup c d
    | group => Some (default [] (dict_lookup c d) ++ group)
    end.
Proof.
  revert d. induction sensitive as [|file sensitive IH]; intros d; [reflexivity|].
  cbn [fold_left List.filter]. rewrite IH, categorize_file_lookup.
  destruct (matches_category c file); [|reflexivity].
  destruct (List.filter (matches_category c) sensitive) as [|g group];
    cbn [default]; [reflexivity|].
  unfold id. by rewrite <- app_assoc.
Qed.

(** The group of a category holds, in order, every sensitive file that
    matches the table of that category. *)
Lemma categorize_lookup sensitive c :
  dict_lookup c (categorize sensitive) =
    match List.filter (matches_category c) sensitive with
    | [] => None
    | group => Some group
    end.
Proof.
  unfold categorize. rewrite categorize_fold_lookup.
  destruct (List.filter (matches_category c) sensitive); reflexivity.
Qed.

Lemma category_name_inj c1 c2 : category_name c1 = category_name c2 -> c1 = c2.
Proof. destruct c1, c2; cbn; intros H; first [reflexivity | discriminate H]. Qed.

(** Looking a finding up by its category name is looking the group up. *)
Lemma findings_find (d : list (category * list string)) c :
  List.find (fun fd => String.eqb (f_category fd) (category_name c))
    (map make_finding d)
  = make_finding <$> (pair c <$> dict_lookup c d).
Proof.
  induction d as [|[k fs] d IH]; [reflexivity|].
  cbn [map List.find dict_lookup make_finding f_category].
  destruct (decide (c = k)) as [->|Hc].
  - rewrite String.eqb_refl. reflexivity.
  - destruct (String.eqb_spec (category_name k) (category_name c)) as [Heq|_].
    + apply category_name_inj in Heq. congruence.
    + apply IH.
Qed.

Lemma matches_any_category file :
  matches_any SENSITIVE_PATTERNS file = true
  <-> exists c, matches_category c file = true.
Proof.
  unfold matches_any, matches_category. split.
  - intros H. apply existsb_exists in H as ([c pats] & Hin & Hp).
    exists c. cbn [snd] in Hp.
    assert (dict_lookup c SENSITIVE_PATTERNS = Some pats) as ->; [|done].
    revert Hin. clear.
    destruct c; cbn; intros H;
      repeat (destruct H as [H|H]; [first [discriminate H | by injection H as <-]|]);
      by destruct H.
  - intros [c Hc].
    destruct (dict_lookup c SENSITIVE_PATTERNS) as [pats|] eqn:Hl; [|discriminate].
    apply existsb_exists. exists (c, pats). split; [|done].
    revert Hl. clear. destruct c; cbn; intros [= <-]; tauto.
Qed.

End GroupingProperties.

(** ** Binary64 arithmetic of the risk score

    The quotient [len(sensitive_files) / len(files)] and its product with
    50 are the correctly rounded values (round to nearest, ties to even) of
    the exact results.  The proofs read the rounding off the shift-and-round
    algorithm of [binary_round_aux], over the rationals. *)

Section FloatTheory.
Import Py PyFloat.
Local Open Scope Q_scope.

Definition pow2 (e : Z) : Q := (2 # 1) ^ e.

Lemma pow2_pos e : 0 < pow2 e.
Proof. apply Qpower_0_lt. reflexivity. Qed.

Lemma pow2_add a b : pow2 (a + b) == pow2 a * pow2 b.
Proof. apply Qpower_plus. discriminate. Qed.

Lemma pow2_0 : pow2 0 == 1.
Proof. reflexivity. Qed.

Lemma pow2_1 : pow2 1 == 2.
Proof. reflexivity. Qed.

Lemma pow2_m1 : pow2 (-1) == 1 # 2.
Proof. reflexivity. Qed.

Lemma pow2_Z e : (0 <= e)%Z -> pow2 e == inject_Z (2 ^ e).
Proof. intros He. unfold pow2. rewrite Zpower_Qpower by done. reflexivity. Qed.

Lemma pow2_le a b : (a <= b)%Z -> pow2 a <= pow2 b.
Proof.
  intros Hab. unfold pow2. apply Qpower_le_compat_l; [done|]. discriminate.
Qed.

Lemma pow2_lt a b : (a < b)%Z -> pow2 a < pow2 b.
Proof.
  intros Hab. unfold pow2. apply Qpower_lt_compat_l; [done|]. reflexivity.
Qed.

Lemma pow2_lt_inv a b : pow2 a < pow2 b -> (a < b)%Z.
Proof.
  intros H. destruct (Z_lt_le_dec a b) as [|Hle]; [done|].
  apply pow2_le in Hle. lra.
Qed.

Lemma pow2_inv a : pow2 a * pow2 (- a) == 1.
Proof. rewrite <- pow2_add. replace (a + - a)%Z with 0%Z by lia. reflexivity. Qed.


(** Round to nearest integer, ties to even. *)
Definition rne (u : Q) : Z :=
  let f := Qfloor u in
  match Qcompare (u - inject_Z f) (1 # 2) with
  | Lt => f
  | Eq => if Z.even f then f else (f + 1)%Z
  | Gt => (f + 1)%Z
  end.

(** Where [u] stands between [m] and [m + 1]. *)
Definition inbetween (u : Q) (m : Z) (l : location) : Prop :=
  match l with
  | loc_Exact => u == inject_Z m
  | loc_Inexact Lt => inject_Z m < u /\ u < inject_Z m + (1 # 2)
  | loc_Inexact Eq => u == inject_Z m + (1 # 2)
  | loc_Inexact Gt => inject_Z m + (1 # 2) < u /\ u < inject_Z m + 1
  end.

Lemma Qfloor_bounds (u : Q) : inject_Z (Qfloor u) <= u /\ u < inject_Z (Qfloor u) + 1.
Proof.
  split; [apply Qfloor_le|].
  pose proof (Qlt_floor u) as H. rewrite inject_Z_plus in H. exact H.
Qed.

Lemma Qfloor_unique (u : Q) (m : Z) :
  inject_Z m <= u -> u < inject_Z m + 1 -> Qfloor u = m.
Proof.
  intros Hl Hu. destruct (Qfloor_bounds u) as [H1 H2].
  assert (inject_Z (Qfloor u) < inject_Z (m + 1)) as H3.
  { rewrite inject_Z_plus. change (inject_Z 1) with 1. lra. }
  assert (inject_Z m < inject_Z (Qfloor u + 1)) as H4.
  { rewrite inject_Z_plus. change (inject_Z 1) with 1. lra. }
  rewrite <- Zlt_Qlt in H3, H4. lia.
Qed.

Lemma inbetween_floor u m l : inbetween u m l -> Qfloor u = m.
Proof.
  intros H. apply Qfloor_unique; destruct l as [|[]]; cbn in H; lra.
Qed.

Lemma rne_inbetween u m l :
  inbetween u m l -> round_nearest_even m l = rne u.
Proof.
  intros H. unfold rne. rewrite (inbetween_floor u m l H).
  destruct l as [|[]]; cbn in H; cbn [round_nearest_even].
  - assert (u - inject_Z m < 1 # 2) as Hc by lra.
    rewrite Qlt_alt in Hc. by rewrite Hc.
  - assert (u - inject_Z m == 1 # 2) as Hc by lra.
    rewrite Qeq_alt in Hc. by rewrite Hc.
  - assert (u - inject_Z m < 1 # 2) as Hc by lra.
    rewrite Qlt_alt in Hc. by rewrite Hc.
  - assert (1 # 2 < u - inject_Z m) as Hc by lra.
    rewrite Qgt_alt in Hc. by rewrite Hc.
Qed.

Lemma rne_bounds u : inject_Z (rne u) - (1 # 2) <= u /\ u <= inject_Z (rne u) + (1 # 2).
Proof.
  unfold rne. destruct (Qfloor_bounds u) as [H1 H2].
  destruct (Qcompare (u - inject_Z (Qfloor u)) (1 # 2)) eqn:Hc.
  - rewrite <- Qeq_alt in Hc. destruct (Z.even (Qfloor u));
      rewrite ?inject_Z_plus; change (inject_Z 1) with 1; lra.
  - rewrite <- Qlt_alt in Hc. lra.
  - rewrite <- Qgt_alt in Hc. rewrite inject_Z_plus.
    change (inject_Z 1) with 1. lra.
Qed.

Lemma rne_Z (m : Z) : rne (inject_Z m) = m.
Proof.
  rewrite <- (rne_inbetween (inject_Z m) m loc_Exact); [reflexivity|].
  cbn. reflexivity.
Qed.

Lemma rne_mono u v : u <= v -> (rne u <= rne v)%Z.
Proof.
  intros Huv. pose proof (Qfloor_resp_le u v Huv) as Hf.
  destruct (Qfloor_bounds u) as [Hu1 Hu2]. destruct (Qfloor_bounds v) as [Hv1 Hv2].
  unfold rne.
  destruct (Z.eq_dec (Qfloor u) (Qfloor v)) as [Heq|Hne].
  - rewrite Heq in *.
    destruct (Qcompare_spec (u - inject_Z (Qfloor v)) (1 # 2)) as [Hcu|Hcu|Hcu];
      destruct (Qcompare_spec (v - inject_Z (Qfloor v)) (1 # 2)) as [Hcv|Hcv|Hcv];
      destruct (Z.even (Qfloor v)); try lia; lra.
  - destruct (Qcompare (u - inject_Z (Qfloor u)) (1 # 2));
      destruct (Qcompare (v - inject_Z (Qfloor v)) (1 # 2));
      try destruct (Z.even (Qfloor u)); try destruct (Z.even (Qfloor v)); lia.
Qed.

Lemma rne_le_Z u (m : Z) : u <= inject_Z m -> (rne u <= m)%Z.
Proof. intros H. rewrite <- (rne_Z m). by apply rne_mono. Qed.

Lemma rne_ge_Z u (m : Z) : inject_Z m <= u -> (m <= rne u)%Z.
Proof. intros H. rewrite <- (rne_Z m). by apply rne_mono. Qed.

Lemma rne_comp u v : u == v -> rne u = rne v.
Proof.
  intros H. apply Z.le_antisymm; apply rne_mono; lra.
Qed.


(** A shift record locates [u] when its mantissa is not negative and its
    round and sticky bits say where [u] stands above the mantissa. *)
Definition locates (u : Q) (mrs : shr_record) : Prop :=
  (0 <= shr_m mrs)%Z /\ inbetween u (shr_m mrs) (loc_of_shr_record mrs).

Lemma inject_Z_xO p : inject_Z (Z.pos p~0) == 2 * inject_Z (Z.pos p).
Proof. rewrite Pos2Z.inj_xO, inject_Z_mult. reflexivity. Qed.

Lemma inject_Z_xI p : inject_Z (Z.pos p~1) == 2 * inject_Z (Z.pos p) + 1.
Proof. rewrite Pos2Z.inj_xI, inject_Z_plus, inject_Z_mult. reflexivity. Qed.

Lemma shr_1_locates u mrs : locates u mrs -> locates (u * (1 # 2)) (shr_1 mrs).
Proof.
  destruct mrs as [m r s]. unfold locates. cbn [shr_m].
  intros [Hm H]. destruct m as [|p|p]; [| |lia].
  - destruct r, s; cbn [shr_1 shr_m loc_of_shr_record inbetween orb] in *;
      change (inject_Z 0) with 0 in *; change (inject_Z 1) with 1 in *;
      (split; [lia|]); lra.
  - destruct p as [p|p|].
    + pose proof (inject_Z_xI p) as Hp.
      destruct r, s; cbn [shr_1 shr_m loc_of_shr_record inbetween orb] in *;
      change (inject_Z 0) with 0 in *; change (inject_Z 1) with 1 in *;
      (split; [lia|]); lra.
    + pose proof (inject_Z_xO p) as Hp.
      destruct r, s; cbn [shr_1 shr_m loc_of_shr_record inbetween orb] in *;
      change (inject_Z 0) with 0 in *; change (inject_Z 1) with 1 in *;
      (split; [lia|]); lra.
    + destruct r, s; cbn [shr_1 shr_m loc_of_shr_record inbetween orb] in *;
      change (inject_Z 0) with 0 in *; change (inject_Z 1) with 1 in *;
      (split; [lia|]); lra.
Qed.

Lemma iter_pos_shr_1_locates p u mrs :
  locates u mrs ->
  locates (u * pow2 (- Z.pos p)) (SpecFloat.iter_pos shr_1 p mrs).
Proof.
  revert u mrs. induction p as [p IH|p IH|]; intros u mrs H; cbn [SpecFloat.iter_pos].
  - apply shr_1_locates, IH, IH in H.
    assert (u * pow2 (- Z.pos p~1)
            == u * (1 # 2) * pow2 (- Z.pos p) * pow2 (- Z.pos p)) as Heq.
    { replace (- Z.pos p~1)%Z with (-1 + (- Z.pos p + - Z.pos p))%Z by lia.
      rewrite !pow2_add, pow2_m1. ring. }
    destruct H as [H1 H2]. split; [done|].
    revert H2. generalize (SpecFloat.iter_pos shr_1 p (SpecFloat.iter_pos shr_1 p (shr_1 mrs))).
    intros mrs' H2. destruct (loc_of_shr_record mrs') as [|[]]; cbn [inbetween] in *; lra.
  - apply IH, IH in H.
    assert (u * pow2 (- Z.pos p~0)
            == u * pow2 (- Z.pos p) * pow2 (- Z.pos p)) as Heq.
    { replace (- Z.pos p~0)%Z with (- Z.pos p + - Z.pos p)%Z by lia.
      rewrite !pow2_add. ring. }
    destruct H as [H1 H2]. split; [done|].
    revert H2. generalize (SpecFloat.iter_pos shr_1 p (SpecFloat.iter_pos shr_1 p mrs)).
    intros mrs' H2. destruct (loc_of_shr_record mrs') as [|[]]; cbn [inbetween] in *; lra.
  - apply shr_1_locates in H. exact H.
Qed.


Lemma locates_comp u v mrs : u == v -> locates u mrs -> locates v mrs.
Proof.
  intros Huv [H1 H2]. split; [done|].
  destruct (loc_of_shr_record mrs) as [|[]]; cbn [inbetween] in *; lra.
Qed.

Lemma shr_locates x e n mrs :
  (0 <= n)%Z -> locates (x * pow2 (- e)) mrs ->
  snd (shr mrs e n) = (e + n)%Z
  /\ locates (x * pow2 (- (e + n))) (fst (shr mrs e n)).
Proof.
  intros Hn H. destruct n as [|p|p]; [| |lia]; cbn [shr fst snd].
  - replace (e + 0)%Z with e by lia. done.
  - split; [reflexivity|].
    apply (iter_pos_shr_1_locates p) in H.
    eapply locates_comp; [|exact H].
    replace (- (e + Z.pos p))%Z with (- e + - Z.pos p)%Z by lia.
    rewrite pow2_add. ring.
Qed.

Lemma shr_nonpos mrs e n : (n <= 0)%Z -> shr mrs e n = (mrs, e).
Proof. intros Hn. destruct n; [reflexivity|lia|reflexivity]. Qed.

Lemma shr_record_of_loc_locates u m l :
  (0 <= m)%Z -> inbetween u m l -> locates u (shr_record_of_loc m l).
Proof. intros Hm H. split; destruct l as [|[]]; done. Qed.

Lemma digits2_pos_bounds p :
  (2 ^ (Z.pos (digits2_pos p) - 1) <= Z.pos p < 2 ^ Z.pos (digits2_pos p))%Z.
Proof.
  induction p as [p IH|p IH|]; cbn [digits2_pos]; [| |cbn; lia].
  - rewrite Pos2Z.inj_succ. change (Z.pos p~1) with (2 * Z.pos p + 1)%Z.
    replace (Z.succ (Z.pos (digits2_pos p)) - 1)%Z
      with (Z.succ (Z.pos (digits2_pos p) - 1)) by lia.
    rewrite !Z.pow_succ_r by lia. lia.
  - rewrite Pos2Z.inj_succ. change (Z.pos p~0) with (2 * Z.pos p)%Z.
    replace (Z.succ (Z.pos (digits2_pos p)) - 1)%Z
      with (Z.succ (Z.pos (digits2_pos p) - 1)) by lia.
    rewrite !Z.pow_succ_r by lia. lia.
Qed.

(** [d] is the magnitude of [x]: [2^(d-1) <= x < 2^d]. *)
Definition mag_of (x : Q) (d : Z) : Prop := pow2 (d - 1) <= x /\ x < pow2 d.

Lemma mag_of_unique x d1 d2 : mag_of x d1 -> mag_of x d2 -> d1 = d2.
Proof.
  intros [H1 H2] [H3 H4].
  assert (pow2 (d1 - 1) < pow2 d2) as Ha by lra.
  assert (pow2 (d2 - 1) < pow2 d1) as Hb by lra.
  apply pow2_lt_inv in Ha, Hb. lia.
Qed.

Lemma pow2_cancel x e : x * pow2 (- e) * pow2 e == x.
Proof. rewrite <- Qmult_assoc, (Qmult_comm (pow2 (- e))), pow2_inv. ring. Qed.

Lemma mag_of_mantissa p e x :
  inject_Z (Z.pos p) <= x * pow2 (- e) ->
  x * pow2 (- e) < inject_Z (Z.pos p) + 1 ->
  mag_of x (Z.pos (digits2_pos p) + e).
Proof.
  intros Hl Hu. destruct (digits2_pos_bounds p) as [Hd1 Hd2].
  set (dp := Z.pos (digits2_pos p)) in *.
  assert (0 < dp)%Z as Hdp by (unfold dp; lia).
  assert (pow2 (dp - 1) <= x * pow2 (- e)) as Hl'.
  { pose proof (pow2_Z (dp - 1) ltac:(lia)) as Hp.
    rewrite Zle_Qle in Hd1. lra. }
  assert (x * pow2 (- e) < pow2 dp) as Hu'.
  { pose proof (pow2_Z dp ltac:(lia)) as Hp.
    assert (Z.pos p + 1 <= 2 ^ dp)%Z as H by lia.
    rewrite Zle_Qle, inject_Z_plus in H. change (inject_Z 1) with 1 in H. lra. }
  pose proof (pow2_pos e) as He. pose proof (pow2_cancel x e) as Hc.
  split.
  - replace (dp + e - 1)%Z with ((dp - 1) + e)%Z by lia.
    pose proof (pow2_add (dp - 1) e) as Ha.
    assert (pow2 (dp - 1) * pow2 e <= x * pow2 (- e) * pow2 e)
      by (apply Qmult_le_compat_r; lra). lra.
  - pose proof (pow2_add dp e) as Ha.
    assert (x * pow2 (- e) * pow2 e < pow2 dp * pow2 e)
      by (apply Qmult_lt_compat_r; lra). lra.
Qed.


Lemma fexp_eq d : fexp prec emax d = Z.max (d - 53) (-1074).
Proof. reflexivity. Qed.

(** The value of [x], of magnitude [d], rounded to nearest even in binary64. *)
Definition round_val (x : Q) (d : Z) : Q :=
  inject_Z (rne (x * pow2 (- fexp prec emax d))) * pow2 (fexp prec emax d).

Lemma inbetween_bounds u m l :
  inbetween u m l -> inject_Z m <= u /\ u < inject_Z m + 1.
Proof. destruct l as [|[]]; cbn [inbetween]; lra. Qed.

Lemma shr_fexp_first x m e l d :
  0 < x -> (0 <= m)%Z -> inbetween (x * pow2 (- e)) m l -> mag_of x d ->
  (e <= fexp prec emax d)%Z ->
  snd (shr_fexp prec emax m e l) = fexp prec emax d
  /\ locates (x * pow2 (- fexp prec emax d)) (fst (shr_fexp prec emax m e l)).
Proof.
  intros Hx Hm Hin Hmag He.
  assert (fexp prec emax (Zdigits2 m + e) = fexp prec emax d) as Hfexp.
  { destruct (inbetween_bounds _ _ _ Hin) as [Hl Hu].
    destruct m as [|p|p]; [| |lia].
    - change (inject_Z 0) with 0 in *. cbn [Zdigits2].
      pose proof (pow2_cancel x e) as Hc. pose proof (pow2_pos e) as Hpe.
      assert (x * pow2 (- e) * pow2 e < 1 * pow2 e) as Hlt
        by (apply Qmult_lt_compat_r; lra).
      destruct Hmag as [Hm1 Hm2].
      assert (pow2 (d - 1) < pow2 e) as Hde by lra.
      apply pow2_lt_inv in Hde. rewrite !fexp_eq in *. lia.
    - cbn [Zdigits2].
      rewrite (mag_of_unique x _ _ (mag_of_mantissa p e x Hl Hu) Hmag).
      reflexivity. }
  unfold shr_fexp. rewrite Hfexp.
  pose proof (shr_locates x e (fexp prec emax d - e) (shr_record_of_loc m l)
                ltac:(lia) (shr_record_of_loc_locates _ _ _ Hm Hin)) as [H1 H2].
  replace (e + (fexp prec emax d - e))%Z with (fexp prec emax d) in * by lia.
  done.
Qed.


Lemma pos_ge_1 q : 1 <= inject_Z (Z.pos q).
Proof. change 1 with (inject_Z 1). rewrite <- Zle_Qle. lia. Qed.

Lemma binary_round_aux_correct x m e l d :
  0 < x -> (0 <= m)%Z -> inbetween (x * pow2 (- e)) m l -> mag_of x d ->
  (e <= fexp prec emax d)%Z -> (d < emax)%Z ->
  (binary_round_aux prec emax false m e l = S754_zero false
   /\ round_val x d == 0)
  \/ exists m' e',
       binary_round_aux prec emax false m e l = S754_finite false m' e'
       /\ inject_Z (Z.pos m') * pow2 e' == round_val x d.
Proof.
  intros Hx Hm Hin Hmag He Hd.
  destruct (shr_fexp_first x m e l d Hx Hm Hin Hmag He) as [He1 Hloc].
  unfold binary_round_aux, round_val.
  destruct (shr_fexp prec emax m e l) as [mrs1 e1]. cbn [fst snd] in *. subst e1.
  pose proof (fexp_eq d) as Hc. pose proof (fexp_eq (d + 1)) as Hc1.
  set (c := fexp prec emax d) in *.
  destruct Hloc as [Hm1 Hin1].
  rewrite (rne_inbetween _ _ _ Hin1).
  set (u1 := x * pow2 (- c)) in *.
  pose proof (pow2_pos (- c)) as Hpc.
  assert (0 < u1) as Hu1 by (unfold u1; apply Qmult_lt_0_compat; lra).
  assert (u1 < pow2 (d - c)) as Hu1'.
  { destruct Hmag as [_ Hm2]. pose proof (pow2_add d (- c)) as Ha.
    replace (d + - c)%Z with (d - c)%Z in Ha by lia.
    assert (x * pow2 (- c) < pow2 d * pow2 (- c))
      by (apply Qmult_lt_compat_r; lra).
    unfold u1. lra. }
  assert (0 <= rne u1)%Z as Hmr0.
  { apply rne_ge_Z. change (inject_Z 0) with 0. lra. }
  destruct (rne_bounds u1) as [Hb1 Hb2].
  unfold shr_fexp. cbn [shr_record_of_loc].
  destruct (rne u1) as [|q|q] eqn:Hmr; [| |lia].
  - left. cbn [Zdigits2].
    rewrite shr_nonpos by (pose proof (fexp_eq (0 + c)); lia).
    cbn [shr_m]. split; [reflexivity|]. change (inject_Z 0) with 0. ring.
  - right. pose proof (pos_ge_1 q) as Hq1.
    assert (0 <= d - c)%Z as HN.
    { destruct (Z_lt_le_dec (d - c) 0) as [Hneg|]; [exfalso|done].
      assert (pow2 (d - c) <= pow2 (-1)) as Hle by (apply pow2_le; lia).
      pose proof pow2_m1. lra. }
    assert (Z.pos q <= 2 ^ (d - c))%Z as HqN.
    { rewrite <- Hmr. apply rne_le_Z.
      pose proof (pow2_Z (d - c) HN). lra. }
    destruct (digits2_pos_bounds q) as [Hd1 Hd2].
    cbn [Zdigits2]. set (dq := Z.pos (digits2_pos q)) in *.
    assert (0 < dq)%Z as Hdq by (unfold dq; lia).
    assert (dq - 1 <= d - c)%Z as Hdq1.
    { apply (Z.pow_le_mono_r_iff 2); lia. }
    assert (c <= emax - prec)%Z as Hcmax by (unfold emax, prec in *; lia).
    destruct (Z_le_gt_dec (fexp prec emax (dq + c) - c) 0) as [Hn|Hn].
    + rewrite shr_nonpos by done. cbn [shr_m].
      destruct (Z.leb_spec c (emax - prec)); [|lia].
      exists q, c. split; reflexivity.
    + pose proof (fexp_eq (dq + c)) as Hc2.
      assert (dq = d - c + 1 /\ c = d - 53)%Z as [Hdq2 Hcd] by lia.
      assert (Z.pos q = 2 ^ 53)%Z as Hq.
      { assert (2 ^ (dq - 1) = 2 ^ 53)%Z as <- by (f_equal; lia).
        replace (d - c)%Z with 53%Z in HqN by lia.
        replace (dq - 1)%Z with 53%Z in * by lia. lia. }
      assert (fexp prec emax (dq + c) - c = 1)%Z as -> by lia.
      assert (q = 9007199254740992%positive) as -> by (cbn in Hq; lia).
      change (shr {| shr_m := 9007199254740992; shr_r := false; shr_s := false |} c 1)
        with ({| shr_m := 4503599627370496; shr_r := false; shr_s := false |}, (c + 1)%Z).
      cbn [shr_m].
      destruct (Z.leb_spec (c + 1) (emax - prec)); [|unfold emax, prec in *; lia].
      exists 4503599627370496%positive, (c + 1)%Z. split; [reflexivity|].
      pose proof (pow2_add c 1) as Ha. pose proof pow2_1 as H21.
      assert (inject_Z 9007199254740992 == 2 * inject_Z 4503599627370496)
        as H2 by reflexivity.
      rewrite Ha, H21, H2. ring.
Qed.


Lemma pow2_le_inv a b : pow2 a <= pow2 b -> (a <= b)%Z.
Proof.
  intros H. destruct (Z_le_gt_dec a b) as [|Hgt]; [done|].
  assert (pow2 b < pow2 a) by (apply pow2_lt; lia). lra.
Qed.

Lemma round_val_nonneg x d : 0 <= x -> 0 <= round_val x d.
Proof.
  intros Hx. unfold round_val.
  pose proof (pow2_pos (fexp prec emax d)). pose proof (pow2_pos (- fexp prec emax d)).
  apply Qmult_le_0_compat; [|lra].
  change 0 with (inject_Z 0). rewrite <- Zle_Qle. apply rne_ge_Z.
  change (inject_Z 0) with 0. apply Qmult_le_0_compat; lra.
Qed.

Lemma round_val_same_exp x1 d1 x2 d2 :
  fexp prec emax d1 = fexp prec emax d2 -> x1 <= x2 ->
  round_val x1 d1 <= round_val x2 d2.
Proof.
  intros Hc Hx. unfold round_val. rewrite Hc.
  pose proof (pow2_pos (fexp prec emax d2)). pose proof (pow2_pos (- fexp prec emax d2)).
  apply Qmult_le_compat_r; [|lra].
  rewrite <- Zle_Qle. apply rne_mono. apply Qmult_le_compat_r; lra.
Qed.

Lemma round_val_le_pow2 x d : 0 < x -> x < pow2 d -> round_val x d <= pow2 d.
Proof.
  intros Hx Hd. unfold round_val. set (c := fexp prec emax d).
  pose proof (pow2_pos c) as Hpc. pose proof (pow2_pos (- c)) as Hpc'.
  pose proof (pow2_pos d) as Hpd.
  assert (x * pow2 (- c) < pow2 (d - c)) as Hu.
  { pose proof (pow2_add d (- c)) as Ha.
    replace (d + - c)%Z with (d - c)%Z in Ha by lia.
    assert (x * pow2 (- c) < pow2 d * pow2 (- c))
      by (apply Qmult_lt_compat_r; lra). lra. }
  destruct (Z_lt_le_dec (d - c) 0) as [Hneg|Hpos].
  - assert (pow2 (d - c) <= pow2 (-1)) as Hle by (apply pow2_le; lia).
    pose proof pow2_m1.
    assert (rne (x * pow2 (- c)) <= 0)%Z as Hr.
    { destruct (rne_bounds (x * pow2 (- c))) as [Hb _].
      assert (inject_Z (rne (x * pow2 (- c))) < inject_Z 1) as Hlt
        by (change (inject_Z 1) with 1; lra).
      rewrite <- Zlt_Qlt in Hlt. lia. }
    rewrite Zle_Qle in Hr. change (inject_Z 0) with 0 in Hr.
    assert (inject_Z (rne (x * pow2 (- c))) * pow2 c <= 0 * pow2 c)
      by (apply Qmult_le_compat_r; lra). lra.
  - assert (rne (x * pow2 (- c)) <= 2 ^ (d - c))%Z as Hr.
    { apply rne_le_Z. pose proof (pow2_Z (d - c) Hpos). lra. }
    rewrite Zle_Qle in Hr. pose proof (pow2_Z (d - c) Hpos) as Hz.
    pose proof (pow2_add (d - c) c) as Ha.
    replace (d - c + c)%Z with d in Ha by lia.
    assert (inject_Z (rne (x * pow2 (- c))) * pow2 c <= pow2 (d - c) * pow2 c)
      by (apply Qmult_le_compat_r; lra). lra.
Qed.

Lemma round_val_ge_pow2 x d :
  pow2 (d - 1) <= x -> (fexp prec emax d <= d - 1)%Z ->
  pow2 (d - 1) <= round_val x d.
Proof.
  intros Hx Hd. unfold round_val. set (c := fexp prec emax d) in *.
  pose proof (pow2_pos c) as Hpc. pose proof (pow2_pos (- c)) as Hpc'.
  assert (0 <= d - 1 - c)%Z as Hpos by lia.
  assert (pow2 (d - 1 - c) <= x * pow2 (- c)) as Hu.
  { pose proof (pow2_add (d - 1) (- c)) as Ha.
    replace (d - 1 + - c)%Z with (d - 1 - c)%Z in Ha by lia.
    assert (pow2 (d - 1) * pow2 (- c) <= x * pow2 (- c))
      by (apply Qmult_le_compat_r; lra). lra. }
  assert (2 ^ (d - 1 - c) <= rne (x * pow2 (- c)))%Z as Hr.
  { apply rne_ge_Z. pose proof (pow2_Z (d - 1 - c) Hpos). lra. }
  rewrite Zle_Qle in Hr. pose proof (pow2_Z (d - 1 - c) Hpos) as Hz.
  pose proof (pow2_add (d - 1 - c) c) as Ha.
  replace (d - 1 - c + c)%Z with (d - 1)%Z in Ha by lia.
  assert (pow2 (d - 1 - c) * pow2 c <= inject_Z (rne (x * pow2 (- c))) * pow2 c)
    by (apply Qmult_le_compat_r; lra). lra.
Qed.

(** Rounding to nearest even is monotone. *)
Lemma round_val_mono x1 d1 x2 d2 :
  0 < x1 -> x1 <= x2 -> mag_of x1 d1 -> mag_of x2 d2 ->
  round_val x1 d1 <= round_val x2 d2.
Proof.
  intros Hx1 Hx [Ha1 Ha2] [Hb1 Hb2].
  assert (d1 <= d2)%Z as Hd.
  { assert (pow2 (d1 - 1) < pow2 d2) as H by lra. apply pow2_lt_inv in H. lia. }
  destruct (Z.eq_dec (fexp prec emax d1) (fexp prec emax d2)) as [Hc|Hc].
  - by apply round_val_same_exp.
  - pose proof (fexp_eq d1). pose proof (fexp_eq d2).
    assert (d1 <= d2 - 1)%Z as Hd' by lia.
    apply pow2_le in Hd'.
    pose proof (round_val_le_pow2 x1 d1 Hx1 Ha2).
    pose proof (round_val_ge_pow2 x2 d2 Hb1 ltac:(lia)). lra.
Qed.


Lemma Qmul_lt_cancel x y z : 0 < z -> x * z < y * z -> x < y.
Proof. intros Hz H. by apply (Qmult_lt_r _ _ z Hz). Qed.

Lemma Qmul_le_cancel x y z : 0 < z -> x * z <= y * z -> x <= y.
Proof. intros Hz H. by apply (Qmult_le_r _ _ z Hz). Qed.

Lemma Qmul_eq_cancel x y z : 0 < z -> x * z == y * z -> x == y.
Proof.
  intros Hz H. apply Qle_antisym; apply (Qmul_le_cancel _ _ z Hz); lra.
Qed.

(** The location that division reports for the remainder [r] of a
    division by [m2] is where [r / m2] stands in the unit interval. *)
Lemma new_location_inbetween (m2 q r : Z) (u : Q) :
  (0 <= r < m2)%Z ->
  u * inject_Z m2 == inject_Z q * inject_Z m2 + inject_Z r ->
  inbetween u q (new_location m2 r).
Proof.
  intros [Hr0 Hr] Hu.
  assert (0 < inject_Z m2) as HM.
  { change 0 with (inject_Z 0). rewrite <- Zlt_Qlt. lia. }
  assert (forall a b : Z, (a < b)%Z -> inject_Z a < inject_Z b) as Hlt
    by (intros a b H; by rewrite <- Zlt_Qlt).
  assert (inject_Z (2 * r) == 2 * inject_Z r) as H2r
    by (rewrite inject_Z_mult; reflexivity).
  assert (0 <= inject_Z r) as HR0.
  { change 0 with (inject_Z 0). rewrite <- Zle_Qle. lia. }
  assert (inject_Z r < inject_Z m2) as HRM by (apply Hlt; lia).
  assert (r = 0%Z -> inbetween u q loc_Exact) as Hexact.
  { intros Hz. cbn [inbetween]. apply (Qmul_eq_cancel _ _ _ HM).
    rewrite Hz in Hu. change (inject_Z 0) with 0 in Hu. lra. }
  assert ((2 * r < m2)%Z -> r <> 0%Z -> inbetween u q (loc_Inexact Lt)) as HLt.
  { intros Hc Hne. apply Hlt in Hc. rewrite H2r in Hc.
    assert (0 < inject_Z r) as HRpos.
    { change 0 with (inject_Z 0). apply Hlt. lia. }
    cbn [inbetween]. split; apply (Qmul_lt_cancel _ _ _ HM); lra. }
  assert ((2 * r > m2)%Z -> inbetween u q (loc_Inexact Gt)) as HGt.
  { intros Hc. assert (m2 < 2 * r)%Z as Hc' by lia.
    apply Hlt in Hc'. rewrite H2r in Hc'.
    cbn [inbetween]. split; apply (Qmul_lt_cancel _ _ _ HM); lra. }
  assert ((2 * r = m2)%Z -> inbetween u q (loc_Inexact Eq)) as HEq.
  { intros Hc. assert (2 * inject_Z r == inject_Z m2) as Hc'.
    { rewrite <- H2r. by rewrite Hc. }
    cbn [inbetween]. apply (Qmul_eq_cancel _ _ _ HM). lra. }
  unfold new_location, new_location_even, new_location_odd.
  destruct (Z.even m2) eqn:Heven.
  - destruct (Z.eqb_spec r 0) as [Hz|Hz]; [by apply Hexact|].
    change (Z.pos 2 * r)%Z with (2 * r)%Z.
    destruct (Z.compare_spec (2 * r) m2); [by apply HEq|by apply HLt|].
    apply HGt. lia.
  - destruct (Z.eqb_spec r 0) as [Hz|Hz]; [by apply Hexact|].
    change (Z.pos 2 * r + Z.pos 1)%Z with (2 * r + 1)%Z.
    assert (2 * r <> m2)%Z as Hodd.
    { intros <-. rewrite Z.even_mul in Heven. discriminate. }
    destruct (Z.compare_spec (2 * r + 1) m2).
    + apply HLt; lia.
    + apply HLt; lia.
    + apply HGt. lia.
Qed.


Lemma inject_pos_gt_0 p : 0 < inject_Z (Z.pos p).
Proof. pose proof (pos_ge_1 p). lra. Qed.

Lemma Qdiv_pos_mul p q : inject_Z (Z.pos p) / inject_Z (Z.pos q) * inject_Z (Z.pos q)
                         == inject_Z (Z.pos p).
Proof. field. pose proof (inject_pos_gt_0 q). lra. Qed.

Lemma Qdiv_pos_gt_0 p q : 0 < inject_Z (Z.pos p) / inject_Z (Z.pos q).
Proof.
  apply (Qmul_lt_cancel _ _ (inject_Z (Z.pos q)) (inject_pos_gt_0 q)).
  rewrite Qdiv_pos_mul. pose proof (inject_pos_gt_0 p). lra.
Qed.

(** The magnitude of a quotient is at least the difference of the digit
    counts. *)
Lemma quotient_mag_lower ps pn d :
  mag_of (inject_Z (Z.pos ps) / inject_Z (Z.pos pn)) d ->
  (Z.pos (digits2_pos ps) - Z.pos (digits2_pos pn) <= d)%Z.
Proof.
  intros [_ Hu].
  destruct (digits2_pos_bounds ps) as [Hs1 _].
  destruct (digits2_pos_bounds pn) as [_ Hn2].
  set (d1 := Z.pos (digits2_pos ps)) in *. set (d2 := Z.pos (digits2_pos pn)) in *.
  assert (0 < d1)%Z by (unfold d1; lia). assert (0 < d2)%Z by (unfold d2; lia).
  pose proof (pow2_Z (d1 - 1) ltac:(lia)) as Hp1.
  pose proof (pow2_Z d2 ltac:(lia)) as Hp2.
  rewrite Zle_Qle in Hs1. rewrite Zlt_Qlt in Hn2.
  pose proof (pow2_add (d1 - d2 - 1) d2) as Ha.
  replace (d1 - d2 - 1 + d2)%Z with (d1 - 1)%Z in Ha by lia.
  pose proof (Qdiv_pos_mul ps pn) as Hx. pose proof (inject_pos_gt_0 pn) as HM.
  pose proof (pow2_pos (d1 - d2 - 1)) as Hp.
  assert (pow2 (d1 - d2 - 1) * inject_Z (Z.pos pn)
          < pow2 (d1 - d2 - 1) * pow2 d2) as Hlt.
  { rewrite !(Qmult_comm (pow2 (d1 - d2 - 1))). apply Qmult_lt_compat_r; lra. }
  assert (pow2 (d1 - d2 - 1) < inject_Z (Z.pos ps) / inject_Z (Z.pos pn)) as Hlow.
  { apply (Qmul_lt_cancel _ _ _ HM). lra. }
  assert (pow2 (d1 - d2 - 1) < pow2 d) as Hd by lra.
  apply pow2_lt_inv in Hd. lia.
Qed.

Lemma SFdiv_lengths ps pn d :
  mag_of (inject_Z (Z.pos ps) / inject_Z (Z.pos pn)) d -> (d < emax)%Z ->
  (SFdiv prec emax (S754_finite false ps 0) (S754_finite false pn 0)
     = S754_zero false
   /\ round_val (inject_Z (Z.pos ps) / inject_Z (Z.pos pn)) d == 0)
  \/ exists m' e',
       SFdiv prec emax (S754_finite false ps 0) (S754_finite false pn 0)
         = S754_finite false m' e'
       /\ inject_Z (Z.pos m') * pow2 e'
          == round_val (inject_Z (Z.pos ps) / inject_Z (Z.pos pn)) d.
Proof.
  intros Hmag Hd. pose proof (quotient_mag_lower ps pn d Hmag) as Hlow.
  cbn [SFdiv xorb]. unfold SFdiv_core_binary. cbn [Zdigits2].
  set (d1 := Z.pos (digits2_pos ps)) in *. set (d2 := Z.pos (digits2_pos pn)) in *.
  pose proof (fexp_eq (d1 + 0 - (d2 + 0))) as Hf. pose proof (fexp_eq d) as Hfd.
  set (e' := Z.min (fexp prec emax (d1 + 0 - (d2 + 0))) (0 - 0)) in *.
  assert (e' <= 0)%Z as He0 by lia.
  assert (e' <= fexp prec emax d)%Z as Hed by lia.
  set (sh := (0 - 0 - e')%Z).
  assert (match sh with
          | 0%Z => Z.pos ps
          | Z.pos _ => Z.shiftl (Z.pos ps) sh
          | Z.neg _ => 0%Z
          end = (Z.pos ps * 2 ^ sh)%Z) as ->.
  { assert (0 <= sh)%Z as Hsh by (unfold sh; lia).
    destruct sh as [|p|p] eqn:Hs; [lia| |lia].
    apply Z.shiftl_mul_pow2. lia. }
  pose proof (Z_div_mod (Z.pos ps * 2 ^ sh) (Z.pos pn) ltac:(lia)) as Hdm.
  destruct (Z.div_eucl (Z.pos ps * 2 ^ sh) (Z.pos pn)) as [q r].
  destruct Hdm as [Heq Hr].
  assert (0 <= sh)%Z as Hsh by (unfold sh; lia).
  assert (0 <= q)%Z as Hq.
  { assert (0 <= Z.pos ps * 2 ^ sh)%Z by (apply Z.mul_nonneg_nonneg; lia). nia. }
  apply binary_round_aux_correct; [apply Qdiv_pos_gt_0|done| |done|done|done].
  apply new_location_inbetween; [done|].
  replace (- e')%Z with sh by (unfold sh; lia).
  pose proof (pow2_Z sh Hsh) as Hp. pose proof (Qdiv_pos_mul ps pn) as Hx.
  assert (inject_Z (Z.pos ps) * inject_Z (2 ^ sh)
          == inject_Z (Z.pos pn) * inject_Z q + inject_Z r) as Hz.
  { rewrite <- !inject_Z_mult, <- inject_Z_plus. by rewrite Heq. }
  rewrite Hp.
  transitivity (inject_Z (Z.pos ps) / inject_Z (Z.pos pn) * inject_Z (Z.pos pn)
                * inject_Z (2 ^ sh)); [ring|].
  rewrite Hx, Hz. ring.
Qed.


Lemma fifty_eq : fifty = S754_finite false 7036874417766400 (-47).
Proof. reflexivity. Qed.

Lemma SFmul_fifty m e d :
  mag_of (50 * (inject_Z (Z.pos m) * pow2 e)) d -> (d < emax)%Z ->
  (SFmul prec emax (S754_finite false m e) fifty = S754_zero false
   /\ round_val (50 * (inject_Z (Z.pos m) * pow2 e)) d == 0)
  \/ exists m' e',
       SFmul prec emax (S754_finite false m e) fifty = S754_finite false m' e'
       /\ inject_Z (Z.pos m') * pow2 e'
          == round_val (50 * (inject_Z (Z.pos m) * pow2 e)) d.
Proof.
  intros Hmag Hd. rewrite fifty_eq. cbn [SFmul xorb].
  set (x := 50 * (inject_Z (Z.pos m) * pow2 e)) in *.
  pose proof (inject_pos_gt_0 m) as Hm. pose proof (pow2_pos e) as Hpe.
  assert (0 < x) as Hx.
  { unfold x. apply Qmult_lt_0_compat; [reflexivity|].
    apply Qmult_lt_0_compat; lra. }
  assert (x * pow2 (- (e + -47))
          == inject_Z (Z.pos (m * 7036874417766400))) as Hexact.
  { replace (- (e + -47))%Z with (- e + 47)%Z by lia.
    rewrite pow2_add, Pos2Z.inj_mul, inject_Z_mult. unfold x.
    assert (pow2 47 * 50 == inject_Z 7036874417766400) as <- by reflexivity.
    pose proof (pow2_inv e) as Hi.
    transitivity (50 * inject_Z (Z.pos m) * pow2 47 * (pow2 e * pow2 (- e)));
      [ring|]. rewrite Hi. ring. }
  assert (mag_of x (Z.pos (digits2_pos (m * 7036874417766400)) + (e + -47))) as Hmag'.
  { apply mag_of_mantissa; lra. }
  pose proof (mag_of_unique _ _ _ Hmag Hmag') as Hdeq.
  destruct (digits2_pos_bounds (m * 7036874417766400)) as [_ Hdig].
  assert (52 < Z.pos (digits2_pos (m * 7036874417766400)))%Z as Hdig'.
  { apply (Z.pow_lt_mono_r_iff 2); [lia|lia|].
    eapply Z.le_lt_trans; [|exact Hdig].
    rewrite Pos2Z.inj_mul. change (2 ^ 52)%Z with 4503599627370496%Z. nia. }
  pose proof (fexp_eq d) as Hf.
  apply binary_round_aux_correct; [done|lia|exact Hexact|done|lia|done].
Qed.

(** The value of a float that is zero or finite. *)
Definition SF2Q (y : spec_float) : Q :=
  match y with
  | S754_finite s m e =>
      (if s then - inject_Z (Z.pos m) else inject_Z (Z.pos m)) * pow2 e
  | _ => 0
  end.

Definition nonneg_finite (y : spec_float) : Prop :=
  match y with
  | S754_zero _ | S754_finite false _ _ => True
  | _ => False
  end.

Lemma shiftl_floor m e : Z.shiftl (Z.pos m) e = Qfloor (inject_Z (Z.pos m) * pow2 e).
Proof.
  destruct (Z_le_gt_dec 0 e) as [He|He].
  - rewrite Z.shiftl_mul_pow2 by done.
    rewrite <- (Qfloor_Z (Z.pos m * 2 ^ e)). apply Qfloor_comp.
    rewrite inject_Z_mult. pose proof (pow2_Z e He) as Hp. rewrite Hp. reflexivity.
  - rewrite Z.shiftl_div_pow2 by lia. rewrite Zdiv_Qdiv. apply Qfloor_comp.
    pose proof (pow2_Z (- e) ltac:(lia)) as Hp. rewrite <- Hp.
    pose proof (pow2_inv e) as Hi. pose proof (pow2_pos (- e)) as Hpos.
    apply (Qmul_eq_cancel _ _ (pow2 (- e)) Hpos).
    transitivity (inject_Z (Z.pos m)); [field; lra|].
    transitivity (inject_Z (Z.pos m) * (pow2 e * pow2 (- e))); [|ring].
    rewrite Hi. ring.
Qed.

End FloatTheory.

Section RatioBonus.
Import Py PyFloat.
Local Open Scope Q_scope.

(** [y] is the binary64 rounding of the exact value [x >= 0]. *)
Definition rounded (x : Q) (y : spec_float) : Prop :=
  nonneg_finite y
  /\ ((x == 0 /\ SF2Q y == 0)
      \/ (0 < x /\ exists d, mag_of x d /\ SF2Q y == round_val x d)).

Lemma rounded_nonneg x y : rounded x y -> 0 <= SF2Q y.
Proof.
  intros [_ [[_ H]|(Hx & d & _ & H)]]; [lra|].
  pose proof (round_val_nonneg x d ltac:(lra)). lra.
Qed.

Lemma rounded_mono x1 y1 x2 y2 :
  rounded x1 y1 -> rounded x2 y2 -> x1 <= x2 -> SF2Q y1 <= SF2Q y2.
Proof.
  intros H1 H2 Hx. pose proof (rounded_nonneg _ _ H2) as Hn2.
  destruct H1 as [_ [[_ H1]|(Hx1 & d1 & Hm1 & H1)]]; [lra|].
  destruct H2 as [_ [[Hx2 _]|(Hx2 & d2 & Hm2 & H2)]]; [lra|].
  pose proof (round_val_mono x1 d1 x2 d2 Hx1 Hx Hm1 Hm2). lra.
Qed.

Lemma mag_of_one : mag_of 1 1.
Proof. split; [apply Qle_refl|reflexivity]. Qed.

Lemma round_val_one : round_val 1 1 == 1.
Proof. reflexivity. Qed.

Lemma rounded_le_1 x y : rounded x y -> x <= 1 -> SF2Q y <= 1.
Proof.
  intros [_ [[_ H]|(Hx & d & Hm & H)]] Hx1; [lra|].
  pose proof (round_val_mono x d 1 1 Hx Hx1 Hm mag_of_one).
  pose proof round_val_one. lra.
Qed.

Lemma binary_round_result_rounded x r d :
  0 < x -> mag_of x d ->
  (r = S754_zero false /\ round_val x d == 0)
  \/ (exists m' e', r = S754_finite false m' e'
                    /\ inject_Z (Z.pos m') * pow2 e' == round_val x d) ->
  rounded x r.
Proof.
  intros Hx Hm [[-> H]|(m' & e' & -> & H)].
  - split; [exact I|]. right. split; [done|]. exists d. split; [done|].
    cbn [SF2Q]. lra.
  - split; [exact I|]. right. split; [done|]. exists d. split; [done|].
    cbn [SF2Q]. lra.
Qed.

(** The quotient of two positive integers has a magnitude, at most 1 when
    the quotient is at most 1. *)
Lemma quotient_mag ps pn :
  exists d, mag_of (inject_Z (Z.pos ps) / inject_Z (Z.pos pn)) d
            /\ ((ps <= pn)%positive -> (d <= 1)%Z).
Proof.
  set (x := inject_Z (Z.pos ps) / inject_Z (Z.pos pn)).
  destruct (digits2_pos_bounds ps) as [Hs1 Hs2].
  destruct (digits2_pos_bounds pn) as [Hn1 Hn2].
  set (d1 := Z.pos (digits2_pos ps)) in *. set (d2 := Z.pos (digits2_pos pn)) in *.
  assert (0 < d1)%Z by (unfold d1; lia). assert (0 < d2)%Z by (unfold d2; lia).
  pose proof (Qdiv_pos_mul ps pn) as Hx. fold x in Hx.
  pose proof (inject_pos_gt_0 pn) as HM.
  rewrite Zle_Qle in Hs1, Hn1. rewrite Zlt_Qlt in Hs2, Hn2.
  pose proof (pow2_Z (d1 - 1) ltac:(lia)) as Hp1.
  pose proof (pow2_Z d1 ltac:(lia)) as Hp1'.
  pose proof (pow2_Z (d2 - 1) ltac:(lia)) as Hp2.
  pose proof (pow2_Z d2 ltac:(lia)) as Hp2'.
  assert (pow2 (d1 - d2 - 1) < x) as Hlow.
  { pose proof (pow2_add (d1 - d2 - 1) d2) as Ha.
    replace (d1 - d2 - 1 + d2)%Z with (d1 - 1)%Z in Ha by lia.
    pose proof (pow2_pos (d1 - d2 - 1)) as Hp.
    assert (pow2 (d1 - d2 - 1) * inject_Z (Z.pos pn)
            < pow2 (d1 - d2 - 1) * pow2 d2) as Hlt.
    { rewrite !(Qmult_comm (pow2 (d1 - d2 - 1))). apply Qmult_lt_compat_r; lra. }
    apply (Qmul_lt_cancel _ _ _ HM). lra. }
  assert (x < pow2 (d1 - d2 + 1)) as Hup.
  { pose proof (pow2_add (d1 - d2 + 1) (d2 - 1)) as Ha.
    replace (d1 - d2 + 1 + (d2 - 1))%Z with d1 in Ha by lia.
    pose proof (pow2_pos (d1 - d2 + 1)) as Hp.
    assert (pow2 (d1 - d2 + 1) * pow2 (d2 - 1)
            <= pow2 (d1 - d2 + 1) * inject_Z (Z.pos pn)) as Hle.
    { rewrite !(Qmult_comm (pow2 (d1 - d2 + 1))). apply Qmult_le_compat_r; lra. }
    apply (Qmul_lt_cancel _ _ _ HM). lra. }
  assert (forall d, mag_of x d -> (ps <= pn)%positive -> (d <= 1)%Z) as Hone.
  { intros d [Hd _] Hle.
    assert (x <= 1) as Hx1.
    { apply (Qmul_le_cancel _ _ _ HM).
      assert (inject_Z (Z.pos ps) <= inject_Z (Z.pos pn))
        by (rewrite <- Zle_Qle; lia). lra. }
    assert (pow2 (d - 1) <= pow2 0) as Hp by (pose proof pow2_0; lra).
    apply pow2_le_inv in Hp. lia. }
  destruct (Qlt_le_dec x (pow2 (d1 - d2))) as [Hlt|Hge].
  - assert (mag_of x (d1 - d2)) as Hm by (split; lra).
    exists (d1 - d2)%Z. split; [done|]. by apply Hone.
  - assert (mag_of x (d1 - d2 + 1)) as Hm.
    { split; [|done]. by replace (d1 - d2 + 1 - 1)%Z with (d1 - d2)%Z by lia. }
    exists (d1 - d2 + 1)%Z. split; [done|]. by apply Hone.
Qed.

Lemma of_len_pos n : (0 < n)%nat -> of_len n = S754_finite false (Pos.of_nat n) 0.
Proof. destruct n; [lia|reflexivity]. Qed.

Lemma inject_of_nat_pos n :
  (0 < n)%nat -> inject_Z (Z.of_nat n) = inject_Z (Z.pos (Pos.of_nat n)).
Proof. intros Hn. f_equal. lia. Qed.

(** [len(sensitive_files) / len(files)] returns the rounded quotient. *)
Lemma truediv_rounded (s n : nat) :
  (0 < s)%nat -> (s <= n)%nat ->
  exists y, truediv s n = Returned y
            /\ rounded (inject_Z (Z.of_nat s) / inject_Z (Z.of_nat n)) y.
Proof.
  intros Hs Hsn. assert (0 < n)%nat as Hn by lia.
  rewrite (inject_of_nat_pos s Hs), (inject_of_nat_pos n Hn).
  destruct (quotient_mag (Pos.of_nat s) (Pos.of_nat n)) as (d & Hm & Hd).
  assert (d <= 1)%Z as Hd1 by (apply Hd; lia).
  pose proof (SFdiv_lengths (Pos.of_nat s) (Pos.of_nat n) d Hm
                ltac:(unfold emax; lia)) as Hdiv.
  pose proof (binary_round_result_rounded _ _ d (Qdiv_pos_gt_0 _ _) Hm Hdiv) as Hr.
  unfold truediv. destruct n as [|n']; [lia|].
  rewrite (of_len_pos s Hs), (of_len_pos (S n') Hn).
  destruct Hdiv as [[Heq _]|(m' & e' & Heq & _)]; rewrite Heq in *;
    (eexists; split; [reflexivity|exact Hr]).
Qed.

Lemma mag_fifty m e :
  mag_of (50 * (inject_Z (Z.pos m) * pow2 e))
    (Z.pos (digits2_pos (m * 7036874417766400)) + (e + -47)).
Proof.
  pose proof (pow2_inv e) as Hi.
  assert (50 * (inject_Z (Z.pos m) * pow2 e) * pow2 (- (e + -47))
          == inject_Z (Z.pos (m * 7036874417766400))) as Hexact.
  { replace (- (e + -47))%Z with (- e + 47)%Z by lia.
    rewrite pow2_add, Pos2Z.inj_mul, inject_Z_mult.
    assert (pow2 47 * 50 == inject_Z 7036874417766400) as <- by reflexivity.
    transitivity (50 * inject_Z (Z.pos m) * pow2 47 * (pow2 e * pow2 (- e)));
      [ring|]. rewrite Hi. ring. }
  apply mag_of_mantissa; lra.
Qed.

(** [ratio * 50] is the rounded product. *)
Lemma mul50_rounded y :
  nonneg_finite y -> SF2Q y <= 1 -> rounded (50 * SF2Q y) (mul50 y).
Proof.
  intros Hy Hle. unfold mul50. destruct y as [s|s| |s m e]; try done.
  - rewrite fifty_eq. cbn [SFmul]. split; [exact I|]. left.
    cbn [SF2Q]. split; ring.
  - destruct s; [done|]. cbn [SF2Q] in *.
    pose proof (mag_fifty m e) as Hm.
    set (d := (Z.pos (digits2_pos (m * 7036874417766400)) + (e + -47))%Z) in *.
    assert (d < emax)%Z as Hd.
    { destruct Hm as [Hm1 _].
      assert (pow2 (d - 1) < pow2 6) as Hp.
      { assert (pow2 6 == 64) by reflexivity. lra. }
      apply pow2_lt_inv in Hp. unfold emax. lia. }
    apply (binary_round_result_rounded _ _ d); [|done|by apply SFmul_fifty].
    pose proof (inject_pos_gt_0 m). pose proof (pow2_pos e).
    apply Qmult_lt_0_compat; [reflexivity|]. apply Qmult_lt_0_compat; lra.
Qed.

(** [int(x)] is the floor of a float that is not negative. *)
Lemma int_floor y : nonneg_finite y -> PyFloat.int y = Returned (Qfloor (SF2Q y)).
Proof.
  destruct y as [s|s| |s m e]; try done.
  intros Hy. destruct s; [done|]. cbn [PyFloat.int cond_Zopp SF2Q].
  by rewrite shiftl_floor.
Qed.

End RatioBonus.

(** ** Detection as a single pass with the files seen so far *)

Section DetectionOrder.
Import PyStr Re Py ContentAnalyzer.
#[local] Arguments any_pattern : simpl never.
#[local] Arguments list_in : simpl never.
#[local] Arguments lower : simpl never.

(** The patterns of the first category of the table, and the other entries. *)
Definition first_patterns : list regex :=
  match SENSITIVE_PATTERNS with
  | (_, patterns) :: _ => patterns
  | [] => []
  end.

Definition later_items : list (category * list regex) := tail SENSITIVE_PATTERNS.

Lemma SENSITIVE_PATTERNS_split :
  SENSITIVE_PATTERNS = (credentials, first_patterns) :: later_items.
Proof. reflexivity. Qed.

(** A file is listed when it matches the first category, or matches some
    category and was not seen before. *)
Definition keep (file : string) (seen : list string) : bool :=
  any_pattern first_patterns (lower file)
  || (matches_any SENSITIVE_PATTERNS file && negb (list_in file seen)).

Fixpoint detect_from (seen files : list string) : list string :=
  match files with
  | [] => []
  | file :: files' =>
      (if keep file seen then [file] else []) ++ detect_from (seen ++ [file]) files'
  end.

Lemma matches_any_split file :
  matches_any SENSITIVE_PATTERNS file
  = any_pattern first_patterns (lower file) || matches_any later_items file.
Proof. rewrite SENSITIVE_PATTERNS_split at 1. reflexivity. Qed.

Lemma detect_categories_keep file sensitive seen :
  (matches_any SENSITIVE_PATTERNS file = true -> file ∈ sensitive <-> file ∈ seen) ->
  detect_categories SENSITIVE_PATTERNS file (lower file) sensitive
  = sensitive ++ (if keep file seen then [file] else []).
Proof.
  intros Hinv. unfold keep. rewrite matches_any_split in *.
  rewrite SENSITIVE_PATTERNS_split at 1. cbn [detect_categories].
  destruct (any_pattern first_patterns (lower file)) eqn:Hfirst; cbn [orb andb].
  - unfold list_in at 1. rewrite bool_decide_eq_true_2; [done|].
    apply elem_of_app. right. by apply list_elem_of_singleton.
  - destruct (matches_any later_items file) eqn:Hlater; cbn [andb].
    + specialize (Hinv eq_refl). unfold list_in.
      destruct (decide (file ∈ sensitive)) as [Hin|Hin].
      * rewrite !bool_decide_eq_true_2 by tauto. cbn. by rewrite app_nil_r.
      * rewrite !bool_decide_eq_false_2 by tauto. cbn [negb].
        by apply detect_categories_fresh.
    + rewrite app_nil_r. destruct (list_in file sensitive); [done|].
      destruct (detect_categories_step later_items file sensitive)
        as [->|[_ Hm]]; [done|congruence].
Qed.

Lemma detect_fold_from files sensitive seen :
  (forall x, matches_any SENSITIVE_PATTERNS x = true -> x ∈ sensitive <-> x ∈ seen) ->
  fold_left
    (fun sensitive file =>
       detect_categories SENSITIVE_PATTERNS file (lower file) sensitive)
    files sensitive
  = sensitive ++ detect_from seen files.
Proof.
  revert sensitive seen.
  induction files as [|file files IH]; intros sensitive seen Hinv;
    cbn [fold_left detect_from]; [by rewrite app_nil_r|].
  rewrite (detect_categories_keep file sensitive seen (Hinv file)).
  rewrite (IH _ (seen ++ [file])); [by rewrite <- app_assoc|].
  intros x Hx. rewrite !elem_of_app, (Hinv x Hx).
  destruct (keep file seen) eqn:Hk.
  - rewrite list_elem_of_singleton. tauto.
  - rewrite elem_of_nil, list_elem_of_singleton. split; [tauto|].
    intros [Hs| ->]; [tauto|]. left.
    unfold keep in Hk. rewrite Hx in Hk.
    apply orb_false_iff in Hk as [_ Hk]. cbn [andb] in Hk.
    apply negb_false_iff in Hk. by apply list_in_true in Hk.
Qed.

Lemma detect_is_detect_from files :
  _detect_sensitive_files files = detect_from [] files.
Proof. unfold _detect_sensitive_files. by rewrite (detect_fold_from files [] []). Qed.

Lemma detect_from_app seen l1 l2 :
  detect_from seen (l1 ++ l2) = detect_from seen l1 ++ detect_from (seen ++ l1) l2.
Proof.
  revert seen. induction l1 as [|x l1 IH]; intros seen; cbn [app detect_from].
  - by rewrite app_nil_r.
  - rewrite IH, <- !app_assoc. reflexivity.
Qed.

(** Only the membership of files that match a later category alone matters. *)
Lemma detect_from_ext seen1 seen2 files :
  (forall x, matches_any SENSITIVE_PATTERNS x = true ->
             any_pattern first_patterns (lower x) = false ->
             x ∈ seen1 <-> x ∈ seen2) ->
  detect_from seen1 files = detect_from seen2 files.
Proof.
  revert seen1 seen2. induction files as [|file files IH]; intros seen1 seen2 Hext;
    cbn [detect_from]; [done|].
  assert (keep file seen1 = keep file seen2) as ->.
  { unfold keep. destruct (any_pattern first_patterns (lower file)) eqn:Hf; [done|].
    destruct (matches_any SENSITIVE_PATTERNS file) eqn:Hm; [|done].
    cbn. f_equal. unfold list_in. apply bool_decide_ext. by apply Hext. }
  f_equal. apply IH. intros x Hx Hf. rewrite !elem_of_app. by rewrite (Hext x Hx Hf).
Qed.

(** Seeing one more file first costs at most that file. *)
Lemma detect_from_seen_more files seen g :
  detect_from seen files ⊆+ g :: detect_from (seen ++ [g]) files.
Proof.
  revert seen. induction files as [|x files IH]; intros seen; cbn [detect_from].
  - apply submseteq_nil_l.
  - assert (detect_from ((seen ++ [g]) ++ [x]) files
            = detect_from ((seen ++ [x]) ++ [g]) files) as Hswap.
    { apply detect_from_ext. intros y _ _. rewrite !elem_of_app. tauto. }
    destruct (keep x (seen ++ [g])) eqn:Hkg.
    + assert (keep x seen = true) as ->.
      { unfold keep in *. destruct (any_pattern first_patterns (lower x)); [done|].
        cbn in *. apply andb_true_iff in Hkg as [-> Hkg]. cbn.
        apply negb_true_iff in Hkg. apply negb_true_iff.
        unfold list_in in *. apply bool_decide_eq_false in Hkg.
        apply bool_decide_eq_false. rewrite elem_of_app in Hkg. tauto. }
      cbn [app]. rewrite Hswap.
      etransitivity; [apply submseteq_skip, IH|].
      apply Permutation_submseteq, perm_swap.
    + destruct (keep x seen) eqn:Hk; cbn [app].
      * assert (x = g) as ->.
        { unfold keep in *. destruct (any_pattern first_patterns (lower x)); [done|].
          cbn in *. apply andb_true_iff in Hk as [Hm Hk]. rewrite Hm in Hkg.
          cbn in Hkg. apply negb_true_iff in Hk. apply negb_false_iff in Hkg.
          unfold list_in in *. apply bool_decide_eq_false in Hk.
          apply bool_decide_eq_true in Hkg. rewrite elem_of_app in Hkg.
          destruct Hkg as [|Hg]; [done|]. by apply list_elem_of_singleton in Hg. }
        apply submseteq_skip.
        rewrite (detect_from_ext ((seen ++ [g]) ++ [g]) (seen ++ [g])); [done|].
        intros y _ _. rewrite !elem_of_app. tauto.
      * rewrite Hswap. apply IH.
Qed.

(** Replacing a file that matches no category by any other file keeps
    every file that was listed. *)
Lemma detect_replace l1 f g l2 :
  matches_any SENSITIVE_PATTERNS f = false ->
  _detect_sensitive_files (l1 ++ f :: l2) ⊆+ _detect_sensitive_files (l1 ++ g :: l2).
Proof.
  intros Hf. rewrite !detect_is_detect_from, !detect_from_app.
  apply submseteq_app; [done|]. change ([] ++ l1) with l1. cbn [detect_from].
  assert (keep f l1 = false) as ->.
  { unfold keep. rewrite Hf. rewrite matches_any_split in Hf.
    apply orb_false_iff in Hf as [-> _]. reflexivity. }
  cbn [app].
  rewrite (detect_from_ext (l1 ++ [f]) l1).
  2:{ intros x Hx _. rewrite elem_of_app, list_elem_of_singleton.
      split; [|tauto]. intros [| ->]; [done|congruence]. }
  destruct (keep g l1) eqn:Hg; cbn [app].
  - apply detect_from_seen_more.
  - rewrite (detect_from_ext (l1 ++ [g]) l1); [done|].
    intros x Hx Hfirst. rewrite elem_of_app, list_elem_of_singleton.
    split; [|tauto]. intros [| ->]; [done|].
    unfold keep in Hg. rewrite Hfirst, Hx in Hg. cbn in Hg.
    apply negb_false_iff in Hg. by apply list_in_true in Hg.
Qed.

End DetectionOrder.

(** ** The risk score *)

Section RiskScoreProperties.
Import PyStr Py ContentAnalyzer.
#[local] Arguments contains_any : simpl never.
#[local] Arguments lower : simpl never.

(** [int(len(sensitive_files) / len(files) * 50)] as the code computes it. *)
Definition ratio_bonus (s n : nat) : outcome Z :=
  ratio ← PyFloat.truediv s n; PyFloat.int (PyFloat.mul50 ratio).

(** The points the ratio contributes; nothing without sensitive files. *)
Definition ratio_term (s n : nat) : Z :=
  match s with
  | O => 0
  | _ => match ratio_bonus s n with
         | Returned t => t
         | Raised _ => 0
         end
  end.

Definition size_points (n : Z) : Z :=
  if (n >? 1000)%Z then 20
  else if (n >? 100)%Z then 15
  else if (n >? 10)%Z then 10
  else 5.

Definition is_high_risk (file : string) : bool :=
  contains_any high_risk_patterns (lower file).

Definition high_risk_count (l : list string) : Z :=
  Z.of_nat (length (List.filter is_high_risk l)).

Lemma ratio_bonus_floor (s n : nat) :
  (0 < s)%nat -> (s <= n)%nat ->
  exists w, rounded (inject_Z (Z.of_nat s) / inject_Z (Z.of_nat n)) w
            /\ (SF2Q w <= 1)%Q
            /\ rounded (50 * SF2Q w) (PyFloat.mul50 w)
            /\ ratio_bonus s n = Returned (Qfloor (SF2Q (PyFloat.mul50 w))).
Proof.
  intros Hs Hsn. destruct (truediv_rounded s n Hs Hsn) as (w & Hdiv & Hr).
  assert (inject_Z (Z.of_nat s) / inject_Z (Z.of_nat n) <= 1)%Q as Hle.
  { assert (0 < inject_Z (Z.of_nat n))%Q as Hn.
    { change 0%Q with (inject_Z 0). rewrite <- Zlt_Qlt. lia. }
    apply (Qmul_le_cancel _ _ _ Hn).
    assert (inject_Z (Z.of_nat s) <= inject_Z (Z.of_nat n))%Q as Hq
      by (rewrite <- Zle_Qle; lia).
    assert (inject_Z (Z.of_nat s) / inject_Z (Z.of_nat n) * inject_Z (Z.of_nat n)
            == inject_Z (Z.of_nat s))%Q as Hc by (field; lra).
    lra. }
  pose proof (rounded_le_1 _ _ Hr Hle) as Hw.
  pose proof (mul50_rounded w (proj1 Hr) Hw) as Hm.
  exists w. repeat split; try done; try apply Hr; try apply Hm.
  unfold ratio_bonus. rewrite Hdiv. cbn. apply int_floor, Hm.
Qed.

Lemma ratio_bonus_term (s n : nat) :
  (0 < s)%nat -> (s <= n)%nat -> ratio_bonus s n = Returned (ratio_term s n).
Proof.
  intros Hs Hsn. destruct (ratio_bonus_floor s n Hs Hsn) as (w & _ & _ & _ & Hb).
  unfold ratio_term. destruct s; [lia|]. by rewrite Hb.
Qed.

Lemma ratio_term_nonneg (s n : nat) : (s <= n)%nat -> (0 <= ratio_term s n)%Z.
Proof.
  intros Hsn. destruct s as [|s]; [done|].
  destruct (ratio_bonus_floor (S s) n ltac:(lia) Hsn) as (w & _ & _ & Hm & Hb).
  unfold ratio_term. rewrite Hb.
  pose proof (rounded_nonneg _ _ Hm) as Hn.
  apply Qfloor_resp_le in Hn. exact Hn.
Qed.

Lemma ratio_term_mono (s1 s2 n : nat) :
  (s1 <= s2)%nat -> (s2 <= n)%nat -> (ratio_term s1 n <= ratio_term s2 n)%Z.
Proof.
  intros H12 H2n. destruct s1 as [|s1]; [by apply ratio_term_nonneg|].
  destruct s2 as [|s2]; [lia|].
  destruct (ratio_bonus_floor (S s1) n ltac:(lia) ltac:(lia))
    as (w1 & Hr1 & _ & Hm1 & Hb1).
  destruct (ratio_bonus_floor (S s2) n ltac:(lia) H2n)
    as (w2 & Hr2 & _ & Hm2 & Hb2).
  unfold ratio_term. rewrite Hb1, Hb2. apply Qfloor_resp_le.
  apply (rounded_mono _ _ _ _ Hm1 Hm2).
  assert (SF2Q w1 <= SF2Q w2)%Q as Hw; [|lra].
  apply (rounded_mono _ _ _ _ Hr1 Hr2).
  assert (0 < inject_Z (Z.of_nat n))%Q as Hn.
  { change 0%Q with (inject_Z 0). rewrite <- Zlt_Qlt. lia. }
  apply (Qmul_le_cancel _ _ _ Hn).
  assert (inject_Z (Z.of_nat (S s1)) <= inject_Z (Z.of_nat (S s2)))%Q as Hq
    by (rewrite <- Zle_Qle; lia).
  assert (inject_Z (Z.of_nat (S s1)) / inject_Z (Z.of_nat n) * inject_Z (Z.of_nat n)
          == inject_Z (Z.of_nat (S s1)))%Q as Hc1 by (field; lra).
  assert (inject_Z (Z.of_nat (S s2)) / inject_Z (Z.of_nat n) * inject_Z (Z.of_nat n)
          == inject_Z (Z.of_nat (S s2)))%Q as Hc2 by (field; lra).
  lra.
Qed.

Lemma size_points_bounds n : (5 <= size_points n <= 20)%Z.
Proof. unfold size_points. repeat case_match; lia. Qed.

Lemma high_risk_fold l base :
  fold_left
    (fun score file =>
       if contains_any high_risk_patterns (lower file)
       then (score + 5)%Z else score) l base
  = (base + 5 * high_risk_count l)%Z.
Proof.
  revert base. unfold high_risk_count.
  induction l as [|file l IH]; intros base; cbn [fold_left List.filter];
    [cbn; lia|].
  rewrite IH. unfold is_high_risk at 2.
  destruct (contains_any high_risk_patterns (lower file)); cbn [length]; lia.
Qed.

Lemma high_risk_count_nonneg l : (0 <= high_risk_count l)%Z.
Proof. unfold high_risk_count. lia. Qed.

Lemma filter_length_submseteq (p : string -> bool) (l1 l2 : list string) :
  l1 ⊆+ l2 -> (length (List.filter p l1) <= length (List.filter p l2))%nat.
Proof.
  induction 1 as [|x l1 l2 _ IH|x y l|x l1 l2 _ IH|l1 l2 l3 _ IH1 _ IH2];
    cbn [List.filter]; try done.
  - destruct (p x); cbn [length]; lia.
  - destruct (p x), (p y); cbn [length]; lia.
  - destruct (p x); cbn [length]; lia.
  - lia.
Qed.

Lemma high_risk_count_submseteq l1 l2 :
  l1 ⊆+ l2 -> (high_risk_count l1 <= high_risk_count l2)%Z.
Proof.
  intros H. unfold high_risk_count.
  pose proof (filter_length_submseteq is_high_risk l1 l2 H). lia.
Qed.

(** The score of a listing that is not empty, when the sensitive files are
    at most as many as the files. *)
Lemma _calculate_risk_score_eq files sensitive :
  files <> [] -> (length sensitive <= length files)%nat ->
  _calculate_risk_score files sensitive
  = Returned (Z.min (10 + size_points (len files)
                     + ratio_term (length sensitive) (length files)
                     + 5 * high_risk_count sensitive) 100).
Proof.
  intros Hne Hlen. unfold _calculate_risk_score.
  destruct files as [|f files']; [done|]. set (files := f :: files') in *.
  assert (((if (len files >? 1000)%Z then (0 + 10 + 20)%Z
            else if (len files >? 100)%Z then (0 + 10 + 15)%Z
            else if (len files >? 10)%Z then (0 + 10 + 10)%Z
            else (0 + 10 + 5)%Z))
          = (10 + size_points (len files))%Z) as ->.
  { unfold size_points. repeat case_match; lia. }
  destruct sensitive as [|s sensitive'].
  - cbn [mbind outcome_bind bind length ratio_term]. rewrite high_risk_fold.
    f_equal. f_equal. lia.
  - set (sensitive := s :: sensitive') in *.
    pose proof (ratio_bonus_term (length sensitive) (length files)
                  ltac:(cbn; lia) Hlen) as Hb.
    unfold ratio_bonus in Hb.
    destruct (PyFloat.truediv (length sensitive) (length files)) as [ratio|e];
      cbn [mbind outcome_bind bind] in Hb |- *; [|done].
    rewrite Hb. cbn [mbind outcome_bind bind]. rewrite high_risk_fold. done.
Qed.

Lemma _calculate_risk_score_range files sensitive :
  (length sensitive <= length files)%nat ->
  exists score, _calculate_risk_score files sensitive = Returned score
                /\ (0 <= score <= 100)%Z.
Proof.
  intros Hlen. destruct files as [|f files'].
  - exists 0%Z. split; [done|lia].
  - eexists. split; [by apply _calculate_risk_score_eq|].
    pose proof (size_points_bounds (len (f :: files'))).
    pose proof (ratio_term_nonneg _ _ Hlen).
    pose proof (high_risk_count_nonneg sensitive). lia.
Qed.

End RiskScoreProperties.

(** ** [ContentAnalyzer.analyze] as a whole *)

Section AnalyzeProperties.
Import PyStr Re Py ContentAnalyzer.
#[local] Arguments any_pattern : simpl never.
#[local] Arguments contains_any : simpl never.
#[local] Arguments lower : simpl never.
#[local] Arguments _detect_sensitive_files : simpl never.
#[local] Arguments _generate_findings : simpl never.
#[local] Arguments _analyze_file_types : simpl never.
#[local] Arguments _calculate_risk_score : simpl never.

(** The score as the specification words it, with an exact quotient. *)
Definition spec_risk_score (files sensitive : list string) : Z :=
  Z.min (10 + size_points (len files)
         + Qfloor (50 * (inject_Z (len sensitive) / inject_Z (len files)))
         + 5 * high_risk_count sensitive) 100.

(** The score as the code computes it, with binary64 rounding of the
    quotient and of the product. *)
Definition code_risk_score (files sensitive : list string) : Z :=
  match files with
  | [] => 0
  | _ => Z.min (10 + size_points (len files)
                + ratio_term (length sensitive) (length files)
                + 5 * high_risk_count sensitive) 100
  end.

Lemma detect_length files :
  (length (_detect_sensitive_files files) <= length files)%nat.
Proof. apply sublist_length, detect_sublist. Qed.

(** [analyze] returns on every listing, with these fields. *)
Lemma analyze_returns name files :
  exists r, analyze name files = Returned r
            /\ sensitive_files r = _detect_sensitive_files files
            /\ findings r = _generate_findings files (_detect_sensitive_files files)
            /\ risk_score r = code_risk_score files (_detect_sensitive_files files)
            /\ total_files r = len files.
Proof.
  destruct files as [|f files']; [by eexists|].
  unfold analyze.
  rewrite (_calculate_risk_score_eq (f :: files') _ ltac:(done) (detect_length _)).
  eexists. split; [reflexivity|]. done.
Qed.

Lemma code_risk_score_range files sensitive :
  (length sensitive <= length files)%nat ->
  (0 <= code_risk_score files sensitive <= 100)%Z.
Proof.
  intros Hlen. unfold code_risk_score. destruct files as [|f files']; [lia|].
  pose proof (size_points_bounds (len (f :: files'))).
  pose proof (ratio_term_nonneg _ _ Hlen).
  pose proof (high_risk_count_nonneg sensitive). lia.
Qed.

Lemma code_risk_score_mono files1 files2 sensitive1 sensitive2 :
  length files1 = length files2 ->
  sensitive1 ⊆+ sensitive2 ->
  (length sensitive2 <= length files2)%nat ->
  (code_risk_score files1 sensitive1 <= code_risk_score files2 sensitive2)%Z.
Proof.
  intros Hlen Hsub Hle. unfold code_risk_score.
  pose proof (submseteq_length _ _ Hsub) as Hs.
  pose proof (high_risk_count_submseteq _ _ Hsub) as Hh.
  destruct files1 as [|f1 files1'], files2 as [|f2 files2']; try discriminate Hlen.
  - lia.
  - unfold len. rewrite Hlen.
    pose proof (ratio_term_mono _ _ _ Hs Hle). lia.
Qed.

(** The keys of the grouping dict stay distinct. *)
Lemma dict_append_keys k file (d : list (category * list string)) :
  NoDup (map fst d) -> NoDup (map fst (dict_append k file d))
  /\ forall c, c ∈ map fst (dict_append k file d) <-> c = k \/ c ∈ map fst d.
Proof.
  induction d as [|[k' fs] d IH]; intros Hnd; cbn [dict_append map fst].
  - split; [apply NoDup_singleton|]. intros c.
    rewrite list_elem_of_singleton, elem_of_nil. tauto.
  - apply NoDup_cons in Hnd as [Hk' Hnd]. destruct (IH Hnd) as [IH1 IH2].
    destruct (decide (k = k')) as [->|Hk]; cbn [map fst].
    + split; [by apply NoDup_cons|]. intros c. rewrite elem_of_cons. tauto.
    + split.
      * apply NoDup_cons. split; [|done]. rewrite IH2. intros [?|?]; [congruence|done].
      * intros c. rewrite !elem_of_cons, IH2. tauto.
Qed.

Lemma categorize_items_keys items file d :
  NoDup (map fst d) ->
  NoDup (map fst
           (fold_left
              (fun categorized '(cat, patterns) =>
                 if any_pattern patterns (lower file)
                 then dict_append cat file categorized
                 else categorized)
              items d)).
Proof.
  revert d. induction items as [|[cat patterns] items IH]; intros d Hnd;
    cbn [fold_left]; [done|].
  apply IH. destruct (any_pattern patterns (lower file)); [|done].
  by apply dict_append_keys.
Qed.

Lemma categorize_keys sensitive : NoDup (map fst (categorize sensitive)).
Proof.
  unfold categorize. generalize (NoDup_nil_2 (A := category)).
  change (@nil category) with (map fst (@nil (category * list string))).
  generalize (@nil (category * list string)).
  induction sensitive as [|file sensitive IH]; intros d Hnd; cbn [fold_left];
    [done|].
  apply IH. by apply categorize_items_keys.
Qed.

Lemma dict_lookup_None {V} c (d : list (category * V)) :
  c ∉ map fst d -> dict_lookup c d = None.
Proof.
  induction d as [|[k v] d IH]; [done|]. cbn [map fst dict_lookup].
  rewrite not_elem_of_cons. intros [Hk Hd].
  destruct (decide (c = k)); [done|]. by apply IH.
Qed.

(** The findings entries of one category: none, or the one built from its
    group. *)
Lemma findings_filter (d : list (category * list string)) c :
  NoDup (map fst d) ->
  List.filter (fun fd => String.eqb (f_category fd) (category_name c))
    (map make_finding d)
  = match dict_lookup c d with
    | Some group => [make_finding (c, group)]
    | None => []
    end.
Proof.
  induction d as [|[k fs] d IH]; [done|]. cbn [map fst]. intros Hnd.
  apply NoDup_cons in Hnd as [Hk Hnd]. specialize (IH Hnd).
  cbn [map List.filter dict_lookup make_finding f_category].
  destruct (decide (c = k)) as [->|Hc].
  - rewrite String.eqb_refl. f_equal.
    rewrite (dict_lookup_None k d Hk) in IH. exact IH.
  - destruct (String.eqb_spec (category_name k) (category_name c)) as [Heq|_].
    + apply category_name_inj in Heq. congruence.
    + exact IH.
Qed.

Lemma findings_categories (d : list (category * list string)) fd :
  fd ∈ map make_finding d -> exists c, f_category fd = category_name c.
Proof.
  intros H. apply list_elem_of_fmap in H as ([c fs] & -> & _). by exists c.
Qed.

End AnalyzeProperties.

(** ** Claims on the content analysis *)

Section AnalyzeClaims.
Import PyStr Re Py ContentAnalyzer.
#[local] Arguments any_pattern : simpl never.
#[local] Arguments contains_any : simpl never.
#[local] Arguments lower : simpl never.
#[local] Arguments _detect_sensitive_files : simpl never.
#[local] Arguments _generate_findings : simpl never.

(** The empty listing gives the all-zero result. *)
Lemma analyze_empty name :
  analyze name []
  = Returned {| bucket_name := name; total_files := 0; sensitive_files := [];
                file_types := []; risk_score := 0; findings := [] |}.
Proof. reflexivity. Qed.

(** On every other listing the score is the capped sum of the base, the
    size tier, the truncated binary64 product [ratio * 50] and five points
    per high-risk sensitive file. *)
Lemma analyze_risk_score name files :
  files <> [] ->
  exists r, analyze name files = Returned r
            /\ risk_score r
               = Z.min (10 + size_points (len files)
                        + ratio_term (length (sensitive_files r)) (length files)
                        + 5 * high_risk_count (sensitive_files r)) 100.
Proof.
  intros Hne. destruct (analyze_returns name files) as (r & Hr & Hs & _ & Hsc & _).
  exists r. split; [done|]. rewrite Hsc, Hs. by destruct files.
Qed.

(** C1. With 29 sensitive files named "token" among 50 files, none of them
    high-risk, [analyze] returns the score 48: the quotient [29 / 50] and
    its product with 50 are rounded to binary64, the product is just below
    29 and [int] truncates it to 28. The sum the specification gives, with
    [floor(50 * 29 / 50) = 29], is 49. *)
Theorem risk_score_29_of_50 :
  let files := repeat "token" 29 ++ repeat "readme" 21 in
  exists r, analyze "bucket" files = Returned r
            /\ sensitive_files r = repeat "token" 29
            /\ high_risk_count (sensitive_files r) = 0%Z
            /\ ratio_bonus 29 50 = Returned 28%Z
            /\ risk_score r = 48%Z
            /\ spec_risk_score files (sensitive_files r) = 49%Z.
Proof. cbv zeta. eexists. split; [by vm_compute|]. by vm_compute. Qed.

(** C4, as the code has it. For every listing [analyze] returns; a file
    is in the flat [sensitive_files] list exactly when it is in the listing
    and matches the pattern table of some category; and for every category
    the findings hold no entry when no sensitive file matches its table,
    and otherwise the one entry that counts all the sensitive files
    matching its table, in order, and shows the first ten. A file that
    matches several tables is counted under each of them. *)
Theorem findings_group_by_each_matching_category name files :
  exists r,
    analyze name files = Returned r
    /\ (forall file,
          file ∈ sensitive_files r
          <-> file ∈ files /\ exists c, matches_category c file = true)
    /\ (forall c,
          List.filter (fun fd => String.eqb (f_category fd) (category_name c))
            (findings r)
          = match List.filter (matches_category c) (sensitive_files r) with
            | [] => []
            | group =>
                [ {| f_category := category_name c;
                     f_severity := _get_category_severity (category_name c);
                     f_count := len group;
                     f_files := take 10 group;
                     f_description :=
                       _get_category_description (category_name c) |} ]
            end)
    /\ (forall fd, fd ∈ findings r -> exists c, f_category fd = category_name c).
Proof.
  destruct (analyze_returns name files) as (r & Hr & Hs & Hf & _).
  exists r. split; [done|]. rewrite Hf, Hs. unfold _generate_findings.
  split; [|split].
  - intros file. rewrite detect_elem_of, matches_any_category. done.
  - intros c. rewrite (findings_filter _ c (categorize_keys _)), categorize_lookup.
    by destruct (List.filter (matches_category c) (_detect_sensitive_files files)).
  - intros fd. apply findings_categories.
Qed.

(** C4, the claim refuted: the one file ".env.local" matches the tables of
    credentials and of source_code, and is counted in the findings entries
    of both. *)
Lemma findings_env_local_in_two_categories :
  exists r fd1 fd2,
    analyze "bucket" [".env.local"] = Returned r
    /\ findings r = [fd1; fd2]
    /\ f_category fd1 = "credentials" /\ f_category fd2 = "source_code"
    /\ f_count fd1 = 1%Z /\ f_count fd2 = 1%Z
    /\ f_files fd1 = [".env.local"] /\ f_files fd2 = [".env.local"].
Proof. do 3 eexists. split; [by vm_compute|]. cbn. done. Qed.

(** C5, as the code has it. For every listing [analyze] returns a score
    between 0 and 100.
    Replacing a file that matches no category by any other file, so in
    particular by a sensitive one, at the same place of the listing never
    lowers the number of sensitive files nor the score. And for a listing
    of a given length the score never drops when files are added to the
    sensitive ones. *)
Theorem risk_score_bounded_and_monotone :
  (forall name files,
     exists r, analyze name files = Returned r /\ (0 <= risk_score r <= 100)%Z)
  /\ (forall name l1 f g l2,
        matches_any SENSITIVE_PATTERNS f = false ->
        exists r1 r2,
          analyze name (l1 ++ f :: l2) = Returned r1
          /\ analyze name (l1 ++ g :: l2) = Returned r2
          /\ (length (sensitive_files r1) <= length (sensitive_files r2))%nat
          /\ (risk_score r1 <= risk_score r2)%Z)
  /\ (forall files sensitive1 sensitive2,
        sensitive1 ⊆+ sensitive2 ->
        (length sensitive2 <= length files)%nat ->
        exists score1 score2,
          _calculate_risk_score files sensitive1 = Returned score1
          /\ _calculate_risk_score files sensitive2 = Returned score2
          /\ (score1 <= score2)%Z).
Proof.
  split; [|split].
  - intros name files.
    destruct (analyze_returns name files) as (r & Hr & _ & _ & Hsc & _).
    exists r. split; [done|]. rewrite Hsc.
    apply code_risk_score_range, detect_length.
  - intros name l1 f g l2 Hf.
    destruct (analyze_returns name (l1 ++ f :: l2)) as (r1 & Hr1 & Hs1 & _ & Hsc1 & _).
    destruct (analyze_returns name (l1 ++ g :: l2)) as (r2 & Hr2 & Hs2 & _ & Hsc2 & _).
    exists r1, r2. split; [done|]. split; [done|].
    pose proof (detect_replace l1 f g l2 Hf) as Hsub.
    rewrite Hs1, Hs2, Hsc1, Hsc2. split; [by apply submseteq_length|].
    apply code_risk_score_mono; [|done|apply detect_length].
    rewrite !length_app. reflexivity.
  - intros files sensitive1 sensitive2 Hsub Hle.
    pose proof (submseteq_length _ _ Hsub) as Hlen.
    destruct files as [|file files'].
    + exists 0%Z, 0%Z. done.
    + do 2 eexists.
      split; [apply _calculate_risk_score_eq; [done|lia]|].
      split; [by apply _calculate_risk_score_eq|].
      by apply (code_risk_score_mono (file :: files') (file :: files')).
Qed.

(** An instance: "notes.txt" replaced by ".env" after "readme". *)
Lemma risk_score_bounded_and_monotone_witness :
  matches_any SENSITIVE_PATTERNS "notes.txt" = false
  /\ matches_any SENSITIVE_PATTERNS ".env" = true
  /\ exists r1 r2,
       analyze "bucket" (["readme"] ++ "notes.txt" :: []) = Returned r1
       /\ analyze "bucket" (["readme"] ++ ".env" :: []) = Returned r2
       /\ (length (sensitive_files r1) <= length (sensitive_files r2))%nat
       /\ (risk_score r1 <= risk_score r2)%Z.
Proof.
  split; [by vm_compute|]. split; [by vm_compute|].
  apply (proj1 (proj2 risk_score_bounded_and_monotone)). by vm_compute.
Defined.

(** C5, the claim refuted: of two listings of 20 files, the one with a
    single sensitive file, ".env", scores 27, and the one with two
    sensitive files, "token" and "auth", scores 25. ".env" earns the 5
    points of a high-risk name, which outweigh the ratio term rising from
    2 to 5; so at a fixed number of files the score is not non-decreasing
    in the number of sensitive files. *)
Lemma risk_score_drops_with_more_sensitive_files :
  let files1 := ".env" :: repeat "readme" 19 in
  let files2 := "token" :: "auth" :: repeat "readme" 18 in
  exists r1 r2,
    analyze "bucket" files1 = Returned r1
    /\ analyze "bucket" files2 = Returned r2
    /\ length files1 = 20%nat /\ length files2 = 20%nat
    /\ sensitive_files r1 = [".env"]
    /\ sensitive_files r2 = ["token"; "auth"]
    /\ (length (sensitive_files r1) < length (sensitive_files r2))%nat
    /\ risk_score r1 = 27%Z
    /\ risk_score r2 = 25%Z
    /\ (risk_score r2 < risk_score r1)%Z.
Proof.
  cbv zeta. do 2 eexists.
  split; [by vm_compute|]. split; [by vm_compute|]. cbn. repeat split; lia.
Qed.

End AnalyzeClaims.

(** ** Claims on the lists of sensitive files *)

Section SensitiveFilesClaims.
Import PyStr Re Py.
#[local] Arguments contains_any : simpl never.
#[local] Arguments lower : simpl never.
#[local] Arguments ContentAnalyzer._detect_sensitive_files : simpl never.

Lemma filter_sublist {A} (p : A -> bool) (l : list A) :
  List.filter p l `sublist_of` l.
Proof.
  induction l as [|x l IH]; cbn [List.filter]; [done|].
  destruct (p x); [by apply sublist_skip|by apply sublist_cons].
Qed.

(** The scanner's detection is a filter of the listing. *)
Lemma base_detect_fold files acc :
  fold_left
    (fun sensitive file =>
       if contains_any BaseScanner.sensitive_patterns (lower file)
       then sensitive ++ [file] else sensitive)
    files acc
  = acc ++ List.filter
             (fun file => contains_any BaseScanner.sensitive_patterns (lower file))
             files.
Proof.
  revert acc. induction files as [|file files IH]; intros acc;
    cbn [fold_left List.filter].
  - by rewrite app_nil_r.
  - rewrite IH.
    destruct (contains_any BaseScanner.sensitive_patterns (lower file)); [|done].
    by rewrite <- app_assoc.
Qed.

Lemma base_detect_filter files :
  BaseScanner._detect_sensitive_files files
  = List.filter
      (fun file => contains_any BaseScanner.sensitive_patterns (lower file)) files.
Proof. unfold BaseScanner._detect_sensitive_files. by rewrite base_detect_fold. Qed.

Lemma base_detect_sublist files :
  BaseScanner._detect_sensitive_files files `sublist_of` files.
Proof. rewrite base_detect_filter. apply filter_sublist. Qed.

(** Where [scan_bucket] sets both lists, the second is the detection run on
    the first. *)
Lemma scan_bucket_lists (self : BaseScanner.Scanner) (name : string) :
  exists r,
    BaseScanner.scan_bucket self name = Returned r
    /\ forall found sensitive,
         BaseScanner.files_found r = Some found ->
         BaseScanner.sensitive_files r = Some sensitive ->
         sensitive = BaseScanner._detect_sensitive_files found.
Proof.
  unfold BaseScanner.scan_bucket, BaseScanner.scan_steps.
  destruct (BaseScanner.check_bucket_exists self name) as [[|]|e]; cbn;
    [|by eexists|by eexists].
  destruct (BaseScanner.check_public_access self name) as [level|e]; cbn;
    [|by eexists].
  destruct (BaseScanner.get_bucket_permissions self name) as [perms|e]; cbn;
    [|by eexists].
  destruct (negb (bool_decide (level ∈ [BaseScanner.PRIVATE; BaseScanner.UNKNOWN])));
    cbn; [|by eexists].
  destruct (BaseScanner.list_files self name) as [files|e]; cbn; [|by eexists].
  eexists. split; [reflexivity|]. cbn. by intros found sensitive [= <-] [= <-].
Qed.

(** C6, as the code has it. For every listing the [sensitive_files] of
    [analyze] are a subsequence of the listing: every entry comes from the
    listing, each place of the listing is used at most once and the order
    is kept; so they have no duplicates when the listing has none. In
    every result of a scanner's [scan_bucket] that carries both lists,
    [sensitive_files] is a subsequence of [files_found]. *)
Theorem sensitive_files_subsequence :
  (forall name files,
     exists r,
       ContentAnalyzer.analyze name files = Returned r
       /\ ContentAnalyzer.sensitive_files r `sublist_of` files
       /\ (forall file, file ∈ ContentAnalyzer.sensitive_files r -> file ∈ files)
       /\ (NoDup files -> NoDup (ContentAnalyzer.sensitive_files r)))
  /\ (forall (self : BaseScanner.Scanner) name,
        exists r,
          BaseScanner.scan_bucket self name = Returned r
          /\ forall found sensitive,
               BaseScanner.files_found r = Some found ->
               BaseScanner.sensitive_files r = Some sensitive ->
               sensitive `sublist_of` found
               /\ forall file, file ∈ sensitive -> file ∈ found).
Proof.
  split.
  - intros name files.
    destruct (analyze_returns name files) as (r & Hr & Hs & _).
    exists r. split; [done|]. rewrite Hs.
    pose proof (detect_sublist files) as Hsub.
    split; [done|]. split.
    + intros file Hin. by eapply elem_of_sublist.
    + intros Hnd. by eapply sublist_NoDup.
  - intros self name. destruct (scan_bucket_lists self name) as (r & Hr & Hl).
    exists r. split; [done|]. intros found sensitive Hf Hs.
    rewrite (Hl found sensitive Hf Hs).
    pose proof (base_detect_sublist found) as Hsub.
    split; [done|]. intros file Hin. by eapply elem_of_sublist.
Qed.

(** An instance: a listing without duplicates. *)
Lemma sensitive_files_subsequence_witness :
  NoDup ["a.env"; "readme"; "x.pem"]
  /\ exists r,
       ContentAnalyzer.analyze "bucket" ["a.env"; "readme"; "x.pem"] = Returned r
       /\ ContentAnalyzer.sensitive_files r = ["a.env"; "x.pem"]
       /\ NoDup (ContentAnalyzer.sensitive_files r).
Proof.
  assert (NoDup ["a.env"; "readme"; "x.pem"]) as Hnd
    by (apply (bool_decide_unpack _); vm_compute; exact I).
  split; [exact Hnd|].
  destruct (proj1 sensitive_files_subsequence "bucket" ["a.env"; "readme"; "x.pem"])
    as (r & Hr & _ & _ & Hno).
  exists r. split; [exact Hr|]. split; [|exact (Hno Hnd)].
  assert (ContentAnalyzer.analyze "bucket" ["a.env"; "readme"; "x.pem"]
          = Returned
              {| ContentAnalyzer.bucket_name := "bucket";
                 ContentAnalyzer.total_files := 3;
                 ContentAnalyzer.sensitive_files := ["a.env"; "x.pem"];
                 ContentAnalyzer.file_types := [("env", 1%Z); ("no_extension", 1%Z); ("pem", 1%Z)];
                 ContentAnalyzer.risk_score := 58;
                 ContentAnalyzer.findings :=
                   ContentAnalyzer._generate_findings
                     ["a.env"; "readme"; "x.pem"] ["a.env"; "x.pem"] |}) as He
    by (vm_compute; reflexivity).
  rewrite He in Hr. by injection Hr as <-.
Defined.

(** C6, the claim refuted: a listing that names "a.env" twice gets it
    twice in [sensitive_files]. *)
Lemma sensitive_files_repeats_a_repeated_file :
  exists r,
    ContentAnalyzer.analyze "bucket" ["a.env"; "a.env"] = Returned r
    /\ ContentAnalyzer.sensitive_files r = ["a.env"; "a.env"]
    /\ ~ NoDup (ContentAnalyzer.sensitive_files r).
Proof.
  eexists. split; [by vm_compute|]. cbn. split; [done|].
  intros Hnd. apply NoDup_cons in Hnd as [Hnot _]. apply Hnot. by left.
Qed.

(** Files that match only a later category are listed once even when the
    listing repeats them, while files matching the first category are
    listed each time. *)
Example detect_repeated_files :
  ContentAnalyzer._detect_sensitive_files
    ["a.env"; "a.env"; "x.pem"; "x.pem"; "A.PEM"]
  = ["a.env"; "a.env"; "x.pem"; "A.PEM"].
Proof. by vm_compute. Qed.

End SensitiveFilesClaims.

(** * Further properties of the content analysis *)

(** ** File types *)

Section FileTypeProperties.
Import PyStr Py ContentAnalyzer.
#[local] Arguments lower : simpl never.

(** The key a file is counted under. *)
Definition extension (file : string) : string :=
  match after_last_dot file with
  | Some e => lower e
  | None => "no_extension"
  end.

(** [d.get(k)] on the dict of counts. *)
Fixpoint types_get (k : string) (d : list (string * Z)) : option Z :=
  match d with
  | [] => None
  | (k', n) :: d' => if String.eqb k k' then Some n else types_get k d'
  end.

Definition types_total (d : list (string * Z)) : Z :=
  fold_right (fun entry total => (snd entry + total)%Z) 0%Z d.

Definition count_extension (ext : string) (files : list string) : nat :=
  length (List.filter (fun file => String.eqb (extension file) ext) files).

Lemma dict_incr_get k k' d :
  types_get k (dict_incr k' d)
  = if String.eqb k k' then Some (default 0%Z (types_get k' d) + 1)%Z
    else types_get k d.
Proof.
  induction d as [|[k0 n] d IH]; cbn [dict_incr types_get].
  - destruct (String.eqb_spec k k'); reflexivity.
  - destruct (String.eqb_spec k' k0) as [->|Hk0]; cbn [types_get].
    + destruct (String.eqb_spec k k0) as [->|Hk]; reflexivity.
    + destruct (String.eqb_spec k k0) as [->|Hk].
      * destruct (String.eqb_spec k0 k') as [->|_]; [done|reflexivity].
      * rewrite IH. destruct (String.eqb_spec k k') as [->|_]; [|reflexivity].
        destruct (String.eqb_spec k' k0); [done|reflexivity].
Qed.

Lemma dict_incr_total k d : types_total (dict_incr k d) = (types_total d + 1)%Z.
Proof.
  unfold types_total.
  induction d as [|[k0 n] d IH]; cbn [dict_incr fold_right snd]; [lia|].
  destruct (String.eqb k k0); cbn [fold_right snd]; lia.
Qed.

Lemma dict_incr_keys k d :
  NoDup (map fst d) ->
  NoDup (map fst (dict_incr k d))
  /\ forall x, x ∈ map fst (dict_incr k d) <-> x = k \/ x ∈ map fst d.
Proof.
  induction d as [|[k0 n] d IH]; intros Hnd; cbn [dict_incr map fst].
  - split; [apply NoDup_singleton|]. intros x.
    rewrite list_elem_of_singleton, elem_of_nil. tauto.
  - apply NoDup_cons in Hnd as [Hk0 Hnd]. destruct (IH Hnd) as [IH1 IH2].
    destruct (String.eqb_spec k k0) as [->|Hk]; cbn [map fst].
    + split; [by apply NoDup_cons|]. intros x. rewrite elem_of_cons. tauto.
    + split.
      * apply NoDup_cons. split; [|done]. rewrite IH2. intros [?|?]; [congruence|done].
      * intros x. rewrite !elem_of_cons, IH2. tauto.
Qed.

Lemma dict_incr_positive k d :
  (forall x n, (x, n) ∈ d -> (1 <= n)%Z) ->
  forall x n, (x, n) ∈ dict_incr k d -> (1 <= n)%Z.
Proof.
  induction d as [|[k0 n0] d IH]; intros Hd x n; cbn [dict_incr].
  - rewrite list_elem_of_singleton. intros [= -> ->]. lia.
  - assert (1 <= n0)%Z as H0 by (apply (Hd k0); by left).
    assert (forall x n, (x, n) ∈ d -> (1 <= n)%Z) as Hd'
      by (intros y m Hy; apply (Hd y); by right).
    destruct (String.eqb k k0); rewrite elem_of_cons.
    + intros [[= -> ->]|Hin]; [lia|by apply (Hd' x)].
    + intros [[= -> ->]|Hin]; [lia|by apply (IH Hd' x)].
Qed.

Lemma file_types_fold files d :
  NoDup (map fst d) ->
  (forall x n, (x, n) ∈ d -> (1 <= n)%Z) ->
  let d' :=
    fold_left
      (fun file_types file =>
         let ext := match after_last_dot file with
                    | Some e => lower e
                    | None => "no_extension"
                    end in
         dict_incr ext file_types)
      files d in
  NoDup (map fst d')
  /\ (forall x n, (x, n) ∈ d' -> (1 <= n)%Z)
  /\ types_total d' = (types_total d + len files)%Z
  /\ forall ext,
       default 0%Z (types_get ext d')
       = (default 0%Z (types_get ext d) + Z.of_nat (count_extension ext files))%Z.
Proof.
  revert d. induction files as [|file files IH]; intros d Hnd Hpos;
    cbn [fold_left].
  - cbn zeta. split; [done|]. split; [done|]. unfold len, count_extension.
    cbn. split; [lia|]. intros ext. lia.
  - fold (extension file).
    destruct (dict_incr_keys (extension file) d Hnd) as [Hnd' _].
    pose proof (dict_incr_positive (extension file) d Hpos) as Hpos'.
    destruct (IH _ Hnd' Hpos') as (H1 & H2 & H3 & H4).
    cbn zeta in *. split; [done|]. split; [done|]. split.
    + rewrite H3, dict_incr_total. unfold len. cbn [length]. lia.
    + intros ext. rewrite H4, dict_incr_get. unfold count_extension.
      cbn [List.filter]. rewrite (String.eqb_sym (extension file) ext).
      destruct (String.eqb_spec ext (extension file)) as [->|_];
        cbn [default length]; unfold id; lia.
Qed.

Lemma types_get_member k (d : list (string * Z)) :
  types_get k d = None <-> k ∉ map fst d.
Proof.
  induction d as [|[k0 n] d IH]; cbn [types_get map fst].
  - split; [intros _; apply not_elem_of_nil|done].
  - rewrite not_elem_of_cons. destruct (String.eqb_spec k k0) as [->|Hk].
    + split; [done|]. by intros [? _].
    + rewrite IH. tauto.
Qed.

Lemma types_get_positive k (d : list (string * Z)) n :
  (forall x m, (x, m) ∈ d -> (1 <= m)%Z) -> types_get k d = Some n -> (1 <= n)%Z.
Proof.
  induction d as [|[k0 n0] d IH]; intros Hpos; cbn [types_get]; [done|].
  destruct (String.eqb k k0).
  - intros [= <-]. apply (Hpos k0). by left.
  - apply IH. intros x m Hin. apply (Hpos x). by right.
Qed.

(** X1. The dict of [_analyze_file_types] has distinct keys, holds for every
    extension the number of files counted under it (and no entry when
    there is none), and its counts add up to the number of files. Files
    without a dot share the key "no_extension" with files whose extension
    is spelled that way, and the extension is taken in lower case. *)
Theorem file_types_counts (files : list string) :
  NoDup (map fst (_analyze_file_types files))
  /\ (forall ext,
        types_get ext (_analyze_file_types files)
        = match count_extension ext files with
          | O => None
          | n => Some (Z.of_nat n)
          end)
  /\ types_total (_analyze_file_types files) = len files.
Proof.
  destruct (file_types_fold files [] (NoDup_nil_2 (A := string)))
    as (Hnd & Hpos & Htot & Hget).
  { intros x n Hin. by apply elem_of_nil in Hin. }
  cbn zeta in *. fold (_analyze_file_types files) in *.
  split; [done|]. split; [|by rewrite Htot].
  intros ext. specialize (Hget ext). cbn [types_get default] in Hget.
  destruct (types_get ext (_analyze_file_types files)) as [n|] eqn:Hg.
  - pose proof (types_get_positive _ _ _ Hpos Hg) as Hn. cbn [default] in Hget.
    unfold id in Hget.
    destruct (count_extension ext files) as [|m] eqn:Hc; [lia|].
    f_equal. lia.
  - cbn [default] in Hget. destruct (count_extension ext files); [done|lia].
Qed.

End FileTypeProperties.

(** ** Findings, repeated detection and score bands *)

Section FindingsProperties.
Import PyStr Re Py ContentAnalyzer.
#[local] Arguments any_pattern : simpl never.
#[local] Arguments contains_any : simpl never.
#[local] Arguments lower : simpl never.
#[local] Arguments _detect_sensitive_files : simpl never.

Lemma dict_lookup_elem {V} c (g : V) (d : list (category * V)) :
  NoDup (map fst d) -> (c, g) ∈ d -> dict_lookup c d = Some g.
Proof.
  induction d as [|[k v] d IH]; cbn [map fst dict_lookup]; intros Hnd Hin.
  - by apply elem_of_nil in Hin.
  - apply NoDup_cons in Hnd as [Hk Hnd].
    apply elem_of_cons in Hin as [[= -> ->]|Hin].
    + by rewrite decide_True.
    + destruct (decide (c = k)) as [->|_]; [|by apply IH].
      exfalso. apply Hk. apply list_elem_of_fmap. by exists (k, g).
Qed.

Lemma severity_of_category c :
  _get_category_severity (category_name c) ∈ ["critical"; "high"; "medium"].
Proof. destruct c; apply (bool_decide_unpack _); by vm_compute. Qed.

Lemma description_of_category c :
  _get_category_description (category_name c)
  <> "Potentially sensitive files detected".
Proof. destruct c; vm_compute; discriminate. Qed.

Lemma filter_length_le {A} (p : A -> bool) (l : list A) :
  (length (List.filter p l) <= length l)%nat.
Proof. apply sublist_length, filter_sublist. Qed.

(** X2. Every entry of the findings of [analyze] belongs to a category of the
    table, has the severity critical, high or medium (never low) and the
    description of its category (never the fallback text), counts at
    least one and at most all sensitive files, and shows the first ten of
    the files it counts, in the order of [sensitive_files]. There are no
    findings exactly when there are no sensitive files. *)
Theorem findings_entries name files :
  exists r,
    analyze name files = Returned r
    /\ (findings r = [] <-> sensitive_files r = [])
    /\ forall fd,
         fd ∈ findings r ->
         (exists c, f_category fd = category_name c)
         /\ f_severity fd ∈ ["critical"; "high"; "medium"]
         /\ f_description fd <> "Potentially sensitive files detected"
         /\ (1 <= f_count fd <= len (sensitive_files r))%Z
         /\ len (f_files fd) = Z.min (f_count fd) 10
         /\ f_files fd `sublist_of` sensitive_files r.
Proof.
  destruct (analyze_returns name files) as (r & Hr & Hs & Hf & _).
  exists r. split; [done|]. rewrite Hf, Hs. unfold _generate_findings.
  set (S := _detect_sensitive_files files). split.
  - split.
    + intros Hnil. destruct S as [|file S'] eqn:HS; [done|]. exfalso.
      assert (file ∈ _detect_sensitive_files files) as Hin
        by (fold S; rewrite HS; by left).
      apply detect_elem_of in Hin as [_ Hm].
      apply matches_any_category in Hm as [c Hc].
      pose proof (categorize_lookup (file :: S') c) as Hl.
      cbn [List.filter] in Hl. rewrite Hc in Hl.
      destruct (categorize (file :: S')) as [|entry d]; [done|].
      discriminate Hnil.
    + intros ->. reflexivity.
  - intros fd Hfd. apply list_elem_of_fmap in Hfd as ([c group] & -> & Hin).
    pose proof (dict_lookup_elem c group _ (categorize_keys S) Hin) as Hl.
    rewrite categorize_lookup in Hl.
    destruct (List.filter (matches_category c) S) as [|f0 fs] eqn:Hfl;
      [discriminate|]. injection Hl as <-.
    cbn [make_finding f_category f_severity f_description f_count f_files].
    split; [by exists c|]. split; [apply severity_of_category|].
    split; [apply description_of_category|].
    pose proof (filter_length_le (matches_category c) S) as Hle.
    pose proof (filter_sublist (matches_category c) S) as Hsub.
    rewrite Hfl in Hle, Hsub. unfold len. rewrite length_take.
    split; [cbn [length] in *; lia|]. split; [lia|].
    etransitivity; [apply sublist_take|done].
Qed.

(** Detection run on its own output keeps all of it. *)
Lemma detect_from_fixed files seen seen' :
  (forall x, x ∈ seen' -> x ∈ seen) ->
  detect_from seen' (detect_from seen files) = detect_from seen files.
Proof.
  revert seen seen'. induction files as [|file files IH]; intros seen seen' Hsub;
    cbn [detect_from]; [done|].
  destruct (keep file seen) eqn:Hk; cbn [app detect_from].
  - assert (keep file seen' = true) as ->.
    { unfold keep in *. destruct (any_pattern first_patterns (lower file)); [done|].
      cbn [orb] in *. apply andb_true_iff in Hk as [-> Hk]. cbn [andb].
      apply negb_true_iff in Hk. apply negb_true_iff.
      unfold list_in in *. apply bool_decide_eq_false in Hk.
      apply bool_decide_eq_false. intros Hin. by apply Hk, Hsub. }
    cbn [app]. f_equal. apply IH. intros x. rewrite !elem_of_app.
    intros [Hx|Hx]; [left; by apply Hsub|by right].
  - apply IH. intros x Hx. apply elem_of_app. left. by apply Hsub.
Qed.

(** X3. Running [analyze] again on the sensitive files it returned gives the
    same sensitive files and the same findings. *)
Theorem analyze_sensitive_files_again name files :
  exists r r',
    analyze name files = Returned r
    /\ analyze name (sensitive_files r) = Returned r'
    /\ sensitive_files r' = sensitive_files r
    /\ findings r' = findings r.
Proof.
  destruct (analyze_returns name files) as (r & Hr & Hs & Hf & _).
  destruct (analyze_returns name (sensitive_files r)) as (r' & Hr' & Hs' & Hf' & _).
  exists r, r'. split; [done|]. split; [done|].
  assert (_detect_sensitive_files (sensitive_files r) = sensitive_files r) as Hfix.
  { rewrite Hs, !detect_is_detect_from. by apply detect_from_fixed. }
  rewrite Hs', Hf', Hf, Hfix, Hs. done.
Qed.

End FindingsProperties.

Section ScoreBands.
Import PyStr Re Py PyFloat ContentAnalyzer.
#[local] Arguments contains_any : simpl never.
#[local] Arguments lower : simpl never.
#[local] Arguments _detect_sensitive_files : simpl never.

Lemma round_val_comp x x' d : (x == x')%Q -> (round_val x d == round_val x' d)%Q.
Proof.
  intros H. unfold round_val.
  rewrite (rne_comp (x * pow2 (- fexp prec emax d)) (x' * pow2 (- fexp prec emax d)));
    [reflexivity|]. by rewrite H.
Qed.

Lemma mag_of_comp x x' d : (x == x')%Q -> mag_of x d -> mag_of x' d.
Proof. intros H [H1 H2]. split; rewrite <- H; done. Qed.

Lemma rounded_value x y v d :
  rounded x y -> (x == v)%Q -> (0 < v)%Q -> mag_of v d ->
  (round_val v d == v)%Q -> (SF2Q y == v)%Q.
Proof.
  intros [_ [[Hx _]|(Hx & d' & Hm & Hy)]] Hv Hpos Hmv Hrv; [lra|].
  pose proof (mag_of_unique _ _ _ (mag_of_comp _ _ _ Hv Hm) Hmv) as ->.
  rewrite Hy, (round_val_comp _ _ _ Hv). exact Hrv.
Qed.

Lemma mag_of_fifty : mag_of 50 6.
Proof. split; [by vm_compute|reflexivity]. Qed.

Lemma round_val_fifty : (round_val 50 6 == 50)%Q.
Proof. reflexivity. Qed.

(** When every file is sensitive the quotient is exactly 1.0 and the ratio
    contributes exactly 50. *)
Lemma ratio_term_all n : (0 < n)%nat -> ratio_term n n = 50%Z.
Proof.
  intros Hn. destruct (ratio_bonus_floor n n Hn (le_n n)) as (w & Hr & _ & Hm & Hb).
  unfold ratio_term. destruct n as [|n']; [lia|]. rewrite Hb.
  assert (inject_Z (Z.of_nat (S n')) / inject_Z (Z.of_nat (S n')) == 1)%Q as H1.
  { assert (0 < inject_Z (Z.of_nat (S n')))%Q as Hp.
    { change 0%Q with (inject_Z 0). rewrite <- Zlt_Qlt. lia. }
    field. lra. }
  pose proof (rounded_value _ _ 1%Q 1 Hr H1 ltac:(reflexivity) mag_of_one
                round_val_one) as Hw.
  assert (50 * SF2Q w == 50)%Q as H50 by (rewrite Hw; reflexivity).
  pose proof (rounded_value _ _ 50%Q 6 Hm H50 ltac:(reflexivity) mag_of_fifty
                round_val_fifty) as Hz.
  rewrite (Qfloor_comp _ _ Hz). reflexivity.
Qed.

Lemma ratio_term_le_50 s n : (s <= n)%nat -> (ratio_term s n <= 50)%Z.
Proof.
  intros Hsn. destruct n as [|n'].
  - assert (s = 0)%nat as -> by lia. done.
  - rewrite <- (ratio_term_all (S n')) by lia. by apply ratio_term_mono.
Qed.

(** X4. The score of [analyze] is 0 exactly for the empty listing and at least
    15 otherwise; without sensitive files it is 10 plus the size tier, so
    at most 30; when every file is sensitive it is at least 65; and the
    ratio never contributes more than 50. *)
Theorem risk_score_bands name files :
  exists r,
    analyze name files = Returned r
    /\ (risk_score r = 0%Z <-> files = [])
    /\ (files <> [] -> (15 <= risk_score r)%Z)
    /\ (files <> [] -> sensitive_files r = [] ->
        risk_score r = (10 + size_points (len files))%Z
        /\ (risk_score r <= 30)%Z)
    /\ (files <> [] -> length (sensitive_files r) = length files ->
        (65 <= risk_score r)%Z)
    /\ (risk_score r
        <= 10 + size_points (len files) + 50
           + 5 * high_risk_count (sensitive_files r))%Z.
Proof.
  destruct (analyze_returns name files) as (r & Hr & Hs & _ & Hsc & _).
  exists r. split; [done|]. rewrite Hsc, Hs.
  set (S := _detect_sensitive_files files).
  pose proof (detect_length files) as Hlen. fold S in Hlen.
  pose proof (size_points_bounds (len files)) as Hsz.
  pose proof (ratio_term_nonneg _ _ Hlen) as Hr0.
  pose proof (ratio_term_le_50 _ _ Hlen) as Hr50.
  pose proof (high_risk_count_nonneg S) as Hh.
  unfold code_risk_score.
  destruct files as [|f files'] eqn:Hfiles.
  - split; [done|]. split; [done|]. split; [done|]. split; [done|]. lia.
  - rewrite <- Hfiles in *. split; [split; [lia|by subst]|].
    split; [lia|]. split; [|split; [|lia]].
    + intros _ HS. rewrite HS in *. cbn [length ratio_term] in *.
      unfold high_risk_count. cbn. lia.
    + intros _ HS. rewrite HS, ratio_term_all by (subst; cbn; lia). lia.
Qed.

End ScoreBands.

(** ** The rounded ratio term against the exact one *)

Section RatioError.
Import PyStr Py PyFloat ContentAnalyzer.
#[local] Arguments contains_any : simpl never.
#[local] Arguments lower : simpl never.
#[local] Arguments _detect_sensitive_files : simpl never.
Local Open Scope Q_scope.

(** Rounding moves a value by at most half a unit in the last place. *)
Lemma round_val_error x d :
  round_val x d - x <= (1 # 2) * pow2 (fexp prec emax d)
  /\ x - round_val x d <= (1 # 2) * pow2 (fexp prec emax d).
Proof.
  unfold round_val. set (fe := fexp prec emax d).
  pose proof (rne_bounds (x * pow2 (- fe))) as [H1 H2].
  pose proof (pow2_pos fe) as Hp. pose proof (pow2_cancel x fe) as Hc.
  set (u := x * pow2 (- fe)) in *. set (m := inject_Z (rne u)) in *.
  assert ((m - (1 # 2)) * pow2 fe <= u * pow2 fe) as H1'
    by (apply Qmult_le_compat_r; lra).
  assert (u * pow2 fe <= (m + (1 # 2)) * pow2 fe) as H2'
    by (apply Qmult_le_compat_r; lra).
  lra.
Qed.

Definition eps : Q := 1 # 9007199254740992.

(** For a normal value the move is at most [2^-53] of the value. *)
Lemma round_val_relative x d :
  (-1021 <= d)%Z -> mag_of x d ->
  round_val x d - x <= x * eps /\ x - round_val x d <= x * eps.
Proof.
  intros Hd [Hlo _]. pose proof (round_val_error x d) as [H1 H2].
  rewrite fexp_eq in H1, H2. rewrite Z.max_l in H1, H2 by lia.
  assert (pow2 (d - 53) == pow2 (d - 1) * (1 # 4503599627370496)) as Hp.
  { replace (d - 53)%Z with ((d - 1) + -52)%Z by lia. rewrite pow2_add.
    reflexivity. }
  pose proof (pow2_pos (d - 1)) as Hpos. unfold eps.
  set (p := pow2 (d - 1)) in *. set (q := pow2 (d - 53)) in *. lra.
Qed.

Lemma pow2_m40 : pow2 (-40) == 1 # 1099511627776.
Proof. reflexivity. Qed.

Lemma pow2_m41 : pow2 (-41) == 1 # 2199023255552.
Proof. reflexivity. Qed.

Lemma mag_lower_bound x d b : pow2 b <= x -> mag_of x d -> (b < d)%Z.
Proof.
  intros Hb [_ Hhi]. apply pow2_lt_inv. lra.
Qed.

(** For at most [2^40] files the ratio term of the code is the exact
    [floor(50 * s / n)] or one less. *)
Lemma ratio_term_near_floor (s n : nat) :
  (0 < s)%nat -> (s <= n)%nat -> (Z.of_nat n <= 2 ^ 40)%Z ->
  let k := Qfloor (50 * (inject_Z (Z.of_nat s) / inject_Z (Z.of_nat n))) in
  ratio_term s n = k \/ ratio_term s n = (k - 1)%Z.
Proof.
  intros Hs Hsn Hn k.
  destruct (ratio_bonus_floor s n Hs Hsn) as (w & Hr & Hw1 & Hm & Hb).
  assert (ratio_term s n = Qfloor (SF2Q (mul50 w))) as ->.
  { unfold ratio_term. destruct s; [lia|]. by rewrite Hb. }
  set (S := inject_Z (Z.of_nat s)) in *. set (N := inject_Z (Z.of_nat n)) in *.
  assert (1 <= S) as HS.
  { unfold S. change 1 with (inject_Z 1). rewrite <- Zle_Qle. lia. }
  assert (S <= N) as HSN by (unfold S, N; rewrite <- Zle_Qle; lia).
  assert (N <= 1099511627776) as HN.
  { unfold N. change 1099511627776 with (inject_Z (2 ^ 40)).
    rewrite <- Zle_Qle. lia. }
  set (q := / N).
  assert (N * q == 1) as HNq by (unfold q; field; lra).
  assert (0 < q) as Hq0 by (unfold q; apply Qinv_lt_0_compat; lra).
  assert (pow2 (-40) <= q) as Hq.
  { rewrite pow2_m40.
    assert (N * q <= 1099511627776 * q) as H
      by (apply Qmult_le_compat_r; lra). lra. }
  set (x := S / N) in *.
  assert (x == S * q) as Hx by (unfold x, q; field; lra).
  assert (q <= x) as Hqx.
  { assert (1 * q <= S * q) as H by (apply Qmult_le_compat_r; lra). lra. }
  assert (x <= 1) as Hx1.
  { assert (S * q <= N * q) as H by (apply Qmult_le_compat_r; lra). lra. }
  (* the quotient *)
  set (y := SF2Q w) in *.
  assert (y - x <= x * eps /\ x - y <= x * eps) as [Hy1 Hy2].
  { destruct Hr as [_ [[Hx0 _]|(_ & d & Hmag & Hy)]]; [lra|].
    pose proof (mag_lower_bound x d (-40) ltac:(lra) Hmag) as Hd.
    pose proof (round_val_relative x d ltac:(lia) Hmag) as [H1 H2].
    change (SF2Q w) with y in Hy. lra. }
  assert (pow2 (-41) <= 50 * y) as Hy41.
  { rewrite pow2_m41. rewrite pow2_m40 in Hq. unfold eps in *. lra. }
  (* the product *)
  set (z := SF2Q (mul50 w)) in *.
  assert (z - 50 * y <= 50 * y * eps /\ 50 * y - z <= 50 * y * eps) as [Hz1 Hz2].
  { destruct Hm as [_ [[Hy0 _]|(_ & d & Hmag & Hz)]];
      [pose proof (pow2_pos (-41)); lra|].
    pose proof (mag_lower_bound (50 * y) d (-41) Hy41 Hmag) as Hd.
    pose proof (round_val_relative (50 * y) d ltac:(lia) Hmag) as [H1 H2].
    change (SF2Q (mul50 w)) with z in Hz. lra. }
  (* the exact floor *)
  destruct (Qfloor_bounds (50 * x)) as [Hk1 Hk2]. fold k in Hk1, Hk2.
  assert (50 * x + q <= inject_Z k + 1) as Hgap.
  { assert (50 * Z.of_nat s < (k + 1) * Z.of_nat n)%Z as HZ.
    { rewrite Zlt_Qlt, !inject_Z_mult, inject_Z_plus. fold S N.
      change (inject_Z 50) with 50. change (inject_Z 1) with 1.
      assert (50 * x * N == 50 * S) as H50.
      { rewrite Hx. transitivity (50 * S * (N * q)); [ring|]. rewrite HNq. ring. }
      assert (50 * x * N < (inject_Z k + 1) * N) as H
        by (apply Qmult_lt_compat_r; lra). lra. }
    assert (50 * S + 1 <= (inject_Z k + 1) * N) as HQ.
    { assert (50 * Z.of_nat s + 1 <= (k + 1) * Z.of_nat n)%Z as HZ' by lia.
      rewrite Zle_Qle in HZ'.
      rewrite inject_Z_plus, !inject_Z_mult, inject_Z_plus in HZ'. exact HZ'. }
    assert ((50 * S + 1) * q <= (inject_Z k + 1) * N * q) as H
      by (apply Qmult_le_compat_r; lra).
    assert ((inject_Z k + 1) * N * q == inject_Z k + 1) as Hc.
    { transitivity ((inject_Z k + 1) * (N * q)); [ring|]. rewrite HNq. ring. }
    assert ((50 * S + 1) * q == 50 * x + q) as Hc' by (rewrite Hx; ring).
    lra. }
  rewrite pow2_m40 in Hq. unfold eps in *.
  assert (z < inject_Z k + 1) as Hup by lra.
  assert (inject_Z k - 1 <= z) as Hlo by lra.
  assert (Qfloor z <= k)%Z as Hle.
  { destruct (Qfloor_bounds z) as [Hf _].
    assert (inject_Z (Qfloor z) < inject_Z (k + 1)) as H.
    { rewrite inject_Z_plus. change (inject_Z 1) with 1. lra. }
    rewrite <- Zlt_Qlt in H. lia. }
  assert (k - 1 <= Qfloor z)%Z as Hge.
  { rewrite <- (Qfloor_Z (k - 1)). apply Qfloor_resp_le.
    unfold Z.sub. rewrite inject_Z_plus. change (inject_Z (- (1))) with (-1). lra. }
  lia.
Qed.

Lemma code_risk_score_nonempty files sensitive :
  files <> [] ->
  code_risk_score files sensitive
  = Z.min (10 + size_points (len files)
           + ratio_term (length sensitive) (length files)
           + 5 * high_risk_count sensitive) 100.
Proof. by destruct files. Qed.

(** X5. For a listing that is not empty and has at most [2^40] files, the
    score of [analyze] is the sum the specification words with an exact
    quotient, or one point less. *)
Theorem risk_score_near_exact_formula name files :
  files <> [] -> (len files <= 2 ^ 40)%Z ->
  exists r,
    analyze name files = Returned r
    /\ (spec_risk_score files (sensitive_files r) - 1 <= risk_score r
        <= spec_risk_score files (sensitive_files r))%Z.
Proof.
  intros Hne Hsize.
  destruct (analyze_returns name files) as (r & Hr & Hs & _ & Hsc & _).
  exists r. split; [done|]. rewrite Hsc, Hs.
  pose proof (detect_length files) as Hlen.
  generalize dependent (_detect_sensitive_files files). intros sens _ _ Hlen.
  rewrite (code_risk_score_nonempty files sens Hne). unfold spec_risk_score.
  assert (let k := Qfloor (50 * (inject_Z (len sens) / inject_Z (len files))) in
          ratio_term (length sens) (length files) = k
          \/ ratio_term (length sens) (length files) = (k - 1)%Z) as Hk.
  { destruct (decide (sens = [])) as [->|Hsens].
    - left. cbn [length ratio_term]. symmetry.
      rewrite <- (Qfloor_Z 0). apply Qfloor_comp. unfold len. cbn [length].
      change (inject_Z (Z.of_nat 0)) with 0. unfold Qdiv. ring.
    - unfold len in *.
      apply ratio_term_near_floor; [by destruct sens; [|cbn; lia]|done|done]. }
  cbv zeta in Hk. destruct Hk as [-> | ->]; lia.
Qed.

(** An instance: the listing with 29 sensitive files out of 50. *)
Lemma risk_score_near_exact_formula_witness :
  exists r,
    analyze "bucket" (repeat "token" 29 ++ repeat "readme" 21) = Returned r
    /\ (spec_risk_score (repeat "token" 29 ++ repeat "readme" 21)
          (sensitive_files r) - 1 <= risk_score r
        <= spec_risk_score (repeat "token" 29 ++ repeat "readme" 21)
             (sensitive_files r))%Z.
Proof.
  apply risk_score_near_exact_formula.
  - intros H. vm_compute in H. discriminate H.
  - by vm_compute.
Defined.

End RatioError.

(** * Further code: recommendations and the callers' risk rating *)

From Stdlib Require Import DecimalString.

(** [str(n)] for an [int]. *)
Definition str_of_int (n : Z) : string := NilZero.string_of_int (Z.to_int n).

(** ** [PermissionChecker._generate_recommendations] *)

Module Recommendations.
Import PyStr Py PermissionChecker.

Definition public_line : string :=
  "Bucket is publicly accessible. Review if this is intentional.".

(** The line that opens with a warning sign, U+26A0 U+FE0F, given here by
    the bytes of its UTF-8 encoding. *)
Definition critical_line : string :=
  "⚠️ CRITICAL: Bucket has public write access! This allows anyone to upload/modify files.".

Definition remove_line : string :=
  "Immediately remove public write permissions.".

Definition secured_line : string :=
  "Bucket appears to be properly secured.".

Definition found_line (n : Z) : string :=
  "Found " +:+ str_of_int n +:+ " accessible files. Review for sensitive data.".

Definition _generate_recommendations (is_public is_writable : bool)
    (provider : string) (files_found : option (list string)) : list string :=
  let recommendations := [] in
  let recommendations :=
    if is_public
    then
      let recommendations := recommendations ++ [public_line] in
      if String.eqb provider "aws_s3"
      then (recommendations
              ++ ["Consider enabling AWS S3 Block Public Access settings."])
             ++ ["Review bucket ACL and bucket policies for AllUsers grants."]
      else if String.eqb provider "gcp_gcs"
      then (recommendations
              ++ ["Check IAM policy for 'allUsers' or 'allAuthenticatedUsers' members."])
             ++ ["Consider using signed URLs for temporary access instead."]
      else if String.eqb provider "azure_blob"
      then (recommendations
              ++ ["Change container public access level to 'Private'."])
             ++ ["Use Shared Access Signatures (SAS) for controlled access."]
      else recommendations
    else recommendations in
  let recommendations :=
    if is_writable
    then (recommendations ++ [critical_line]) ++ [remove_line]
    else recommendations in
  let recommendations :=
    if truthy files_found
       && (0 <? ContentAnalyzer.len (default [] files_found))%Z
    then recommendations
           ++ [found_line (ContentAnalyzer.len (default [] files_found))]
    else recommendations in
  let recommendations :=
    match recommendations with
    | [] => recommendations ++ [secured_line]
    | _ => recommendations
    end in
  recommendations.

(** The [recommendations] field of the result of [analyze_permissions]:
    the call made there, with the [is_writable] computed there. *)
Definition analyze_permissions_recommendations (name prov : string)
    (raw : list string) (public : bool)
    (files_found : option (list string)) : list string :=
  _generate_recommendations public
    (is_writable (analyze_permissions name prov raw public files_found))
    prov files_found.

End Recommendations.

(** ** The risk rating of a scan result by its consumers

    [result_callback] of [src/worker_service.py] and
    [scan_bucket_immediate] of [src/api/routes.py] rate every scan result
    with the same lines before storing it. *)

Module WorkerService.
Import Py BaseScanner.

(** The block under "Calculate risk", giving the [risk_level] and the
    [risk_score] stored with the result, the latter as
    [min(risk_score, 100)]. *)
Definition result_risk (scan_result : BucketScanResult) : string * Z :=
  let risk_level := "low" in
  let risk_score := 0%Z in
  let '(risk_level, risk_score) :=
    if is_accessible scan_result
    then
      let risk_score := (risk_score + 30)%Z in
      let risk_level := "medium" in
      if PermissionChecker.truthy (sensitive_files scan_result)
      then
        let risk_score :=
          (risk_score
           + ContentAnalyzer.len (default [] (sensitive_files scan_result)) * 10)%Z in
        let risk_level := "high" in
        (risk_level, risk_score)
      else (risk_level, risk_score)
    else (risk_level, risk_score) in
  (risk_level, Z.min risk_score 100).

End WorkerService.

(** * Properties of the recommendations and of the callers' rating *)

Section RecommendationProperties.
Import PyStr Py PermissionChecker Recommendations.

Lemma found_line_head n : exists rest, found_line n = String "F" rest.
Proof. unfold found_line. cbn. eauto. Qed.

Lemma truthy_len {A} (l : option (list A)) :
  (truthy l && (0 <? ContentAnalyzer.len (default [] l))%Z) = truthy l.
Proof.
  destruct l as [[|a l]|]; [done| |done].
  change (default [] (Some (a :: l))) with (a :: l). cbn [truthy andb].
  apply Z.ltb_lt. unfold ContentAnalyzer.len. cbn [length]. lia.
Qed.

Ltac line_neg H :=
  unfold public_line, critical_line, remove_line, secured_line in H;
  repeat (apply elem_of_cons in H as [H|H]; [discriminate H|]);
  by apply elem_of_nil in H.

Ltac line_pos :=
  repeat (apply elem_of_cons; first [left; reflexivity | right]).

Ltac line_goal :=
  lazymatch goal with
  | |- _ <-> _ => split; line_goal
  | |- _ /\ _ => split; line_goal
  | |- _ -> _ =>
      let H := fresh in
      intros H;
      first [ discriminate H | by destruct H as (? & ? & ?) | line_neg H | line_goal ]
  | |- _ ∈ _ => line_pos
  | |- _ => first [reflexivity | cbn [length]; lia]
  end.

(** Shared by the theorem that follows and by later proofs. *)
Lemma recommendations_lines_facts (is_public is_writable : bool)
    (provider : string) (files_found : option (list string)) :
  let recs := _generate_recommendations is_public is_writable provider files_found in
  recs <> []
  /\ (secured_line ∈ recs
      <-> is_public = false /\ is_writable = false /\ truthy files_found = false)
  /\ (secured_line ∈ recs -> recs = [secured_line])
  /\ (critical_line ∈ recs <-> is_writable = true)
  /\ (remove_line ∈ recs <-> is_writable = true)
  /\ (public_line ∈ recs <-> is_public = true)
  /\ (found_line (ContentAnalyzer.len (default [] files_found)) ∈ recs
      <-> truthy files_found = true)
  /\ (length recs <= 6)%nat.
Proof.
  cbv zeta. unfold _generate_recommendations. rewrite truthy_len.
  destruct (found_line_head (ContentAnalyzer.len (default [] files_found)))
    as [rest Hrest].
  set (fl := found_line _) in *. clearbody fl. subst fl.
  destruct is_public, is_writable, (truthy files_found);
    destruct (String.eqb provider "aws_s3"), (String.eqb provider "gcp_gcs"),
      (String.eqb provider "azure_blob");
    cbn [app andb]; (split; [discriminate|]); line_goal.
Qed.

(** X6. [_generate_recommendations] never returns an empty list. It says that
    the bucket appears properly secured exactly when the bucket is not
    public, not writable and no files were found, and then says nothing
    else. The warning of public write access and the advice to remove it
    are given exactly when [is_writable] holds, public or not, and the
    note on public access exactly when [is_public] holds. The number of
    files is reported exactly when files were found. *)
Theorem recommendations_lines (is_public is_writable : bool)
    (provider : string) (files_found : option (list string)) :
  let recs := _generate_recommendations is_public is_writable provider files_found in
  recs <> []
  /\ (secured_line ∈ recs
      <-> is_public = false /\ is_writable = false /\ truthy files_found = false)
  /\ (secured_line ∈ recs -> recs = [secured_line])
  /\ (critical_line ∈ recs <-> is_writable = true)
  /\ (remove_line ∈ recs <-> is_writable = true)
  /\ (public_line ∈ recs <-> is_public = true)
  /\ (found_line (ContentAnalyzer.len (default [] files_found)) ∈ recs
      <-> truthy files_found = true)
  /\ (length recs <= 6)%nat.
Proof. intros; by apply recommendations_lines_facts. Qed.

(** X7. In the result of [analyze_permissions] the warning of public write
    access is recommended exactly when the raw permissions hold 'write',
    'put' or 'delete'; so it comes with every "critical" risk level, and
    also with the risk level "low" of a bucket that is writable but not
    public. A bucket said to be properly secured has the risk level
    "low", and every risk level above "low" comes with the note on public
    access. *)
Theorem analyze_permissions_recommendations_and_risk
    (name prov : string) (raw : list string) (public : bool)
    (files_found : option (list string)) :
  let r := analyze_permissions name prov raw public files_found in
  let recs := analyze_permissions_recommendations name prov raw public files_found in
  (critical_line ∈ recs <-> "write" ∈ raw \/ "put" ∈ raw \/ "delete" ∈ raw)
  /\ (risk_level r = "critical" -> critical_line ∈ recs)
  /\ (public = false -> is_writable r = true ->
      risk_level r = "low" /\ critical_line ∈ recs)
  /\ (secured_line ∈ recs -> risk_level r = "low")
  /\ (risk_level r <> "low" -> public_line ∈ recs).
Proof.
  cbv zeta. unfold analyze_permissions_recommendations.
  set (r := analyze_permissions name prov raw public files_found).
  assert (is_writable r = true <-> "write" ∈ raw \/ "put" ∈ raw \/ "delete" ∈ raw)
    as Hw.
  { unfold r, analyze_permissions; cbn [is_writable].
    rewrite <- !list_in_true.
    destruct (list_in "list" raw), (list_in "read" raw), (list_in "get" raw),
      (list_in "write" raw), (list_in "put" raw), (list_in "delete" raw);
      cbn; intuition discriminate. }
  assert (risk_level r
          = _calculate_risk_level public (is_writable r) (permissions r) files_found)
    as Hrisk by reflexivity.
  rewrite _calculate_risk_level_table in Hrisk.
  destruct (recommendations_lines_facts public (is_writable r) prov files_found)
    as (_ & Hsec & _ & Hcrit & _ & Hpub & _).
  cbv zeta in *. split; [by rewrite Hcrit|]. split; [|split; [|split]].
  - intros Hc. apply Hcrit. rewrite Hc in Hrisk.
    destruct public, (is_writable r); cbn in Hrisk; try done;
      by destruct (existsb _ _).
  - intros -> Hwr. split; [by rewrite Hrisk|by apply Hcrit].
  - intros Hs. apply Hsec in Hs as (-> & _ & _). by rewrite Hrisk.
  - intros Hl. apply Hpub. destruct public; [done|]. by rewrite Hrisk in Hl.
Qed.

End RecommendationProperties.

Section CallerRiskProperties.
Import PyStr Py BaseScanner WorkerService.
#[local] Arguments contains_any : simpl never.
#[local] Arguments lower : simpl never.

Lemma truthy_default_len {A} (l : option (list A)) :
  PermissionChecker.truthy l = true ->
  (1 <= ContentAnalyzer.len (default [] l))%Z.
Proof.
  destruct l as [[|a l]|]; try discriminate. intros _.
  change (default [] (Some (a :: l))) with (a :: l).
  unfold ContentAnalyzer.len. cbn [length]. lia.
Qed.

(** X8. The rating a consumer stores with a scan result is "low" with score 0
    exactly when the bucket is not accessible, "high" exactly when it is
    accessible with at least one sensitive file, then with the score
    [min(30 + 10 * n, 100)] for [n] sensitive files, and "medium" with
    score 30 otherwise. It is never "critical", whatever the access
    level, and the score lies between 0 and 100. *)
Theorem result_risk_levels (r : BucketScanResult) :
  let level := fst (result_risk r) in
  let score := snd (result_risk r) in
  level ∈ ["low"; "medium"; "high"]
  /\ (level = "low" <-> is_accessible r = false)
  /\ (level = "high"
      <-> is_accessible r = true
          /\ PermissionChecker.truthy (sensitive_files r) = true)
  /\ (level = "low" -> score = 0%Z)
  /\ (level = "medium" -> score = 30%Z)
  /\ (level = "high" ->
      score = Z.min (30 + 10 * ContentAnalyzer.len (default [] (sensitive_files r))) 100
      /\ (40 <= score)%Z)
  /\ (0 <= score <= 100)%Z.
Proof.
  cbv zeta. unfold result_risk.
  pose proof (truthy_default_len (sensitive_files r)) as Hlen.
  destruct (is_accessible r), (PermissionChecker.truthy (sensitive_files r));
    cbn [fst snd]; try specialize (Hlen eq_refl);
    (split; [apply (bool_decide_unpack _); by vm_compute|]);
    repeat split; try discriminate; try done; try lia;
    try (intros [? ?]; discriminate).
Qed.

Lemma base_detect_elem_of files file :
  file ∈ BaseScanner._detect_sensitive_files files
  <-> file ∈ files
      /\ contains_any BaseScanner.sensitive_patterns (lower file) = true.
Proof.
  rewrite base_detect_filter. induction files as [|f files IH]; cbn [List.filter].
  - rewrite !elem_of_nil. tauto.
  - destruct (contains_any BaseScanner.sensitive_patterns (lower f)) eqn:Hf;
      rewrite ?elem_of_cons, IH, ?elem_of_cons.
    + split; [intros [->|[? ?]]; auto|]. intros [[->|?] ?]; auto.
    + split; [intros [? ?]; auto|]. intros [[->|?] ?]; [congruence|auto].
Qed.

Lemma filter_app_list {A} (p : A -> bool) (l1 l2 : list A) :
  List.filter p (l1 ++ l2) = List.filter p l1 ++ List.filter p l2.
Proof.
  induction l1 as [|x l1 IH]; cbn [app List.filter]; [done|].
  destruct (p x); cbn [app]; by rewrite IH.
Qed.

Lemma filter_filter_list {A} (p : A -> bool) (l : list A) :
  List.filter p (List.filter p l) = List.filter p l.
Proof.
  induction l as [|x l IH]; cbn [List.filter]; [done|].
  destruct (p x) eqn:Hx; cbn [List.filter]; rewrite ?Hx, IH; done.
Qed.

(** X9. The scanner's [_detect_sensitive_files] keeps exactly the files whose
    lower-cased name contains one of its substrings, each as often as it
    is listed and in order; so it works file by file (the result for a
    concatenation is the concatenation of the results) and returns its own
    output unchanged. *)
Theorem base_detect_is_filter (files1 files2 : list string) :
  (forall file,
     file ∈ BaseScanner._detect_sensitive_files files1
     <-> file ∈ files1
         /\ contains_any BaseScanner.sensitive_patterns (lower file) = true)
  /\ BaseScanner._detect_sensitive_files (files1 ++ files2)
     = BaseScanner._detect_sensitive_files files1
       ++ BaseScanner._detect_sensitive_files files2
  /\ BaseScanner._detect_sensitive_files (BaseScanner._detect_sensitive_files files1)
     = BaseScanner._detect_sensitive_files files1
  /\ (length (BaseScanner._detect_sensitive_files files1) <= length files1)%nat.
Proof.
  split; [intros file; apply base_detect_elem_of|].
  rewrite !base_detect_filter. split; [apply filter_app_list|].
  split; [apply filter_filter_list|apply filter_length_le].
Qed.

Lemma contains_any_incl (ps qs : list string) (s : string) :
  (forall p, p ∈ ps -> p ∈ qs) ->
  contains_any ps s = true -> contains_any qs s = true.
Proof.
  unfold contains_any. rewrite !existsb_exists. intros Hincl (p & Hp & Hc).
  exists p. split; [|done]. apply list_elem_of_In, Hincl, list_elem_of_In, Hp.
Qed.

Lemma permission_patterns_incl p :
  p ∈ PermissionChecker.sensitive_patterns -> p ∈ BaseScanner.sensitive_patterns.
Proof.
  intros H. apply (bool_decide_unpack _).
  unfold PermissionChecker.sensitive_patterns in H.
  repeat (apply elem_of_cons in H as [->|H]; [by vm_compute|]).
  by apply elem_of_nil in H.
Qed.

Lemma high_risk_patterns_incl p :
  p ∈ ContentAnalyzer.high_risk_patterns -> p ∈ BaseScanner.sensitive_patterns.
Proof.
  intros H. apply (bool_decide_unpack _).
  unfold ContentAnalyzer.high_risk_patterns in H.
  repeat (apply elem_of_cons in H as [->|H]; [by vm_compute|]).
  by apply elem_of_nil in H.
Qed.

(** X10. The substrings by which the permission checker and the risk score
    single out a file are all among the scanner's: a bucket that
    [analyze_permissions] rates "high" for its files has at least one file
    that the scanner's detection lists, and every sensitive file that
    adds five points to the content risk score is listed by the scanner's
    detection too. *)
Theorem scanner_detects_what_raises_risk :
  (forall name prov raw public files,
     PermissionChecker.risk_level
       (PermissionChecker.analyze_permissions name prov raw public (Some files))
     = "high" ->
     BaseScanner._detect_sensitive_files files <> [])
  /\ (forall files file,
        file ∈ files -> is_high_risk file = true ->
        file ∈ BaseScanner._detect_sensitive_files files).
Proof.
  split.
  - intros name prov raw public files Hhigh.
    unfold PermissionChecker.analyze_permissions in Hhigh.
    cbn [PermissionChecker.risk_level] in Hhigh.
    rewrite _calculate_risk_level_table in Hhigh.
    destruct (negb public); [discriminate|].
    destruct (existsb _ [PermissionChecker.WRITE; _; _]); [discriminate|].
    change (default [] (Some files)) with files in Hhigh.
    destruct (existsb _ files) eqn:Hex; [|discriminate].
    apply existsb_exists in Hex as (f & Hin & Hf).
    apply list_elem_of_In in Hin.
    assert (f ∈ BaseScanner._detect_sensitive_files files) as Hd.
    { apply base_detect_elem_of. split; [done|].
      by apply (contains_any_incl _ _ _ permission_patterns_incl). }
    intros Hnil. rewrite Hnil in Hd. by apply elem_of_nil in Hd.
  - intros files file Hin Hh. apply base_detect_elem_of. split; [done|].
    by apply (contains_any_incl _ _ _ high_risk_patterns_incl).
Qed.

Lemma scanner_detects_what_raises_risk_witness :
  BaseScanner._detect_sensitive_files ["notes.txt"; "prod.env"] <> [].
Proof.
  apply (proj1 scanner_detects_what_raises_risk
           "assets" "aws_s3" ["list"] true ["notes.txt"; "prod.env"]).
  by vm_compute.
Defined.

(** Shared by the theorem that follows and by later proofs. *)
Lemma scan_bucket_result_invariants_facts (self : Scanner) (name : string) :
  exists r,
    BaseScanner.scan_bucket self name = Returned r
    /\ provider r = sc_provider self
    /\ bucket_name r = name
    /\ url r = _get_bucket_url self name
    /\ metadata r = None
    /\ (is_accessible r = true <-> access_level r ∉ [PRIVATE; UNKNOWN])
    /\ (is_accessible r = true -> exists_ r = true)
    /\ (is_accessible r = true <-> is_Some (files_found r))
    /\ sensitive_files r = BaseScanner._detect_sensitive_files <$> files_found r
    /\ (exists_ r = false <-> is_Some (error r)).
Proof.
  assert (forall msg,
            let r := not_found_result self name msg in
            provider r = sc_provider self /\ bucket_name r = name
            /\ url r = _get_bucket_url self name /\ metadata r = None
            /\ (is_accessible r = true <-> access_level r ∉ [PRIVATE; UNKNOWN])
            /\ (is_accessible r = true -> exists_ r = true)
            /\ (is_accessible r = true <-> is_Some (files_found r))
            /\ sensitive_files r
               = BaseScanner._detect_sensitive_files <$> files_found r
            /\ (exists_ r = false <-> is_Some (error r))) as Hnf.
  { intros msg. cbn. repeat split; try done.
    intros Hn. exfalso. apply Hn. apply (bool_decide_unpack _). by vm_compute. }
  unfold BaseScanner.scan_bucket, scan_steps.
  destruct (check_bucket_exists self name) as [[|]|e]; cbn [mbind outcome_bind bind try_except negb];
    [|eexists; split; [reflexivity|apply Hnf]..].
  destruct (check_public_access self name) as [level|e]; cbn [mbind outcome_bind bind try_except];
    [|eexists; split; [reflexivity|apply Hnf]].
  destruct (get_bucket_permissions self name) as [perms|e]; cbn [mbind outcome_bind bind try_except];
    [|eexists; split; [reflexivity|apply Hnf]].
  destruct (bool_decide (level ∈ [PRIVATE; UNKNOWN])) eqn:Hlevel; cbn [negb].
  - eexists. split; [reflexivity|]. cbn. apply bool_decide_eq_true in Hlevel.
    repeat split; done.
  - apply bool_decide_eq_false in Hlevel.
    destruct (list_files self name) as [files|e]; cbn [mbind outcome_bind bind try_except];
      [|eexists; split; [reflexivity|apply Hnf]].
    eexists. split; [reflexivity|]. cbn.
    repeat split; done.
Qed.

(** X11. Every result of a scanner's [scan_bucket] names the scanner's provider,
    the bucket and its URL and carries no metadata. It says accessible
    exactly when the access level is neither private nor unknown, and
    only for a bucket it says exists; it carries [files_found] exactly
    when it says accessible, [sensitive_files] is then the detection run
    on [files_found], and it carries an error exactly when it says the
    bucket does not exist. *)
Theorem scan_bucket_result_invariants (self : Scanner) (name : string) :
  exists r,
    BaseScanner.scan_bucket self name = Returned r
    /\ provider r = sc_provider self
    /\ bucket_name r = name
    /\ url r = _get_bucket_url self name
    /\ metadata r = None
    /\ (is_accessible r = true <-> access_level r ∉ [PRIVATE; UNKNOWN])
    /\ (is_accessible r = true -> exists_ r = true)
    /\ (is_accessible r = true <-> is_Some (files_found r))
    /\ sensitive_files r = BaseScanner._detect_sensitive_files <$> files_found r
    /\ (exists_ r = false <-> is_Some (error r)).
Proof. intros; by apply scan_bucket_result_invariants_facts. Qed.

(** X12. For the results of [scan_bucket] the consumers' rating depends on the
    lists alone: "high" exactly when [sensitive_files] holds a file,
    "medium" when files were listed and none is sensitive, "low" with
    score 0 when no listing was made; a bucket reported as not existing
    is always rated "low" with score 0. *)
Theorem scan_bucket_rating (self : Scanner) (name : string) :
  exists r,
    BaseScanner.scan_bucket self name = Returned r
    /\ result_risk r
       = match files_found r, sensitive_files r with
         | Some _, Some (file :: files) =>
             ("high", Z.min (30 + ContentAnalyzer.len (file :: files) * 10) 100)
         | Some _, _ => ("medium", 30%Z)
         | None, _ => ("low", 0%Z)
         end
    /\ (exists_ r = false -> result_risk r = ("low", 0%Z)).
Proof.
  destruct (scan_bucket_result_invariants_facts self name)
    as (r & Hr & _ & _ & _ & _ & _ & Hex & Hff & Hsens & _).
  exists r. split; [done|]. unfold result_risk. rewrite Hsens.
  destruct (is_accessible r) eqn:Hacc.
  - destruct (proj1 Hff eq_refl) as [files ->]. cbn [fmap option_fmap option_map].
    split; [|intros Hne; rewrite (Hex eq_refl) in Hne; discriminate].
    destruct (BaseScanner._detect_sensitive_files files); reflexivity.
  - destruct (files_found r) as [files|] eqn:Hfiles.
    + assert (false = true) by (apply Hff; by eexists). discriminate.
    + done.
Qed.

End CallerRiskProperties.

(** * Further code: scanning several buckets *)

Module ScanMany.
Import Py BaseScanner ScanOrchestrator.

(** [d[k] = v] on a dict with string keys, kept in insertion order: a key
    that is present keeps its place. *)
Fixpoint dict_set {V} (k : string) (v : V) (d : list (string * V))
  : list (string * V) :=
  match d with
  | [] => [(k, v)]
  | (k', v') :: d' =>
      if String.eqb k k' then (k', v) :: d' else (k', v') :: dict_set k v d'
  end.

(** [ScanOrchestrator.scan_multiple_buckets]: the dict of the tasks by
    bucket name, [gather] over its values, and the dict of the results
    built from the keys zipped with what was gathered. *)
Definition scan_multiple_buckets (self : t) (bucket_names : list string)
    (provider : option CloudProvider)
  : outcome (list (string * list BucketScanResult)) :=
  let tasks :=
    fold_left
      (fun tasks bucket_name =>
         dict_set bucket_name
           (ScanOrchestrator.scan_bucket self bucket_name provider) tasks)
      bucket_names [] in
  let results := gather (map snd tasks) in
  let scan_results :=
    fold_left
      (fun scan_results '(bucket_name, result) =>
         match result with
         | inl result => dict_set bucket_name result scan_results
         | inr _ => dict_set bucket_name [] scan_results
         end)
      (zip (map fst tasks) results) [] in
  Returned scan_results.

(** [ScanOrchestrator.get_scanner] *)
Definition get_scanner (self : t) (provider : CloudProvider) : option Scanner :=
  dict_get provider (scanners self).

End ScanMany.

(** * Properties of scanning several buckets *)

Section ScanManyProperties.
Import Py BaseScanner ScanOrchestrator ScanMany.

Lemma dict_set_fresh {V} k (v : V) d :
  k ∉ map fst d -> dict_set k v d = d ++ [(k, v)].
Proof.
  induction d as [|[k' v'] d IH]; cbn [dict_set map fst app]; [done|].
  rewrite not_elem_of_cons. intros [Hk Hd].
  destruct (String.eqb_spec k k'); [done|]. by rewrite IH.
Qed.

Lemma dict_set_keys {V} k (v : V) d :
  map fst (dict_set k v d)
  = if bool_decide (k ∈ map fst d) then map fst d else map fst d ++ [k].
Proof.
  induction d as [|[k' v'] d IH]; cbn [dict_set map fst]; [done|].
  destruct (String.eqb_spec k k') as [->|Hk]; cbn [map fst].
  - rewrite bool_decide_eq_true_2; [done|by left].
  - rewrite IH. destruct (decide (k ∈ map fst d)) as [Hin|Hin].
    + rewrite !bool_decide_eq_true_2; [done|by right|done].
    + rewrite !bool_decide_eq_false_2; [done| |done].
      rewrite not_elem_of_cons. done.
Qed.

Lemma dict_set_graph {V} (f : string -> V) k d :
  (forall k' v', (k', v') ∈ d -> v' = f k') ->
  forall k' v', (k', v') ∈ dict_set k (f k) d -> v' = f k'.
Proof.
  induction d as [|[k0 v0] d IH]; intros Hd k' v'; cbn [dict_set].
  - rewrite list_elem_of_singleton. by intros [= -> ->].
  - assert (forall k' v', (k', v') ∈ d -> v' = f k') as Hd'
      by (intros ? ? ?; apply Hd; by right).
    destruct (String.eqb_spec k k0) as [->|Hk]; rewrite elem_of_cons.
    + intros [[= -> ->]|Hin]; [done|by apply Hd'].
    + intros [[= -> ->]|Hin]; [apply Hd; by left|by apply IH].
Qed.

(** The dict of the tasks: one entry per distinct name, holding the call
    for that name. *)
Lemma tasks_dict {V} (f : string -> V) names d :
  NoDup (map fst d) ->
  (forall k v, (k, v) ∈ d -> v = f k) ->
  let tasks := fold_left (fun tasks name => dict_set name (f name) tasks) names d in
  NoDup (map fst tasks)
  /\ (forall k v, (k, v) ∈ tasks -> v = f k)
  /\ (forall k, k ∈ map fst tasks <-> k ∈ map fst d \/ k ∈ names)
  /\ (NoDup names -> (forall k, k ∈ names -> k ∉ map fst d) ->
      tasks = d ++ map (fun name => (name, f name)) names).
Proof.
  revert d. induction names as [|name names IH]; intros d Hnd Hgr; cbn [fold_left].
  - cbn zeta. split; [done|]. split; [done|]. split.
    + intros k. rewrite elem_of_nil. tauto.
    + intros _ _. by rewrite app_nil_r.
  - assert (NoDup (map fst (dict_set name (f name) d))) as Hnd'.
    { rewrite dict_set_keys. destruct (decide (name ∈ map fst d)) as [Hin|Hin].
      - by rewrite bool_decide_eq_true_2.
      - rewrite bool_decide_eq_false_2 by done.
        apply NoDup_app. split; [done|]. split; [|apply NoDup_singleton].
        intros x Hx Hx'. apply list_elem_of_singleton in Hx'. by subst. }
    destruct (IH _ Hnd' (dict_set_graph f name d Hgr)) as (H1 & H2 & H3 & H4).
    cbn zeta in *. split; [done|]. split; [done|]. split.
    + intros k. rewrite H3, dict_set_keys, elem_of_cons.
      destruct (decide (name ∈ map fst d)) as [Hin|Hin].
      * rewrite bool_decide_eq_true_2 by done. split; [tauto|].
        intros [?|[->|?]]; tauto.
      * rewrite bool_decide_eq_false_2 by done.
        rewrite elem_of_app, list_elem_of_singleton. tauto.
    + intros Hnames Hfresh. apply NoDup_cons in Hnames as [Hname Hnames].
      rewrite H4.
      * rewrite dict_set_fresh by (apply Hfresh; by left).
        by rewrite <- app_assoc.
      * done.
      * intros k Hk. rewrite dict_set_keys.
        rewrite bool_decide_eq_false_2 by (apply Hfresh; by left).
        rewrite elem_of_app, list_elem_of_singleton.
        intros [Hin| ->]; [|done]. apply (Hfresh k); [by right|done].
Qed.

(** Building a dict from entries with distinct keys gives the entries. *)
Lemma results_dict {V W} (g : V -> W) (l : list (string * V)) acc :
  NoDup (map fst l) ->
  (forall k, k ∈ map fst l -> k ∉ map fst acc) ->
  fold_left (fun d '(k, v) => dict_set k (g v) d) l acc
  = acc ++ map (fun '(k, v) => (k, g v)) l.
Proof.
  revert acc. induction l as [|[k v] l IH]; intros acc Hnd Hfresh;
    cbn [fold_left map]; [by rewrite app_nil_r|].
  cbn [map fst] in Hnd. apply NoDup_cons in Hnd as [Hk Hnd].
  rewrite dict_set_fresh by (apply Hfresh; by left).
  rewrite IH; [by rewrite <- app_assoc|done|].
  intros k' Hk'. rewrite map_app, elem_of_app. cbn [map fst].
  rewrite list_elem_of_singleton. intros [Hin| ->]; [|done].
  apply (Hfresh k'); [by right|done].
Qed.

Lemma orchestrator_scan_bucket_returns (self : t) name provider :
  exists results, ScanOrchestrator.scan_bucket self name provider = Returned results.
Proof.
  unfold ScanOrchestrator.scan_bucket. destruct provider as [p|]; [|by eexists].
  destruct (dict_get p (scanners self)) as [scanner|]; [|by eexists].
  destruct (scan_bucket_returns scanner name) as [r ->]. by eexists.
Qed.

Lemma zip_keys_values {V W} (h : V -> W) (l : list (string * V)) :
  zip (map fst l) (map h (map snd l)) = map (fun '(k, v) => (k, h v)) l.
Proof. induction l as [|[k v] l IH]; cbn; [done|]. by rewrite IH. Qed.

(** X13. [scan_multiple_buckets] never raises. Its dict has one entry per
    distinct bucket name, every name of the input is a key and no other,
    each key holds exactly what [scan_bucket] returns for that name (the
    empty list that stands for a failed scan is never needed), and when
    the names are distinct the entries come in the order of the names. *)
Theorem scan_multiple_buckets_results (self : t) (bucket_names : list string)
    (provider : option CloudProvider) :
  exists scan_results,
    scan_multiple_buckets self bucket_names provider = Returned scan_results
    /\ NoDup (map fst scan_results)
    /\ (forall name, name ∈ map fst scan_results <-> name ∈ bucket_names)
    /\ (forall name results,
          (name, results) ∈ scan_results ->
          ScanOrchestrator.scan_bucket self name provider = Returned results)
    /\ (length scan_results <= length bucket_names)%nat
    /\ (NoDup bucket_names -> map fst scan_results = bucket_names).
Proof.
  unfold scan_multiple_buckets.
  set (f := fun name => ScanOrchestrator.scan_bucket self name provider).
  destruct (tasks_dict f bucket_names [] (NoDup_nil_2 (A := string)))
    as (Hnd & Hgr & Hkeys & Horder).
  { intros k v Hin. by apply elem_of_nil in Hin. }
  cbn zeta in *.
  change (fold_left _ bucket_names [])
    with (fold_left (fun tasks name => dict_set name (f name) tasks) bucket_names []).
  set (tasks := fold_left _ bucket_names []) in *.
  set (sum_of := fun task : outcome (list BucketScanResult) =>
                   match task with Returned a => inl a | Raised e => inr e end).
  set (val := fun r : list BucketScanResult + exn =>
                match r with inl l => l | inr _ => [] end).
  assert (gather (map snd tasks) = map sum_of (map snd tasks)) as -> by reflexivity.
  rewrite (zip_keys_values sum_of tasks).
  assert (forall l acc,
            fold_left
              (fun scan_results '(bucket_name, result) =>
                 match result with
                 | inl result => dict_set bucket_name result scan_results
                 | inr _ => dict_set bucket_name [] scan_results
                 end) l acc
            = fold_left (fun d '(k, v) => dict_set k (val v) d) l acc) as Hfold.
  { induction l as [|[k [v|e]] l IH]; intros acc; cbn [fold_left]; [done|..];
      apply IH. }
  rewrite Hfold. clear Hfold.
  assert (map fst (map (fun '(k, v) => (k, sum_of v)) tasks) = map fst tasks) as Hk1.
  { rewrite map_map. apply map_ext. by intros [k v]. }
  rewrite (results_dict val); [|by rewrite Hk1|intros k _; cbn; apply not_elem_of_nil].
  cbn [app]. rewrite map_map.
  set (entry := fun x : string * outcome (list BucketScanResult) =>
                  let '(k, v) := let '(k, v) := x in (k, sum_of v) in (k, val v)).
  assert (map fst (map entry tasks) = map fst tasks) as Hk2.
  { rewrite map_map. apply map_ext. by intros [k v]. }
  eexists. split; [reflexivity|]. rewrite Hk2. split; [done|]. split.
  { intros name. rewrite Hkeys, elem_of_nil. tauto. }
  split.
  { intros name results Hin. apply list_elem_of_fmap in Hin as ([k v] & Heq & Hin).
    pose proof (Hgr k v Hin) as Hv. unfold f in Hv.
    destruct (orchestrator_scan_bucket_returns self k provider) as [rs Hrs].
    unfold entry in Heq. rewrite Hv, Hrs in Heq. cbn in Heq.
    injection Heq as -> ->. done. }
  split.
  { rewrite length_map. rewrite <- (length_map fst tasks).
    apply submseteq_length, NoDup_submseteq; [done|].
    intros k Hk. apply Hkeys in Hk as [Hk|Hk]; [by apply elem_of_nil in Hk|done]. }
  intros Hnames. rewrite Horder; [|done|intros k _; cbn; apply not_elem_of_nil].
  cbn [app]. rewrite map_map. cbn [fst]. apply map_id.
Qed.

(** After [__init__] every provider has its scanner, and scanning for one
    provider gives exactly one result, which names that provider's
    scanner. *)
Theorem get_scanner_after_init (aws gcp azure : Scanner) (name : string) :
  get_scanner (init aws gcp azure) AWS_S3 = Some aws
  /\ get_scanner (init aws gcp azure) GCP_GCS = Some gcp
  /\ get_scanner (init aws gcp azure) AZURE_BLOB = Some azure
  /\ forall p, exists scanner r,
       get_scanner (init aws gcp azure) p = Some scanner
       /\ BaseScanner.scan_bucket scanner name = Returned r
       /\ ScanOrchestrator.scan_bucket (init aws gcp azure) name (Some p)
          = Returned [r].
Proof.
  split; [done|]. split; [done|]. split; [done|].
  intros p.
  assert (forall scanner,
            get_scanner (init aws gcp azure) p = Some scanner ->
            exists r,
              BaseScanner.scan_bucket scanner name = Returned r
              /\ ScanOrchestrator.scan_bucket (init aws gcp azure) name (Some p)
                 = Returned [r]) as Hone.
  { intros scanner Hget. destruct (scan_bucket_returns scanner name) as [r Hr].
    exists r. split; [done|]. unfold ScanOrchestrator.scan_bucket.
    unfold get_scanner in Hget. rewrite Hget.
    cbn [mbind outcome_bind bind]. by rewrite Hr. }
  destruct p.
  - destruct (Hone aws eq_refl) as (r & ? & ?). by exists aws, r.
  - destruct (Hone gcp eq_refl) as (r & ? & ?). by exists gcp, r.
  - destruct (Hone azure eq_refl) as (r & ? & ?). by exists azure, r.
Qed.

End ScanManyProperties.

(** * Further code: the other methods of the provider scanners

    [check_public_access], [list_files], [get_bucket_permissions] and
    [_get_bucket_url] of [src/scanner/{aws,gcp,azure}_scanner.py], and the
    scanner objects they make up together with [check_bucket_exists]. *)

Module Providers.
Import PyStr Py BaseScanner.

(** *** What the provider SDKs answer *)

(** An iterator over names that may fail after some of them: paged
    listings ([list_blobs]) raise while they are consumed. *)
Record stream : Type := {
  items : list string;
  failure : option exn
}.

(** [list(it)] *)
Definition list_of (it : stream) : outcome (list string) :=
  match failure it with
  | Some e => Raised e
  | None => Returned (items it)
  end.

(** S3: a grant of an ACL, [grant.get('Grantee', {}).get('URI', '')] and
    [grant.get('Permission', '')] read from these. *)
Record Grantee_ : Type := { URI : option string }.
Record Grant : Type := {
  Grantee : option Grantee_;
  Permission : option string
}.
Record Acl : Type := { Grants : option (list Grant) }.
Record PolicyResponse : Type := { Policy : option string }.
Record PublicAccessBlock : Type := {
  PublicAccessBlockConfiguration : option (list (string * bool))
}.
(** An entry of [Contents]; [obj['Key']] raises [KeyError] without a key. *)
Record S3Object : Type := { Key : option string }.
Record ListObjects : Type := { Contents : option (list S3Object) }.

(** GCS: a binding of an IAM policy. *)
Record Binding : Type := {
  members : option (list string);
  role : option string
}.

(** The answers of the network and of the SDK clients. [probes] are the
    calls of [check_bucket_exists]; [http_get url] is the status code of
    [client.get(url, timeout=10.0)]. *)
Record Cloud : Type := {
  probes : Probes.Env;
  http_get : string -> outcome Z;
  (* boto3 *)
  s3_get_bucket_acl : string -> outcome Acl;
  s3_get_bucket_policy : string -> outcome PolicyResponse;
  s3_get_public_access_block : string -> outcome PublicAccessBlock;
  s3_list_objects_v2 : string -> Z -> outcome ListObjects;
  s3_get_bucket_location : string -> outcome unit;
  (* google.cloud.storage *)
  gcs_get_iam_policy : string -> outcome (list Binding);
  gcs_list_blobs : string -> Z -> stream;
  (* azure.storage.blob: [properties.get('public_access')], the listing of
     the service client (with [max_results] or without), the listing of
     an anonymous client for an account, and the access policy *)
  az_public_access : string -> outcome (option string);
  az_list_blobs : string -> option Z -> stream;
  az_anonymous_list_blobs : string -> string -> option Z -> stream;
  az_get_container_access_policy : string -> outcome unit
}.

(** [try: body except ClientError: pass], the body giving the level it
    returns from the function with, if it does. *)
Definition except_ClientError_pass {A} (body : outcome (option A))
  : outcome (option A) :=
  match body with
  | Raised (ClientError _ _) => Returned None
  | other => other
  end.

(** [try: body except Exception: pass] *)
Definition except_Exception_pass {A} (body : outcome (option A))
  : outcome (option A) :=
  match body with
  | Raised _ => Returned None
  | other => other
  end.

(** Whether a call went through: [try: call(); ... except Exception: pass]. *)
Definition succeeds {A} (call : outcome A) : bool :=
  match call with
  | Returned _ => true
  | Raised _ => false
  end.

(** The loop of [list_files] over an iterator: append the name, stop once
    [len(files) >= max_files]. *)
Fixpoint take_names (max_files : Z) (names : list string) (files : list string)
  : list string :=
  match names with
  | [] => files
  | name :: names' =>
      let files := files ++ [name] in
      if (ContentAnalyzer.len files >=? max_files)%Z then files
      else take_names max_files names' files
  end.

(** The double quote, for the patterns looked up in a bucket policy. *)
Definition dq : string := String (ascii_of_N 34) EmptyString.

(** *** [src/scanner/aws_scanner.py] *)

Module AWSS3Scanner.

(** The loop over the grants of the ACL; [None] when it ends without
    returning. *)
Fixpoint grants_level (grants : list Grant) : option BucketAccessLevel :=
  match grants with
  | [] => None
  | grant :: grants' =>
      let uri := default "" (Grantee grant ≫= URI) in
      let permission := default "" (Permission grant) in
      if contains "AllUsers" uri
      then
        if String.eqb permission "FULL_CONTROL" then Some PUBLIC_READ_WRITE
        else if list_in permission ["READ"; "READ_ACP"] then Some PUBLIC_READ
        else if list_in permission ["WRITE"; "WRITE_ACP"] then Some PUBLIC_WRITE
        else grants_level grants'
      else if contains "AuthenticatedUsers" uri then Some AUTHENTICATED_READ
      else grants_level grants'
  end.

Definition policy_level (policy_str : string) : option BucketAccessLevel :=
  if contains (dq +:+ "Principal" +:+ dq +:+ ":" +:+ dq +:+ "*" +:+ dq) policy_str
     || contains (dq +:+ "Principal" +:+ dq +:+ ":{" +:+ dq +:+ "AWS" +:+ dq
                  +:+ ":" +:+ dq +:+ "*" +:+ dq +:+ "}") policy_str
  then
    if contains (dq +:+ "Action" +:+ dq +:+ ":" +:+ dq +:+ "s3:GetObject" +:+ dq)
         policy_str
    then Some PUBLIC_READ
    else None
  else None.

Definition check_public_access (env : Cloud) (bucket_name : string)
  : outcome BucketAccessLevel :=
  try_except
    (let url := "https://" +:+ bucket_name +:+ ".s3.amazonaws.com" in
     status_code ← http_get env url;
     if (status_code =? 200)%Z then Returned PUBLIC_READ
     else
       (* Method 2: the bucket ACL *)
       by_acl ← except_ClientError_pass
                  (acl ← s3_get_bucket_acl env bucket_name;
                   Returned (grants_level (default [] (Grants acl))));
       match by_acl with
       | Some level => Returned level
       | None =>
           (* Method 3: the bucket policy *)
           by_policy ← except_ClientError_pass
                         (policy_response ← s3_get_bucket_policy env bucket_name;
                          Returned (policy_level
                                      (default "" (Policy policy_response))));
           match by_policy with
           | Some level => Returned level
           | None =>
               (* Method 4: the public access block *)
               by_block ← except_ClientError_pass
                            (public_block ← s3_get_public_access_block env bucket_name;
                             let config :=
                               default [] (PublicAccessBlockConfiguration public_block) in
                             Returned (if negb (existsb snd config)
                                       then Some UNKNOWN else None));
               match by_block with
               | Some level => Returned level
               | None => Returned PRIVATE
               end
           end
       end)
    (fun _ => Returned UNKNOWN).

(** The loop over [Contents]: [obj['Key']] on an entry without a key
    raises, which ends [list_files] with the files collected so far. *)
Fixpoint take_keys (max_files : Z) (contents : list S3Object) (files : list string)
  : list string :=
  match contents with
  | [] => files
  | obj :: contents' =>
      match Key obj with
      | None => files
      | Some key =>
          let files := files ++ [key] in
          if (ContentAnalyzer.len files >=? max_files)%Z then files
          else take_keys max_files contents' files
      end
  end.

Definition list_files (env : Cloud) (bucket_name : string) (max_files : Z)
  : outcome (list string) :=
  let files := [] in
  match s3_list_objects_v2 env bucket_name max_files with
  | Returned response =>
      Returned (take_keys max_files (default [] (Contents response)) files)
  | Raised _ => Returned files
  end.

Definition get_bucket_permissions (env : Cloud) (bucket_name : string)
  : outcome (list string) :=
  let tests :=
    [ ("list", succeeds (s3_list_objects_v2 env bucket_name 1));
      ("get_acl", succeeds (s3_get_bucket_acl env bucket_name));
      ("get_policy", succeeds (s3_get_bucket_policy env bucket_name));
      ("get_location", succeeds (s3_get_bucket_location env bucket_name)) ] in
  Returned
    (fold_left
       (fun permissions '(perm_name, passed) =>
          if passed : bool then permissions ++ [perm_name] else permissions)
       tests []).

Definition _get_bucket_url (bucket_name : string) : string :=
  "https://" +:+ bucket_name +:+ ".s3.amazonaws.com".

(** The scanner object: [max_files] keeps its default 100 in [scan_bucket]. *)
Definition scanner (env : Cloud) : Scanner :=
  {| sc_provider := AWS_S3;
     BaseScanner.check_bucket_exists :=
       Probes.AWSS3Scanner.check_bucket_exists (probes env);
     BaseScanner.check_public_access := check_public_access env;
     BaseScanner.list_files := fun bucket_name => list_files env bucket_name 100;
     BaseScanner.get_bucket_permissions := get_bucket_permissions env;
     BaseScanner._get_bucket_url := _get_bucket_url |}.

End AWSS3Scanner.

(** *** [src/scanner/gcp_scanner.py] *)

Module GCPStorageScanner.

Fixpoint bindings_level (bindings : list Binding) : option BucketAccessLevel :=
  match bindings with
  | [] => None
  | binding :: bindings' =>
      let members := default [] (members binding) in
      let role := default "" (role binding) in
      if list_in "allUsers" members
      then
        if contains "storage.objects.list" role
           || contains "roles/storage.objectViewer" role
        then Some PUBLIC_READ
        else if contains "storage.objects.create" role
                || contains "roles/storage.objectCreator" role
        then Some PUBLIC_WRITE
        else if contains "roles/storage.admin" role then Some PUBLIC_READ_WRITE
        else bindings_level bindings'
      else if list_in "allAuthenticatedUsers" members then Some AUTHENTICATED_READ
      else bindings_level bindings'
  end.

Definition check_public_access (env : Cloud) (bucket_name : string)
  : outcome BucketAccessLevel :=
  try_except
    (let url := "https://storage.googleapis.com/" +:+ bucket_name in
     status_code ← http_get env url;
     if (status_code =? 200)%Z then Returned PUBLIC_READ
     else
       (* Method 2: the IAM policy *)
       by_policy ← except_Exception_pass
                     (bindings ← gcs_get_iam_policy env bucket_name;
                      Returned (bindings_level bindings));
       match by_policy with
       | Some level => Returned level
       | None =>
           (* Method 3: a sample listing *)
           by_listing ← except_Exception_pass
                          (blobs ← list_of (gcs_list_blobs env bucket_name 1);
                           Returned (match blobs with
                                     | _ :: _ => Some PUBLIC_READ
                                     | [] => None
                                     end));
           match by_listing with
           | Some level => Returned level
           | None => Returned PRIVATE
           end
       end)
    (fun _ => Returned UNKNOWN).

(** An exception of the listing leaves the loop with the files collected
    so far, which are returned. *)
Definition list_files (env : Cloud) (bucket_name : string) (max_files : Z)
  : outcome (list string) :=
  let files := [] in
  let blobs := gcs_list_blobs env bucket_name max_files in
  Returned (take_names max_files (items blobs) files).

Definition get_bucket_permissions (env : Cloud) (bucket_name : string)
  : outcome (list string) :=
  let permissions := [] in
  let permissions :=
    if succeeds (list_of (gcs_list_blobs env bucket_name 1))
    then permissions ++ ["list"] else permissions in
  let permissions :=
    if succeeds (gcs_get_iam_policy env bucket_name)
    then permissions ++ ["get_iam_policy"] else permissions in
  let permissions :=
    if succeeds (Probes.gcs_bucket_reload (probes env) bucket_name)
    then permissions ++ ["get_metadata"] else permissions in
  Returned permissions.

Definition _get_bucket_url (bucket_name : string) : string :=
  "https://storage.googleapis.com/" +:+ bucket_name.

Definition scanner (env : Cloud) : Scanner :=
  {| sc_provider := GCP_GCS;
     BaseScanner.check_bucket_exists :=
       Probes.GCPStorageScanner.check_bucket_exists (probes env);
     BaseScanner.check_public_access := check_public_access env;
     BaseScanner.list_files := fun bucket_name => list_files env bucket_name 100;
     BaseScanner.get_bucket_permissions := get_bucket_permissions env;
     BaseScanner._get_bucket_url := _get_bucket_url |}.

End GCPStorageScanner.

(** *** [src/scanner/azure_scanner.py] *)

Module AzureBlobScanner.
Import Probes.AzureBlobScanner.

(** [PublicAccess] is an enumeration of strings: [Container] is
    "container", [Blob] is "blob", and they compare equal to these. *)
Definition properties_level (public_access : option string)
  : option BucketAccessLevel :=
  match public_access with
  | None => Some PRIVATE
  | Some value =>
      if String.eqb value "container" then Some PUBLIC_READ
      else if String.eqb value "blob" then Some PUBLIC_READ
      else if String.eqb value "off" then Some PRIVATE
      else None
  end.

Definition check_public_access (env : Cloud) (self : self_) (bucket_name : string)
  : outcome BucketAccessLevel :=
  try_except
    (let url := "https://" +:+ account_name self +:+ ".blob.core.windows.net/"
                +:+ bucket_name +:+ "?restype=container&comp=list" in
     status_code ← http_get env url;
     if (status_code =? 200)%Z then Returned PUBLIC_READ
     else
       (* Method 2: the container properties *)
       by_properties ←
         (if has_blob_service_client self
          then except_Exception_pass
                 (public_access ← az_public_access env bucket_name;
                  Returned (properties_level public_access))
          else Returned None);
       match by_properties with
       | Some level => Returned level
       | None =>
           (* Method 3: a sample listing with an anonymous client *)
           by_listing ←
             except_Exception_pass
               (blobs ← list_of (az_anonymous_list_blobs env (account_name self)
                                   bucket_name (Some 1%Z));
                Returned (match blobs with
                          | _ :: _ => Some PUBLIC_READ
                          | [] => None
                          end));
           match by_listing with
           | Some level => Returned level
           | None => Returned PRIVATE
           end
       end)
    (fun _ => Returned UNKNOWN).

Definition list_files (env : Cloud) (self : self_) (bucket_name : string)
    (max_files : Z) : outcome (list string) :=
  let files := [] in
  let blobs :=
    if has_blob_service_client self
    then az_list_blobs env bucket_name None
    else az_anonymous_list_blobs env (account_name self) bucket_name None in
  Returned (take_names max_files (items blobs) files).

Definition get_bucket_permissions (env : Cloud) (self : self_)
    (bucket_name : string) : outcome (list string) :=
  let permissions := [] in
  if negb (has_blob_service_client self) then Returned permissions
  else
    let permissions :=
      if succeeds (list_of (az_list_blobs env bucket_name (Some 1%Z)))
      then permissions ++ ["list"] else permissions in
    let permissions :=
      if succeeds (Probes.azure_get_container_properties (probes env) bucket_name)
      then permissions ++ ["get_properties"] else permissions in
    let permissions :=
      if succeeds (az_get_container_access_policy env bucket_name)
      then permissions ++ ["get_acl"] else permissions in
    Returned permissions.

Definition _get_bucket_url (self : self_) (bucket_name : string) : string :=
  "https://" +:+ account_name self +:+ ".blob.core.windows.net/" +:+ bucket_name.

Definition scanner (env : Cloud) (self : self_) : Scanner :=
  {| sc_provider := AZURE_BLOB;
     BaseScanner.check_bucket_exists :=
       Probes.AzureBlobScanner.check_bucket_exists (probes env) self;
     BaseScanner.check_public_access := check_public_access env self;
     BaseScanner.list_files := fun bucket_name => list_files env self bucket_name 100;
     BaseScanner.get_bucket_permissions := get_bucket_permissions env self;
     BaseScanner._get_bucket_url := _get_bucket_url self |}.

End AzureBlobScanner.

(** The orchestrator as [__init__] builds it. *)
Definition orchestrator (env : Cloud) (azure : Probes.AzureBlobScanner.self_)
  : ScanOrchestrator.t :=
  ScanOrchestrator.init (AWSS3Scanner.scanner env) (GCPStorageScanner.scanner env)
    (AzureBlobScanner.scanner env azure).

End Providers.

(** * Properties of the provider scanners *)

(** ** Listings *)

Section ListFilesProperties.
Import PyStr Py BaseScanner Providers.

(** The entries of [Contents] up to the first one without a key. *)
Fixpoint keys_until_missing (contents : list S3Object) : list string :=
  match contents with
  | [] => []
  | obj :: contents' =>
      match Key obj with
      | Some key => key :: keys_until_missing contents'
      | None => []
      end
  end.

(** How many names a listing loop takes: [max_files], and one when
    [max_files] is below one, the test coming after the append. *)
Definition taken (max_files : Z) : nat := Z.to_nat (Z.max max_files 1).

Lemma take_names_from max_files names files :
  take_names max_files names files
  = files ++ take (taken (max_files - ContentAnalyzer.len files)) names.
Proof.
  revert files. unfold taken, ContentAnalyzer.len.
  induction names as [|name names IH]; intros files; cbn [take_names].
  - by rewrite take_nil, app_nil_r.
  - unfold ContentAnalyzer.len. rewrite length_app. cbn [length].
    destruct (Z.geb_spec (Z.of_nat (length files + 1)) max_files) as [Hge|Hlt].
    + replace (Z.to_nat (Z.max (max_files - Z.of_nat (length files)) 1))
        with 1%nat by lia. reflexivity.
    + rewrite IH, length_app. cbn [length]. rewrite <- app_assoc. cbn [app].
      replace (Z.to_nat (Z.max (max_files - Z.of_nat (length files)) 1))
        with (S (Z.to_nat (Z.max (max_files - Z.of_nat (length files + 1)) 1)))
        by lia.
      reflexivity.
Qed.

Lemma take_names_take max_files names :
  take_names max_files names [] = take (taken max_files) names.
Proof.
  rewrite take_names_from. unfold ContentAnalyzer.len. cbn [length app].
  by rewrite Z.sub_0_r.
Qed.

Lemma take_keys_from max_files contents files :
  AWSS3Scanner.take_keys max_files contents files
  = take_names max_files (keys_until_missing contents) files.
Proof.
  revert files. induction contents as [|obj contents IH]; intros files;
    cbn [AWSS3Scanner.take_keys keys_until_missing take_names]; [done|].
  destruct (Key obj) as [key|]; cbn [take_names]; [|done].
  destruct (_ >=? _)%Z; [done|apply IH].
Qed.

Lemma take_length_le {A} n (l : list A) : (length (take n l) <= n)%nat.
Proof. rewrite length_take. lia. Qed.

(** Shared by the theorem that follows and by later proofs. *)
Lemma list_files_first_names_facts (env : Cloud)
    (self : Probes.AzureBlobScanner.self_) (bucket_name : string) (max_files : Z) :
  AWSS3Scanner.list_files env bucket_name max_files
  = Returned
      (match s3_list_objects_v2 env bucket_name max_files with
       | Returned response =>
           take (taken max_files)
             (keys_until_missing (default [] (Contents response)))
       | Raised _ => []
       end)
  /\ GCPStorageScanner.list_files env bucket_name max_files
     = Returned (take (taken max_files)
                   (items (gcs_list_blobs env bucket_name max_files)))
  /\ AzureBlobScanner.list_files env self bucket_name max_files
     = Returned
         (take (taken max_files)
            (items (if Probes.AzureBlobScanner.has_blob_service_client self
                    then az_list_blobs env bucket_name None
                    else az_anonymous_list_blobs env
                           (Probes.AzureBlobScanner.account_name self)
                           bucket_name None)))
  /\ forall files,
       AWSS3Scanner.list_files env bucket_name max_files = Returned files
       \/ GCPStorageScanner.list_files env bucket_name max_files = Returned files
       \/ AzureBlobScanner.list_files env self bucket_name max_files = Returned files ->
       (length files <= taken max_files)%nat
       /\ ((1 <= max_files)%Z -> (ContentAnalyzer.len files <= max_files)%Z).
Proof.
  assert (AWSS3Scanner.list_files env bucket_name max_files
          = Returned
              (match s3_list_objects_v2 env bucket_name max_files with
               | Returned response =>
                   take (taken max_files)
                     (keys_until_missing (default [] (Contents response)))
               | Raised _ => []
               end)) as Haws.
  { unfold AWSS3Scanner.list_files.
    destruct (s3_list_objects_v2 env bucket_name max_files); [|done].
    by rewrite take_keys_from, take_names_take. }
  assert (GCPStorageScanner.list_files env bucket_name max_files
          = Returned (take (taken max_files)
                        (items (gcs_list_blobs env bucket_name max_files)))) as Hgcp.
  { unfold GCPStorageScanner.list_files. by rewrite take_names_take. }
  assert (AzureBlobScanner.list_files env self bucket_name max_files
          = Returned
              (take (taken max_files)
                 (items (if Probes.AzureBlobScanner.has_blob_service_client self
                         then az_list_blobs env bucket_name None
                         else az_anonymous_list_blobs env
                                (Probes.AzureBlobScanner.account_name self)
                                bucket_name None)))) as Haz.
  { unfold AzureBlobScanner.list_files. by rewrite take_names_take. }
  split; [done|]. split; [done|]. split; [done|].
  assert (forall files names : list string,
            files = take (taken max_files) names \/ files = [] ->
            (length files <= taken max_files)%nat
            /\ ((1 <= max_files)%Z -> (ContentAnalyzer.len files <= max_files)%Z))
    as Hbound.
  { intros files names Hfiles.
    assert (length files <= taken max_files)%nat as Hle.
    { destruct Hfiles as [->| ->]; [apply take_length_le|cbn; lia]. }
    split; [done|]. intros Hmax. unfold ContentAnalyzer.len, taken in *. lia. }
  intros files [H|[H|H]].
  - rewrite Haws in H. injection H as <-.
    destruct (s3_list_objects_v2 env bucket_name max_files) as [response|e].
    + apply (Hbound _ (keys_until_missing (default [] (Contents response)))).
      by left.
    + apply (Hbound _ []). by right.
  - rewrite Hgcp in H. injection H as <-. eapply Hbound. by left.
  - rewrite Haz in H. injection H as <-. eapply Hbound. by left.
Qed.

(** X14. [list_files] of the three scanners never raises. It returns the first
    names of the listing, in order: at most [max_files] of them, and one
    when [max_files] is below one. For S3 these are the keys of [Contents]
    up to the first entry without a key, and nothing when the call
    raises; for GCS and Azure what the iterator yields before it fails. *)
Theorem list_files_first_names (env : Cloud)
    (self : Probes.AzureBlobScanner.self_) (bucket_name : string) (max_files : Z) :
  AWSS3Scanner.list_files env bucket_name max_files
  = Returned
      (match s3_list_objects_v2 env bucket_name max_files with
       | Returned response =>
           take (taken max_files)
             (keys_until_missing (default [] (Contents response)))
       | Raised _ => []
       end)
  /\ GCPStorageScanner.list_files env bucket_name max_files
     = Returned (take (taken max_files)
                   (items (gcs_list_blobs env bucket_name max_files)))
  /\ AzureBlobScanner.list_files env self bucket_name max_files
     = Returned
         (take (taken max_files)
            (items (if Probes.AzureBlobScanner.has_blob_service_client self
                    then az_list_blobs env bucket_name None
                    else az_anonymous_list_blobs env
                           (Probes.AzureBlobScanner.account_name self)
                           bucket_name None)))
  /\ forall files,
       AWSS3Scanner.list_files env bucket_name max_files = Returned files
       \/ GCPStorageScanner.list_files env bucket_name max_files = Returned files
       \/ AzureBlobScanner.list_files env self bucket_name max_files = Returned files ->
       (length files <= taken max_files)%nat
       /\ ((1 <= max_files)%Z -> (ContentAnalyzer.len files <= max_files)%Z).
Proof. intros; by apply list_files_first_names_facts. Qed.

End ListFilesProperties.

(** ** Permission probes *)

Section PermissionProbeProperties.
Import PyStr Py BaseScanner Providers PermissionChecker.

Definition aws_permission_names : list string :=
  ["list"; "get_acl"; "get_policy"; "get_location"].
Definition gcp_permission_names : list string :=
  ["list"; "get_iam_policy"; "get_metadata"].
Definition azure_permission_names : list string :=
  ["list"; "get_properties"; "get_acl"].

Ltac solve_sublist :=
  unfold aws_permission_names, gcp_permission_names, azure_permission_names;
  repeat first [apply sublist_nil_l | apply sublist_skip | apply sublist_cons].

Lemma aws_permissions_sublist env name :
  exists perms,
    AWSS3Scanner.get_bucket_permissions env name = Returned perms
    /\ perms `sublist_of` aws_permission_names
    /\ ("list" ∈ perms <-> succeeds (s3_list_objects_v2 env name 1) = true).
Proof.
  unfold AWSS3Scanner.get_bucket_permissions. eexists. split; [reflexivity|].
  cbn [fold_left].
  destruct (succeeds (s3_list_objects_v2 env name 1)),
    (succeeds (s3_get_bucket_acl env name)),
    (succeeds (s3_get_bucket_policy env name)),
    (succeeds (s3_get_bucket_location env name)); cbn [app];
    (split; [solve_sublist|]);
    (split; [intros H; first [reflexivity | exfalso; revert H;
                               apply (bool_decide_unpack _); by vm_compute]
            |intros H; first [discriminate H
                             | apply (bool_decide_unpack _); by vm_compute]]).
Qed.

Lemma gcp_permissions_sublist env name :
  exists perms,
    GCPStorageScanner.get_bucket_permissions env name = Returned perms
    /\ perms `sublist_of` gcp_permission_names
    /\ ("list" ∈ perms
        <-> succeeds (list_of (gcs_list_blobs env name 1)) = true).
Proof.
  unfold GCPStorageScanner.get_bucket_permissions. eexists. split; [reflexivity|].
  destruct (succeeds (list_of (gcs_list_blobs env name 1))),
    (succeeds (gcs_get_iam_policy env name)),
    (succeeds (Probes.gcs_bucket_reload (probes env) name)); cbn [app];
    (split; [solve_sublist|]);
    (split; [intros H; first [reflexivity | exfalso; revert H;
                               apply (bool_decide_unpack _); by vm_compute]
            |intros H; first [discriminate H
                             | apply (bool_decide_unpack _); by vm_compute]]).
Qed.

Lemma azure_permissions_sublist env self name :
  exists perms,
    AzureBlobScanner.get_bucket_permissions env self name = Returned perms
    /\ perms `sublist_of` azure_permission_names
    /\ (Probes.AzureBlobScanner.has_blob_service_client self = false -> perms = [])
    /\ ("list" ∈ perms
        <-> Probes.AzureBlobScanner.has_blob_service_client self = true
            /\ succeeds (list_of (az_list_blobs env name (Some 1%Z))) = true).
Proof.
  unfold AzureBlobScanner.get_bucket_permissions.
  destruct (Probes.AzureBlobScanner.has_blob_service_client self); cbn [negb].
  - eexists. split; [reflexivity|].
    destruct (succeeds (list_of (az_list_blobs env name (Some 1%Z)))),
      (succeeds (Probes.azure_get_container_properties (probes env) name)),
      (succeeds (az_get_container_access_policy env name)); cbn [app];
      (split; [solve_sublist|]);
      (split; [discriminate|]);
      (split; [intros H; first [by split | exfalso; revert H;
                                 apply (bool_decide_unpack _); by vm_compute]
              |intros [_ H]; first [discriminate H
                                   | apply (bool_decide_unpack _); by vm_compute]]).
  - eexists. split; [reflexivity|]. split; [apply sublist_nil_l|].
    split; [done|]. split; [intros H; by apply elem_of_nil in H|by intros [? _]].
Qed.

(** No name a scanner can report is one the permission checker reads. *)
Lemma probe_names_not_read (perms : list string) :
  perms `sublist_of` aws_permission_names
  \/ perms `sublist_of` gcp_permission_names
  \/ perms `sublist_of` azure_permission_names ->
  list_in "read" perms = false /\ list_in "get" perms = false
  /\ list_in "write" perms = false /\ list_in "put" perms = false
  /\ list_in "delete" perms = false.
Proof.
  intros Hsub.
  assert (forall x, x ∈ ["read"; "get"; "write"; "put"; "delete"] ->
                    list_in x perms = false) as Hnot.
  { assert (Forall (fun x => x ∉ aws_permission_names ++ gcp_permission_names
                                  ++ azure_permission_names)
              ["read"; "get"; "write"; "put"; "delete"]) as Hclosed
      by (apply (bool_decide_unpack _); by vm_compute).
    intros x Hx. unfold list_in. apply bool_decide_eq_false. intros Hin.
    rewrite Forall_forall in Hclosed. apply (Hclosed x Hx).
    rewrite !elem_of_app.
    destruct Hsub as [H|[H|H]]; pose proof (elem_of_sublist _ _ _ Hin H); tauto. }
  repeat split; apply Hnot; apply (bool_decide_unpack _); by vm_compute.
Qed.

(** Shared by the theorem that follows and by later proofs. *)
Lemma get_bucket_permissions_names_facts (env : Cloud)
    (self : Probes.AzureBlobScanner.self_) (bucket_name : string) :
  (exists perms,
     AWSS3Scanner.get_bucket_permissions env bucket_name = Returned perms
     /\ perms `sublist_of` ["list"; "get_acl"; "get_policy"; "get_location"]
     /\ ("list" ∈ perms <-> succeeds (s3_list_objects_v2 env bucket_name 1) = true))
  /\ (exists perms,
        GCPStorageScanner.get_bucket_permissions env bucket_name = Returned perms
        /\ perms `sublist_of` ["list"; "get_iam_policy"; "get_metadata"]
        /\ ("list" ∈ perms
            <-> succeeds (list_of (gcs_list_blobs env bucket_name 1)) = true))
  /\ (exists perms,
        AzureBlobScanner.get_bucket_permissions env self bucket_name = Returned perms
        /\ perms `sublist_of` ["list"; "get_properties"; "get_acl"]
        /\ (Probes.AzureBlobScanner.has_blob_service_client self = false ->
            perms = [])
        /\ ("list" ∈ perms
            <-> Probes.AzureBlobScanner.has_blob_service_client self = true
                /\ succeeds (list_of (az_list_blobs env bucket_name (Some 1%Z)))
                   = true)).
Proof.
  split; [apply aws_permissions_sublist|].
  split; [apply gcp_permissions_sublist|apply azure_permissions_sublist].
Qed.

(** The names of the probes that went through, in the order of the
    probes. *)
Definition passed (tests : list (string * bool)) : list string :=
  map fst (List.filter snd tests).

(** X15. [get_bucket_permissions] of the three scanners never raises and
    reports exactly the names of the probes that did not raise, in the
    order of the probes: list, get_acl, get_policy, get_location for S3;
    list, get_iam_policy, get_metadata for GCS; list, get_properties,
    get_acl for Azure, and nothing for Azure without a service client. *)
Theorem get_bucket_permissions_names (env : Cloud)
    (self : Probes.AzureBlobScanner.self_) (bucket_name : string) :
  (exists perms,
     AWSS3Scanner.get_bucket_permissions env bucket_name = Returned perms
     /\ perms =
          passed
            [ ("list", succeeds (s3_list_objects_v2 env bucket_name 1));
              ("get_acl", succeeds (s3_get_bucket_acl env bucket_name));
              ("get_policy", succeeds (s3_get_bucket_policy env bucket_name));
              ("get_location",
                succeeds (s3_get_bucket_location env bucket_name)) ]
     /\ perms `sublist_of` ["list"; "get_acl"; "get_policy"; "get_location"]
     /\ ("list" ∈ perms <-> succeeds (s3_list_objects_v2 env bucket_name 1) = true)
     /\ ("get_acl" ∈ perms <-> succeeds (s3_get_bucket_acl env bucket_name) = true)
     /\ ("get_policy" ∈ perms
         <-> succeeds (s3_get_bucket_policy env bucket_name) = true)
     /\ ("get_location" ∈ perms
         <-> succeeds (s3_get_bucket_location env bucket_name) = true))
  /\ (exists perms,
        GCPStorageScanner.get_bucket_permissions env bucket_name = Returned perms
        /\ perms =
             passed
               [ ("list", succeeds (list_of (gcs_list_blobs env bucket_name 1)));
                 ("get_iam_policy", succeeds (gcs_get_iam_policy env bucket_name));
                 ("get_metadata",
                   succeeds (Probes.gcs_bucket_reload (probes env) bucket_name)) ]
        /\ perms `sublist_of` ["list"; "get_iam_policy"; "get_metadata"]
        /\ ("list" ∈ perms
            <-> succeeds (list_of (gcs_list_blobs env bucket_name 1)) = true)
        /\ ("get_iam_policy" ∈ perms
            <-> succeeds (gcs_get_iam_policy env bucket_name) = true)
        /\ ("get_metadata" ∈ perms
            <-> succeeds (Probes.gcs_bucket_reload (probes env) bucket_name)
                = true))
  /\ (exists perms,
        AzureBlobScanner.get_bucket_permissions env self bucket_name = Returned perms
        /\ perms =
             (if Probes.AzureBlobScanner.has_blob_service_client self
              then
                passed
                  [ ("list",
                      succeeds (list_of (az_list_blobs env bucket_name (Some 1%Z))));
                    ("get_properties",
                      succeeds (Probes.azure_get_container_properties
                                  (probes env) bucket_name));
                    ("get_acl",
                      succeeds (az_get_container_access_policy env bucket_name)) ]
              else [])
        /\ perms `sublist_of` ["list"; "get_properties"; "get_acl"]
        /\ (Probes.AzureBlobScanner.has_blob_service_client self = false ->
            perms = [])
        /\ ("list" ∈ perms
            <-> Probes.AzureBlobScanner.has_blob_service_client self = true
                /\ succeeds (list_of (az_list_blobs env bucket_name (Some 1%Z)))
                   = true)
        /\ ("get_properties" ∈ perms
            <-> Probes.AzureBlobScanner.has_blob_service_client self = true
                /\ succeeds (Probes.azure_get_container_properties
                               (probes env) bucket_name) = true)
        /\ ("get_acl" ∈ perms
            <-> Probes.AzureBlobScanner.has_blob_service_client self = true
                /\ succeeds (az_get_container_access_policy env bucket_name)
                   = true)).
Proof.
  assert (forall (x : string) (l : list string) (b : bool),
            bool_decide (x ∈ l) = b -> (x ∈ l <-> b = true)) as Hmem.
  { intros x l b <-. symmetry. apply bool_decide_eq_true. }
  assert (forall (x : string) (l : list string) (h b : bool),
            h = true -> bool_decide (x ∈ l) = b ->
            (x ∈ l <-> h = true /\ b = true)) as Hmem2.
  { intros x l h b -> <-. rewrite bool_decide_eq_true. tauto. }
  destruct (get_bucket_permissions_names_facts env self bucket_name)
    as ((p1 & Hr1 & Hs1 & Hl1) & (p2 & Hr2 & Hs2 & Hl2)
        & (p3 & Hr3 & Hs3 & Hn3 & Hl3)).
  split; [|split].
  - exists p1. split; [done|].
    unfold AWSS3Scanner.get_bucket_permissions in Hr1. injection Hr1 as <-.
    split; [|split; [done|split; [done|]]];
      destruct (succeeds (s3_list_objects_v2 env bucket_name 1)),
        (succeeds (s3_get_bucket_acl env bucket_name)),
        (succeeds (s3_get_bucket_policy env bucket_name)),
        (succeeds (s3_get_bucket_location env bucket_name));
      first [reflexivity | repeat split; by apply Hmem].
  - exists p2. split; [done|].
    unfold GCPStorageScanner.get_bucket_permissions in Hr2. injection Hr2 as <-.
    split; [|split; [done|split; [done|]]];
      destruct (succeeds (list_of (gcs_list_blobs env bucket_name 1))),
        (succeeds (gcs_get_iam_policy env bucket_name)),
        (succeeds (Probes.gcs_bucket_reload (probes env) bucket_name));
      first [reflexivity | repeat split; by apply Hmem].
  - exists p3. split; [done|].
    unfold AzureBlobScanner.get_bucket_permissions in Hr3.
    destruct (Probes.AzureBlobScanner.has_blob_service_client self) eqn:Hc;
      cbn [negb] in Hr3; injection Hr3 as <-.
    + split; [|split; [done|split; [done|split; [done|]]]];
        destruct (succeeds (list_of (az_list_blobs env bucket_name (Some 1%Z)))),
          (succeeds (Probes.azure_get_container_properties
                       (probes env) bucket_name)),
          (succeeds (az_get_container_access_policy env bucket_name));
        first [reflexivity | split; by apply Hmem2].
    + split; [done|]. split; [done|]. split; [done|]. split; [done|].
      split; (split; [intros H; by apply elem_of_nil in H|by intros [? _]]).
Qed.

(** Shared by the theorem that follows and by later proofs. *)
Lemma scanner_permissions_never_writable_facts (env : Cloud)
    (self : Probes.AzureBlobScanner.self_) (bucket_name : string)
    (perms : list string) :
  AWSS3Scanner.get_bucket_permissions env bucket_name = Returned perms
  \/ GCPStorageScanner.get_bucket_permissions env bucket_name = Returned perms
  \/ AzureBlobScanner.get_bucket_permissions env self bucket_name = Returned perms ->
  forall name prov public files,
    let r := analyze_permissions name prov perms public files in
    is_writable r = false
    /\ permissions r `sublist_of` [LIST]
    /\ risk_level r <> "critical"
    /\ Recommendations.critical_line
       ∉ Recommendations.analyze_permissions_recommendations
           name prov perms public files.
Proof.
  intros Hperms name prov public files.
  assert (perms `sublist_of` aws_permission_names
          \/ perms `sublist_of` gcp_permission_names
          \/ perms `sublist_of` azure_permission_names) as Hsub.
  { destruct Hperms as [H|[H|H]].
    - destruct (aws_permissions_sublist env bucket_name) as (p & Hp & Hs & _).
      left. congruence.
    - destruct (gcp_permissions_sublist env bucket_name) as (p & Hp & Hs & _).
      right. left. congruence.
    - destruct (azure_permissions_sublist env self bucket_name) as (p & Hp & Hs & _).
      right. right. congruence. }
  destruct (probe_names_not_read perms Hsub) as (Hr & Hg & Hw & Hp & Hd).
  cbv zeta.
  assert (is_writable (analyze_permissions name prov perms public files) = false)
    as Hwr.
  { unfold analyze_permissions. cbn [is_writable]. rewrite Hr, Hg, Hw, Hp, Hd.
    by destruct (list_in "list" perms). }
  split; [done|]. split; [|split].
  - unfold analyze_permissions. cbn [permissions]. rewrite Hr, Hg, Hw, Hp, Hd.
    destruct (list_in "list" perms); cbn; [done|apply sublist_nil_l].
  - assert (risk_level (analyze_permissions name prov perms public files)
            = _calculate_risk_level public
                (is_writable (analyze_permissions name prov perms public files))
                (permissions (analyze_permissions name prov perms public files))
                files) as -> by reflexivity.
    rewrite _calculate_risk_level_table, Hwr.
    destruct (negb public); [discriminate|]. by destruct (existsb _ _).
  - unfold Recommendations.analyze_permissions_recommendations. rewrite Hwr.
    intros Hin.
    destruct (recommendations_lines_facts public false prov files)
      as (_ & _ & _ & Hcrit & _).
    cbv zeta in Hcrit. apply Hcrit in Hin. discriminate Hin.
Qed.

(** X16. Whatever a scanner's [get_bucket_permissions] reports, the permission
    checker reads at most LIST out of it: the bucket is never writable
    for it, its risk level is never "critical", and the warning of public
    write access is never recommended. *)
Theorem scanner_permissions_never_writable (env : Cloud)
    (self : Probes.AzureBlobScanner.self_) (bucket_name : string)
    (perms : list string) :
  AWSS3Scanner.get_bucket_permissions env bucket_name = Returned perms
  \/ GCPStorageScanner.get_bucket_permissions env bucket_name = Returned perms
  \/ AzureBlobScanner.get_bucket_permissions env self bucket_name = Returned perms ->
  forall name prov public files,
    let r := analyze_permissions name prov perms public files in
    is_writable r = false
    /\ permissions r `sublist_of` [LIST]
    /\ risk_level r <> "critical"
    /\ Recommendations.critical_line
       ∉ Recommendations.analyze_permissions_recommendations
           name prov perms public files.
Proof. exact (scanner_permissions_never_writable_facts env self bucket_name perms). Qed.

End PermissionProbeProperties.

(** ** Access levels *)

Section AccessLevelProperties.
Import PyStr Py BaseScanner Providers.
#[local] Arguments contains : simpl never.
#[local] Arguments list_in : simpl never.

Definition grant_uri (grant : Grant) : string :=
  default "" (Grantee grant ≫= URI).

Definition grant_permission (grant : Grant) : string :=
  default "" (Permission grant).

Definition is_ClientError (e : exn) : bool :=
  match e with
  | ClientError _ _ => true
  | _ => false
  end.

Lemma except_ClientError_pass_raised {A} (e : exn) :
  except_ClientError_pass (A := A) (Raised e)
  = if is_ClientError e then Returned None else Raised e.
Proof. by destruct e. Qed.

(** What a grant says about the bucket, as the loop over the ACL reads it. *)
Definition grant_says (grant : Grant) (level : BucketAccessLevel) : Prop :=
  (level = PUBLIC_READ_WRITE
   /\ contains "AllUsers" (grant_uri grant) = true
   /\ grant_permission grant = "FULL_CONTROL")
  \/ (level = PUBLIC_READ
      /\ contains "AllUsers" (grant_uri grant) = true
      /\ grant_permission grant ∈ ["READ"; "READ_ACP"])
  \/ (level = PUBLIC_WRITE
      /\ contains "AllUsers" (grant_uri grant) = true
      /\ grant_permission grant ∈ ["WRITE"; "WRITE_ACP"])
  \/ (level = AUTHENTICATED_READ
      /\ contains "AllUsers" (grant_uri grant) = false
      /\ contains "AuthenticatedUsers" (grant_uri grant) = true).

(** The grant that decides the loop over the ACL. *)
Lemma grants_level_evidence grants level :
  AWSS3Scanner.grants_level grants = Some level ->
  exists grant, grant ∈ grants /\ grant_says grant level.
Proof.
  induction grants as [|grant grants IH]; cbn [AWSS3Scanner.grants_level];
    [discriminate|].
  fold (grant_uri grant). fold (grant_permission grant).
  assert (AWSS3Scanner.grants_level grants = Some level ->
          exists g, g ∈ grant :: grants /\ grant_says g level) as Hrest.
  { intros H. destruct (IH H) as (g & Hin & Hev). exists g. split; [by right|].
    exact Hev. }
  unfold grant_says.
  destruct (contains "AllUsers" (grant_uri grant)) eqn:Hall.
  - destruct (String.eqb_spec (grant_permission grant) "FULL_CONTROL") as [Hfc|_].
    { intros [= <-]. exists grant. split; [by left|]. left. by rewrite Hall. }
    destruct (list_in (grant_permission grant) ["READ"; "READ_ACP"]) eqn:Hr.
    { intros [= <-]. exists grant. split; [by left|]. right. left.
      apply list_in_true in Hr. by rewrite Hall. }
    destruct (list_in (grant_permission grant) ["WRITE"; "WRITE_ACP"]) eqn:Hw.
    { intros [= <-]. exists grant. split; [by left|]. right. right. left.
      apply list_in_true in Hw. by rewrite Hall. }
    exact Hrest.
  - destruct (contains "AuthenticatedUsers" (grant_uri grant)) eqn:Hauth.
    { intros [= <-]. exists grant. split; [by left|]. right. right. right.
      by rewrite Hall, Hauth. }
    exact Hrest.
Qed.

Lemma policy_level_read policy_str level :
  AWSS3Scanner.policy_level policy_str = Some level -> level = PUBLIC_READ.
Proof.
  unfold AWSS3Scanner.policy_level.
  destruct (_ || _); [|discriminate]. destruct (contains _ _); [|discriminate].
  by intros [= <-].
Qed.

(** Shared by the theorem that follows and by later proofs. *)
Lemma aws_check_public_access_verdict_facts (env : Cloud) (bucket_name : string) :
  let url := "https://" +:+ bucket_name +:+ ".s3.amazonaws.com" in
  exists level,
    AWSS3Scanner.check_public_access env bucket_name = Returned level
    /\ (http_get env url = Returned 200%Z -> level = PUBLIC_READ)
    /\ ((exists e, http_get env url = Raised e) -> level = UNKNOWN)
    /\ (level ∈ [PUBLIC_READ_WRITE; PUBLIC_WRITE; AUTHENTICATED_READ] ->
        exists acl grant,
          s3_get_bucket_acl env bucket_name = Returned acl
          /\ AWSS3Scanner.grants_level (default [] (Grants acl)) = Some level
          /\ grant ∈ default [] (Grants acl)
          /\ grant_says grant level)
    /\ (level = PUBLIC_READ ->
        http_get env url = Returned 200%Z
        \/ (exists acl,
              s3_get_bucket_acl env bucket_name = Returned acl
              /\ AWSS3Scanner.grants_level (default [] (Grants acl))
                 = Some PUBLIC_READ)
        \/ (exists response,
              s3_get_bucket_policy env bucket_name = Returned response
              /\ AWSS3Scanner.policy_level (default "" (Policy response))
                 = Some PUBLIC_READ))
    /\ (forall acl level',
          s3_get_bucket_acl env bucket_name = Returned acl ->
          AWSS3Scanner.grants_level (default [] (Grants acl)) = Some level' ->
          level = level' \/ level = PUBLIC_READ \/ level = UNKNOWN).
Proof.
  cbv zeta. unfold AWSS3Scanner.check_public_access.
  set (url := "https://" +:+ bucket_name +:+ ".s3.amazonaws.com").
  assert (forall l : BucketAccessLevel,
            l ∈ [PUBLIC_READ_WRITE; PUBLIC_WRITE; AUTHENTICATED_READ] ->
            l <> PUBLIC_READ /\ l <> UNKNOWN /\ l <> PRIVATE) as Hthree.
  { intros l Hl. repeat (apply elem_of_cons in Hl as [->|Hl]; [done|]).
    by apply elem_of_nil in Hl. }
  destruct (http_get env url) as [status|e] eqn:Hget;
    cbn [mbind outcome_bind bind try_except].
  2:{ exists UNKNOWN. split; [done|]. split; [done|]. split; [done|].
      split; [|split; [done|]].
      - intros Hl. apply Hthree in Hl. tauto.
      - intros. tauto. }
  destruct (Z.eqb_spec status 200) as [->|H200].
  { exists PUBLIC_READ. cbn. split; [done|]. split; [done|].
    split; [by intros [? [=]]|]. split; [|split; [tauto|]].
    - intros Hl. apply Hthree in Hl. tauto.
    - intros. tauto. }
  assert (Returned status <> Returned 200%Z) as Hne by congruence.
  (* what follows the ACL when it does not decide *)
  assert (exists level,
            try_except
              (by_policy ← except_ClientError_pass
                             (policy_response ← s3_get_bucket_policy env bucket_name;
                              Returned (AWSS3Scanner.policy_level
                                          (default "" (Policy policy_response))));
               match by_policy with
               | Some level => Returned level
               | None =>
                   by_block ← except_ClientError_pass
                                (public_block ← s3_get_public_access_block env bucket_name;
                                 let config :=
                                   default [] (PublicAccessBlockConfiguration public_block) in
                                 Returned (if negb (existsb snd config)
                                           then Some UNKNOWN else None));
                   match by_block with
                   | Some level => Returned level
                   | None => Returned PRIVATE
                   end
               end)
              (fun _ => Returned UNKNOWN) = Returned level
            /\ level ∈ [PUBLIC_READ; UNKNOWN; PRIVATE]
            /\ (level = PUBLIC_READ ->
                exists response,
                  s3_get_bucket_policy env bucket_name = Returned response
                  /\ AWSS3Scanner.policy_level (default "" (Policy response))
                     = Some PUBLIC_READ)) as Hafter.
  { assert (forall l : BucketAccessLevel, l = UNKNOWN \/ l = PRIVATE ->
              l ∈ [PUBLIC_READ; UNKNOWN; PRIVATE]
              /\ (l = PUBLIC_READ ->
                  exists response,
                    s3_get_bucket_policy env bucket_name = Returned response
                    /\ AWSS3Scanner.policy_level (default "" (Policy response))
                       = Some PUBLIC_READ)) as Hup.
    { intros l [-> | ->]; (split; [|discriminate]);
        apply (bool_decide_unpack _); by vm_compute. }
    assert (exists level,
              try_except
                (by_block ← except_ClientError_pass
                              (public_block ← s3_get_public_access_block env bucket_name;
                               let config :=
                                 default [] (PublicAccessBlockConfiguration public_block) in
                               Returned (if negb (existsb snd config)
                                         then Some UNKNOWN else None));
                 match by_block with
                 | Some level => Returned level
                 | None => Returned PRIVATE
                 end)
                (fun _ => Returned UNKNOWN) = Returned level
              /\ (level = UNKNOWN \/ level = PRIVATE)) as Hblock.
    { destruct (s3_get_public_access_block env bucket_name) as [pb|e];
        cbn [mbind outcome_bind bind].
      - cbn [except_ClientError_pass mbind outcome_bind bind].
        destruct (negb _); cbn; eauto.
      - rewrite except_ClientError_pass_raised.
        destruct (is_ClientError e); cbn; eauto. }
    destruct (s3_get_bucket_policy env bucket_name) as [response|e] eqn:Hpol;
      cbn [mbind outcome_bind bind].
    - cbn [except_ClientError_pass mbind outcome_bind bind].
      destruct (AWSS3Scanner.policy_level (default "" (Policy response)))
        as [l|] eqn:Hl; cbn [mbind outcome_bind bind].
      + pose proof (policy_level_read _ _ Hl) as ->. exists PUBLIC_READ.
        split; [done|]. split; [by left|]. intros _. by exists response.
      + destruct Hblock as (l & Hl' & Hcase). exists l. split; [exact Hl'|].
        by apply Hup.
    - rewrite except_ClientError_pass_raised.
      destruct (is_ClientError e); cbn [mbind outcome_bind bind].
      + destruct Hblock as (l & Hl' & Hcase). exists l. split; [exact Hl'|].
        by apply Hup.
      + exists UNKNOWN. split; [done|]. apply Hup. by left. }
  destruct Hafter as (after & Hafter & Hrange & Hpolicy).
  assert (after <> PUBLIC_READ_WRITE /\ after <> PUBLIC_WRITE
          /\ after <> AUTHENTICATED_READ) as Hnot.
  { repeat (apply elem_of_cons in Hrange as [->|Hrange]; [done|]).
    by apply elem_of_nil in Hrange. }
  assert (after ∈ [PUBLIC_READ_WRITE; PUBLIC_WRITE; AUTHENTICATED_READ] -> False)
    as Hnot3.
  { intros Hl. repeat (apply elem_of_cons in Hl as [Hl|Hl]; [tauto|]).
    by apply elem_of_nil in Hl. }
  assert (after = PUBLIC_READ \/ after = UNKNOWN \/ after = PRIVATE) as Hcases.
  { repeat (apply elem_of_cons in Hrange as [->|Hrange]; [tauto|]).
    by apply elem_of_nil in Hrange. }
  destruct (s3_get_bucket_acl env bucket_name) as [acl|e] eqn:Hacl;
    cbn [mbind outcome_bind bind].
  - cbn [except_ClientError_pass mbind outcome_bind bind].
    destruct (AWSS3Scanner.grants_level (default [] (Grants acl))) as [l|] eqn:Hl;
      cbn [mbind outcome_bind bind try_except].
    + exists l. split; [done|]. split; [done|]. split; [by intros [? [=]]|].
      split; [intros _; destruct (grants_level_evidence _ _ Hl) as (g & ? & ?);
              by exists acl, g|]. split.
      * intros ->. right. left. by exists acl.
      * intros acl' l' [= <-] Hl'. left. congruence.
    + exists after. split; [exact Hafter|]. split; [done|].
      split; [by intros [? [=]]|]. split; [by intros ?%Hnot3|]. split.
      * intros Hr. right. right. by apply Hpolicy.
      * intros acl' l' [= <-] Hl'. congruence.
  - rewrite except_ClientError_pass_raised.
    destruct (is_ClientError e); cbn [mbind outcome_bind bind try_except].
    + exists after. split; [exact Hafter|]. split; [done|].
      split; [by intros [? [=]]|]. split; [by intros ?%Hnot3|]. split.
      * intros Hr. right. right. by apply Hpolicy.
      * intros acl' l' [=].
    + exists UNKNOWN. split; [done|]. split; [done|].
      split; [by intros [? [=]]|]. split; [|split; [done|]].
      * intros Hl. apply Hthree in Hl. tauto.
      * intros acl' l' [=].
Qed.


Definition binding_members (binding : Binding) : list string :=
  default [] (members binding).

Definition binding_role (binding : Binding) : string :=
  default "" (role binding).

(** What a binding of the IAM policy says, as the loop reads it. *)
Definition binding_says (binding : Binding) (level : BucketAccessLevel) : Prop :=
  ("allUsers" ∈ binding_members binding
   /\ ((level = PUBLIC_READ
        /\ (contains "storage.objects.list" (binding_role binding)
            || contains "roles/storage.objectViewer" (binding_role binding)) = true)
       \/ (level = PUBLIC_WRITE
           /\ (contains "storage.objects.create" (binding_role binding)
               || contains "roles/storage.objectCreator" (binding_role binding)) = true)
       \/ (level = PUBLIC_READ_WRITE
           /\ contains "roles/storage.admin" (binding_role binding) = true)))
  \/ (("allUsers" ∉ binding_members binding)
      /\ "allAuthenticatedUsers" ∈ binding_members binding
      /\ level = AUTHENTICATED_READ).

Lemma bindings_level_evidence bindings level :
  GCPStorageScanner.bindings_level bindings = Some level ->
  exists binding, binding ∈ bindings /\ binding_says binding level.
Proof.
  induction bindings as [|binding bindings IH];
    cbn [GCPStorageScanner.bindings_level]; [discriminate|].
  fold (binding_members binding). fold (binding_role binding).
  assert (GCPStorageScanner.bindings_level bindings = Some level ->
          exists b, b ∈ binding :: bindings /\ binding_says b level) as Hrest.
  { intros H. destruct (IH H) as (b & Hin & Hev). exists b. split; [by right|].
    exact Hev. }
  unfold binding_says.
  destruct (list_in "allUsers" (binding_members binding)) eqn:Hall.
  - apply list_in_true in Hall.
    destruct (contains "storage.objects.list" (binding_role binding)
              || contains "roles/storage.objectViewer" (binding_role binding))
      eqn:Hr.
    { intros [= <-]. exists binding. split; [by left|]. left. split; [done|].
      by left. }
    destruct (contains "storage.objects.create" (binding_role binding)
              || contains "roles/storage.objectCreator" (binding_role binding))
      eqn:Hw.
    { intros [= <-]. exists binding. split; [by left|]. left. split; [done|].
      right. by left. }
    destruct (contains "roles/storage.admin" (binding_role binding)) eqn:Ha.
    { intros [= <-]. exists binding. split; [by left|]. left. split; [done|].
      right. by right. }
    exact Hrest.
  - assert ("allUsers" ∉ binding_members binding) as Hnot.
    { intros Hin. apply list_in_true in Hin. congruence. }
    destruct (list_in "allAuthenticatedUsers" (binding_members binding)) eqn:Hauth.
    { intros [= <-]. exists binding. split; [by left|]. right.
      apply list_in_true in Hauth. done. }
    exact Hrest.
Qed.

Lemma except_Exception_pass_returns {A} (body : outcome (option A)) :
  exists v, except_Exception_pass body = Returned v
            /\ (v <> None -> body = Returned v).
Proof. destruct body as [v|e]; cbn; eauto. exists None. done. Qed.

(** Shared by the theorem that follows and by later proofs. *)
Lemma gcp_check_public_access_verdict_facts (env : Cloud) (bucket_name : string) :
  let url := "https://storage.googleapis.com/" +:+ bucket_name in
  exists level,
    GCPStorageScanner.check_public_access env bucket_name = Returned level
    /\ (http_get env url = Returned 200%Z -> level = PUBLIC_READ)
    /\ (level = UNKNOWN <-> exists e, http_get env url = Raised e)
    /\ (level ∈ [PUBLIC_READ_WRITE; PUBLIC_WRITE; AUTHENTICATED_READ] ->
        exists bindings binding,
          gcs_get_iam_policy env bucket_name = Returned bindings
          /\ GCPStorageScanner.bindings_level bindings = Some level
          /\ binding ∈ bindings
          /\ binding_says binding level)
    /\ (forall status bindings level',
          http_get env url = Returned status -> status <> 200%Z ->
          gcs_get_iam_policy env bucket_name = Returned bindings ->
          GCPStorageScanner.bindings_level bindings = Some level' ->
          level = level')
    /\ (forall status,
          http_get env url = Returned status -> status <> 200%Z ->
          (forall bindings,
             gcs_get_iam_policy env bucket_name = Returned bindings ->
             GCPStorageScanner.bindings_level bindings = None) ->
          level = match list_of (gcs_list_blobs env bucket_name 1) with
                  | Returned (_ :: _) => PUBLIC_READ
                  | _ => PRIVATE
                  end).
Proof.
  cbv zeta. unfold GCPStorageScanner.check_public_access.
  set (url := "https://storage.googleapis.com/" +:+ bucket_name).
  assert (forall l : BucketAccessLevel,
            l ∈ [PUBLIC_READ_WRITE; PUBLIC_WRITE; AUTHENTICATED_READ] ->
            l <> PUBLIC_READ /\ l <> UNKNOWN /\ l <> PRIVATE) as Hthree.
  { intros l Hl. repeat (apply elem_of_cons in Hl as [->|Hl]; [done|]).
    by apply elem_of_nil in Hl. }
  destruct (http_get env url) as [status|e] eqn:Hget;
    cbn [mbind outcome_bind bind try_except].
  2:{ exists UNKNOWN. split; [done|]. split; [done|].
      split; [split; [by eexists|done]|]. split; [|split; [done|done]].
      intros Hl. apply Hthree in Hl. tauto. }
  destruct (Z.eqb_spec status 200) as [->|H200].
  { exists PUBLIC_READ. cbn. split; [done|]. split; [done|].
    split; [split; [done|by intros [? [=]]]|]. split; [|split].
    - intros Hl. apply Hthree in Hl. tauto.
    - intros ? ? ? [= <-]. done.
    - intros ? [= <-]. done. }
  assert (Returned status <> Returned 200%Z) as Hne by congruence.
  set (listing := match list_of (gcs_list_blobs env bucket_name 1) with
                  | Returned (_ :: _) => PUBLIC_READ
                  | _ => PRIVATE
                  end).
  assert (try_except
            (by_listing ← except_Exception_pass
                            (blobs ← list_of (gcs_list_blobs env bucket_name 1);
                             Returned (match blobs with
                                       | _ :: _ => Some PUBLIC_READ
                                       | [] => None
                                       end));
             match by_listing with
             | Some level => Returned level
             | None => Returned PRIVATE
             end)
            (fun _ => Returned UNKNOWN) = Returned listing
          /\ (listing = PUBLIC_READ \/ listing = PRIVATE)) as [Hlisting Hcase].
  { unfold listing.
    destruct (list_of (gcs_list_blobs env bucket_name 1)) as [[|b bs]|e];
      cbn; auto. }
  destruct (gcs_get_iam_policy env bucket_name) as [bindings|e] eqn:Hpol;
    cbn [mbind outcome_bind bind except_Exception_pass].
  - destruct (GCPStorageScanner.bindings_level bindings) as [l|] eqn:Hl;
      cbn [mbind outcome_bind bind try_except].
    + exists l. split; [done|]. split; [done|]. split; [split|].
      * intros ->. destruct (bindings_level_evidence _ _ Hl) as (b & _ & Hb).
        unfold binding_says in Hb. exfalso.
        destruct Hb as [[_ [[? _]|[[? _]|[? _]]]]|(_ & _ & ?)]; discriminate.
      * by intros [? [=]].
      * split; [intros _; destruct (bindings_level_evidence _ _ Hl) as (b & ? & ?);
                by exists bindings, b|].
        split; [intros ? ? ? _ _ [= <-] ?; congruence|].
        intros ? _ _ Hnone. specialize (Hnone bindings eq_refl). congruence.
    + exists listing. split; [exact Hlisting|]. split; [done|]. split; [split|].
      * intros Hu. destruct Hcase as [H|H]; rewrite H in Hu; discriminate.
      * by intros [? [=]].
      * split; [|split; [intros ? ? ? _ _ [= <-] ?; congruence|done]].
        intros Hin. apply Hthree in Hin.
        destruct Hcase as [H|H]; rewrite H in Hin; tauto.
  - exists listing. split; [exact Hlisting|]. split; [done|]. split; [split|].
    + intros Hu. destruct Hcase as [H|H]; rewrite H in Hu; discriminate.
    + by intros [? [=]].
    + split; [|split; [intros ? ? ? _ _ [=]|done]].
      intros Hin. apply Hthree in Hin.
      destruct Hcase as [H|H]; rewrite H in Hin; tauto.
Qed.


(** Shared by the theorem that follows and by later proofs. *)
Lemma azure_check_public_access_verdict_facts (env : Cloud)
    (self : Probes.AzureBlobScanner.self_) (bucket_name : string) :
  let url := "https://" +:+ Probes.AzureBlobScanner.account_name self
             +:+ ".blob.core.windows.net/" +:+ bucket_name
             +:+ "?restype=container&comp=list" in
  let sample :=
    match list_of (az_anonymous_list_blobs env
                     (Probes.AzureBlobScanner.account_name self)
                     bucket_name (Some 1%Z)) with
    | Returned (_ :: _) => PUBLIC_READ
    | _ => PRIVATE
    end in
  exists level,
    AzureBlobScanner.check_public_access env self bucket_name = Returned level
    /\ level ∈ [PUBLIC_READ; PRIVATE; UNKNOWN]
    /\ (http_get env url = Returned 200%Z -> level = PUBLIC_READ)
    /\ (level = UNKNOWN <-> exists e, http_get env url = Raised e)
    /\ (forall status,
          http_get env url = Returned status -> status <> 200%Z ->
          level
          = if Probes.AzureBlobScanner.has_blob_service_client self
            then match az_public_access env bucket_name with
                 | Returned public_access =>
                     default sample (AzureBlobScanner.properties_level public_access)
                 | Raised _ => sample
                 end
            else sample).
Proof.
  cbv zeta. unfold AzureBlobScanner.check_public_access.
  set (url := "https://" +:+ Probes.AzureBlobScanner.account_name self
              +:+ ".blob.core.windows.net/" +:+ bucket_name
              +:+ "?restype=container&comp=list").
  set (sample := match list_of (az_anonymous_list_blobs env
                                  (Probes.AzureBlobScanner.account_name self)
                                  bucket_name (Some 1%Z)) with
                 | Returned (_ :: _) => PUBLIC_READ
                 | _ => PRIVATE
                 end).
  destruct (http_get env url) as [status|e] eqn:Hget;
    cbn [mbind outcome_bind bind try_except].
  2:{ exists UNKNOWN. split; [done|].
      split; [apply (bool_decide_unpack _); by vm_compute|]. split; [done|].
      split; [split; [by eexists|done]|done]. }
  destruct (Z.eqb_spec status 200) as [->|H200].
  { exists PUBLIC_READ. cbn. split; [done|].
    split; [apply (bool_decide_unpack _); by vm_compute|]. split; [done|].
    split; [split; [done|by intros [? [=]]]|]. intros ? [= <-]. done. }
  assert (try_except
            (by_listing ←
               except_Exception_pass
                 (blobs ← list_of (az_anonymous_list_blobs env
                                     (Probes.AzureBlobScanner.account_name self)
                                     bucket_name (Some 1%Z));
                  Returned (match blobs with
                            | _ :: _ => Some PUBLIC_READ
                            | [] => None
                            end));
             match by_listing with
             | Some level => Returned level
             | None => Returned PRIVATE
             end)
            (fun _ => Returned UNKNOWN) = Returned sample
          /\ (sample = PUBLIC_READ \/ sample = PRIVATE)) as [Hsample Hcase].
  { unfold sample.
    destruct (list_of (az_anonymous_list_blobs env _ bucket_name (Some 1%Z)))
      as [[|b bs]|e]; cbn; auto. }
  assert (forall l, l = PUBLIC_READ \/ l = PRIVATE ->
            l ∈ [PUBLIC_READ; PRIVATE; UNKNOWN]
            /\ (Returned status = Returned 200%Z -> l = PUBLIC_READ)
            /\ (l = UNKNOWN <-> exists e, Returned status = Raised (A := Z) e))
    as Hgood.
  { intros l Hl. split; [|split; [by intros [= ?]|split]].
    - destruct Hl as [-> | ->]; apply (bool_decide_unpack _); by vm_compute.
    - intros ->. by destruct Hl.
    - by intros [? [=]]. }
  destruct (Probes.AzureBlobScanner.has_blob_service_client self).
  - destruct (az_public_access env bucket_name) as [pa|e] eqn:Hpa;
      cbn [mbind outcome_bind bind except_Exception_pass].
    + destruct (AzureBlobScanner.properties_level pa) as [l|] eqn:Hl;
        cbn [mbind outcome_bind bind try_except default].
      * assert (l = PUBLIC_READ \/ l = PRIVATE) as Hlcase.
        { unfold AzureBlobScanner.properties_level in Hl.
          destruct pa as [v|]; [|injection Hl as <-; by right].
          repeat (destruct (String.eqb v _); [injection Hl as <-; auto|]).
          discriminate. }
        exists l. split; [done|]. destruct (Hgood l Hlcase) as (? & ? & ?).
        repeat split; try done; tauto.
      * exists sample. split; [exact Hsample|].
        destruct (Hgood sample Hcase) as (? & ? & ?).
        repeat split; try done; tauto.
    + exists sample. split; [exact Hsample|].
      destruct (Hgood sample Hcase) as (? & ? & ?).
      repeat split; try done; tauto.
  - cbn [mbind outcome_bind bind]. exists sample. split; [exact Hsample|].
    destruct (Hgood sample Hcase) as (? & ? & ?).
    repeat split; try done; tauto.
Qed.


End AccessLevelProperties.

(** ** The provider scanners in [scan_bucket] *)

Section ProviderScanProperties.
Import PyStr Py BaseScanner Providers.
#[local] Arguments contains : simpl never.
#[local] Arguments list_in : simpl never.

(** A cloud in which the bucket "assets" exists on S3 with an ACL that
    lets everyone read, listing two objects, and nothing else answers. *)
Definition sample_cloud : Cloud :=
  let denied := ClientError "AccessDenied" "Access Denied" in
  {| probes :=
       {| Probes.http_head := fun _ => Returned 403%Z;
          Probes.s3_head_bucket := fun _ => Returned tt;
          Probes.gcs_bucket_reload := fun _ => Raised (NotFound "no such bucket");
          Probes.azure_get_container_properties :=
            fun _ => Raised (ResourceNotFoundError "no such container") |};
     http_get := fun _ => Returned 403%Z;
     s3_get_bucket_acl := fun _ =>
       Returned
         {| Grants :=
              Some [ {| Grantee :=
                          Some {| URI := Some "http://acs.amazonaws.com/groups/global/AllUsers" |};
                        Permission := Some "READ" |} ] |};
     s3_get_bucket_policy := fun _ => Raised denied;
     s3_get_public_access_block := fun _ => Raised denied;
     s3_list_objects_v2 := fun _ _ =>
       Returned {| Contents := Some [ {| Key := Some "index.html" |};
                                      {| Key := Some "backup.sql" |} ] |};
     s3_get_bucket_location := fun _ => Raised denied;
     gcs_get_iam_policy := fun _ => Raised (Forbidden "forbidden");
     gcs_list_blobs := fun _ _ =>
       {| items := []; failure := Some (Forbidden "forbidden") |};
     az_public_access := fun _ => Raised (ResourceNotFoundError "no such container");
     az_list_blobs := fun _ _ =>
       {| items := []; failure := Some (ResourceNotFoundError "no such container") |};
     az_anonymous_list_blobs := fun _ _ _ =>
       {| items := []; failure := Some (ResourceNotFoundError "no such container") |};
     az_get_container_access_policy := fun _ =>
       Raised (ResourceNotFoundError "no such container") |}.

Definition sample_azure : Probes.AzureBlobScanner.self_ :=
  {| Probes.AzureBlobScanner.account_name := "acct";
     Probes.AzureBlobScanner.has_blob_service_client := false |}.

Lemma scanner_permissions_never_writable_witness :
  let r := PermissionChecker.analyze_permissions "assets" "aws_s3"
             ["list"; "get_acl"] true (Some ["index.html"; "backup.sql"]) in
  AWSS3Scanner.get_bucket_permissions sample_cloud "assets"
  = Returned ["list"; "get_acl"]
  /\ PermissionChecker.is_writable r = false
  /\ PermissionChecker.permissions r `sublist_of` [PermissionChecker.LIST]
  /\ PermissionChecker.risk_level r <> "critical"
  /\ Recommendations.critical_line
     ∉ Recommendations.analyze_permissions_recommendations "assets" "aws_s3"
         ["list"; "get_acl"] true (Some ["index.html"; "backup.sql"]).
Proof.
  cbv zeta. split; [reflexivity|].
  apply (scanner_permissions_never_writable sample_cloud sample_azure "assets"
           ["list"; "get_acl"]).
  left. reflexivity.
Defined.

Lemma aws_exists_returns probes name :
  exists b, Probes.AWSS3Scanner.check_bucket_exists probes name = Returned b.
Proof.
  unfold Probes.AWSS3Scanner.check_bucket_exists.
  destruct (Probes.http_head probes _) as [code|e]; cbn; [by eexists|].
  destruct (Probes.s3_head_bucket probes name) as [[]|e']; cbn; [by eexists|].
  destruct e'; by eexists.
Qed.

Lemma gcp_exists_returns probes name :
  exists b, Probes.GCPStorageScanner.check_bucket_exists probes name = Returned b.
Proof.
  unfold Probes.GCPStorageScanner.check_bucket_exists.
  destruct (Probes.http_head probes _) as [code|e]; cbn; [by eexists|].
  destruct (Probes.gcs_bucket_reload probes name) as [[]|e']; cbn; [by eexists|].
  destruct e'; by eexists.
Qed.

Lemma azure_exists_returns probes self name :
  exists b, Probes.AzureBlobScanner.check_bucket_exists probes self name = Returned b.
Proof.
  unfold Probes.AzureBlobScanner.check_bucket_exists.
  destruct (Probes.http_head probes _) as [code|e]; cbn; [by eexists|].
  destruct (Probes.AzureBlobScanner.has_blob_service_client self); [|by eexists].
  destruct (Probes.azure_get_container_properties probes name) as [[]|e']; cbn;
    [by eexists|].
  destruct e'; by eexists.
Qed.

(** What [scan_bucket] gives for a scanner none of whose methods raises. *)
Lemma scan_bucket_of_total_scanner (self : Scanner) (name : string)
    (found : bool) (level : BucketAccessLevel) (perms files : list string) :
  check_bucket_exists self name = Returned found ->
  check_public_access self name = Returned level ->
  get_bucket_permissions self name = Returned perms ->
  list_files self name = Returned files ->
  exists r,
    BaseScanner.scan_bucket self name = Returned r
    /\ exists_ r = found
    /\ error r = (if found then None else Some "Bucket does not exist")
    /\ (found = true -> access_level r = level /\ permissions r = perms)
    /\ (files_found r = None \/ files_found r = Some files)
    /\ (permissions r = [] \/ permissions r = perms).
Proof.
  intros He Hl Hp Hf. unfold BaseScanner.scan_bucket, scan_steps.
  rewrite He. cbn [mbind outcome_bind bind]. destruct found; cbn [negb].
  - rewrite Hl. cbn [mbind outcome_bind bind]. rewrite Hp.
    cbn [mbind outcome_bind bind].
    destruct (negb (bool_decide (level ∈ [PRIVATE; UNKNOWN]))).
    + rewrite Hf. cbn. eexists. split; [reflexivity|]. cbn. auto 10.
    + cbn. eexists. split; [reflexivity|]. cbn. auto 10.
  - cbn. eexists. split; [reflexivity|]. cbn.
    split; [done|]. split; [done|]. split; [done|]. auto.
Qed.

(** A result as the scanners of the three providers give it. *)
Definition clean_result (scanner : Scanner) (name : string) (names : list string)
    (r : BucketScanResult) : Prop :=
  check_bucket_exists scanner name = Returned (exists_ r)
  /\ (error r = None \/ error r = Some "Bucket does not exist")
  /\ (exists_ r = true -> check_public_access scanner name = Returned (access_level r))
  /\ (forall files, files_found r = Some files -> (length files <= 100)%nat)
  /\ permissions r `sublist_of` names
  /\ forall name' prov public files,
       PermissionChecker.is_writable
         (PermissionChecker.analyze_permissions name' prov (permissions r) public files)
       = false.

Lemma clean_result_of_total (scanner : Scanner) (name : string)
    (names perms files : list string) (found : bool) (level : BucketAccessLevel) :
  check_bucket_exists scanner name = Returned found ->
  check_public_access scanner name = Returned level ->
  get_bucket_permissions scanner name = Returned perms ->
  list_files scanner name = Returned files ->
  (length files <= 100)%nat ->
  perms `sublist_of` names ->
  (forall name' prov public files',
     PermissionChecker.is_writable
       (PermissionChecker.analyze_permissions name' prov perms public files')
     = false) ->
  exists r, BaseScanner.scan_bucket scanner name = Returned r
            /\ clean_result scanner name names r.
Proof.
  intros He Hl Hp Hf Hlen Hsub Hw.
  destruct (scan_bucket_of_total_scanner scanner name found level perms files
              He Hl Hp Hf) as (r & Hr & Hex & Herr & Hacc & Hfiles & Hperms).
  exists r. split; [done|]. unfold clean_result. split; [by rewrite Hex|].
  split; [rewrite Herr; destruct found; auto|].
  split; [intros Ht; rewrite Hex in Ht; destruct (Hacc Ht) as [-> _]; done|].
  split; [intros fs Hfs; destruct Hfiles as [H|H]; congruence|].
  split; [destruct Hperms as [-> | ->]; [apply sublist_nil_l|done]|].
  intros name' prov public files'. destruct Hperms as [-> | ->]; [|apply Hw].
  unfold PermissionChecker.analyze_permissions. cbn. reflexivity.
Qed.

(** X20. With the scanners of the three providers [scan_bucket] never reports
    an exception: each of their methods passes over what the network and
    the SDK raise, so the result says whether the bucket exists as
    [check_bucket_exists] answered, and its error is absent or the fixed
    text "Bucket does not exist" (which is also what an unreachable
    network gives). The access level of an existing bucket is the one
    [check_public_access] gave, at most 100 files are listed, and the
    permissions are names of the provider's probes, which the permission
    checker never reads as writable. *)
Theorem provider_scan_bucket_clean (env : Cloud)
    (azure : Probes.AzureBlobScanner.self_) (bucket_name : string) :
  (exists r,
     BaseScanner.scan_bucket (AWSS3Scanner.scanner env) bucket_name = Returned r
     /\ clean_result (AWSS3Scanner.scanner env) bucket_name
          ["list"; "get_acl"; "get_policy"; "get_location"] r
     /\ provider r = AWS_S3
     /\ url r = "https://" +:+ bucket_name +:+ ".s3.amazonaws.com")
  /\ (exists r,
        BaseScanner.scan_bucket (GCPStorageScanner.scanner env) bucket_name = Returned r
        /\ clean_result (GCPStorageScanner.scanner env) bucket_name
             ["list"; "get_iam_policy"; "get_metadata"] r
        /\ provider r = GCP_GCS
        /\ url r = "https://storage.googleapis.com/" +:+ bucket_name)
  /\ (exists r,
        BaseScanner.scan_bucket (AzureBlobScanner.scanner env azure) bucket_name
        = Returned r
        /\ clean_result (AzureBlobScanner.scanner env azure) bucket_name
             ["list"; "get_properties"; "get_acl"] r
        /\ provider r = AZURE_BLOB
        /\ url r = "https://" +:+ Probes.AzureBlobScanner.account_name azure
                   +:+ ".blob.core.windows.net/" +:+ bucket_name
        /\ access_level r ∈ [PUBLIC_READ; PRIVATE; UNKNOWN]).
Proof.
  destruct (list_files_first_names_facts env azure bucket_name 100)
    as (Hlaws & Hlgcp & Hlaz & Hlen).
  assert (forall files,
            AWSS3Scanner.list_files env bucket_name 100 = Returned files
            \/ GCPStorageScanner.list_files env bucket_name 100 = Returned files
            \/ AzureBlobScanner.list_files env azure bucket_name 100 = Returned files ->
            (length files <= 100)%nat) as Hlen100.
  { intros files H. destruct (Hlen files H) as [H100 _]. unfold taken in H100. lia. }
  assert (forall perms,
            AWSS3Scanner.get_bucket_permissions env bucket_name = Returned perms
            \/ GCPStorageScanner.get_bucket_permissions env bucket_name = Returned perms
            \/ AzureBlobScanner.get_bucket_permissions env azure bucket_name
               = Returned perms ->
            forall name' prov public files',
              PermissionChecker.is_writable
                (PermissionChecker.analyze_permissions name' prov perms public files')
              = false) as Hnw.
  { intros perms H name' prov public files'.
    by destruct (scanner_permissions_never_writable_facts env azure bucket_name perms H
                   name' prov public files') as [? _]. }
  destruct (get_bucket_permissions_names_facts env azure bucket_name)
    as ((pa & Hpa & Hsa & _) & (pg & Hpg & Hsg & _) & (pz & Hpz & Hsz & _)).
  split; [|split].
  - destruct (aws_exists_returns (probes env) bucket_name) as [found He].
    destruct (aws_check_public_access_verdict_facts env bucket_name) as (level & Hl & _).
    destruct (clean_result_of_total (AWSS3Scanner.scanner env) bucket_name
                ["list"; "get_acl"; "get_policy"; "get_location"] pa _ found level
                He Hl Hpa Hlaws) as (r & Hr & Hclean).
    { apply Hlen100. left. exact Hlaws. }
    { exact Hsa. }
    { apply Hnw. by left. }
    exists r. split; [done|]. split; [done|].
    destruct (scan_bucket_result_invariants_facts (AWSS3Scanner.scanner env) bucket_name)
      as (r' & Hr' & Hprov & _ & Hurl & _).
    assert (r' = r) as -> by congruence. done.
  - destruct (gcp_exists_returns (probes env) bucket_name) as [found He].
    destruct (gcp_check_public_access_verdict_facts env bucket_name) as (level & Hl & _).
    destruct (clean_result_of_total (GCPStorageScanner.scanner env) bucket_name
                ["list"; "get_iam_policy"; "get_metadata"] pg _ found level
                He Hl Hpg Hlgcp) as (r & Hr & Hclean).
    { apply Hlen100. right. left. exact Hlgcp. }
    { exact Hsg. }
    { apply Hnw. right. by left. }
    exists r. split; [done|]. split; [done|].
    destruct (scan_bucket_result_invariants_facts (GCPStorageScanner.scanner env) bucket_name)
      as (r' & Hr' & Hprov & _ & Hurl & _).
    assert (r' = r) as -> by congruence. done.
  - destruct (azure_exists_returns (probes env) azure bucket_name) as [found He].
    destruct (azure_check_public_access_verdict_facts env azure bucket_name)
      as (level & Hl & Hrange & _).
    destruct (clean_result_of_total (AzureBlobScanner.scanner env azure) bucket_name
                ["list"; "get_properties"; "get_acl"] pz _ found level
                He Hl Hpz Hlaz) as (r & Hr & Hclean).
    { apply Hlen100. right. right. exact Hlaz. }
    { exact Hsz. }
    { apply Hnw. right. by right. }
    exists r. split; [done|]. split; [done|].
    destruct (scan_bucket_result_invariants_facts (AzureBlobScanner.scanner env azure)
                bucket_name) as (r' & Hr' & Hprov & _ & Hurl & _).
    assert (r' = r) as -> by congruence. split; [done|]. split; [done|].
    destruct (scan_bucket_of_total_scanner (AzureBlobScanner.scanner env azure)
                bucket_name found level pz _ He Hl Hpz Hlaz)
      as (r'' & Hr'' & Hex & _ & Hacc & _).
    assert (r'' = r) as -> by congruence.
    destruct found.
    + destruct (Hacc eq_refl) as [-> _]. exact Hrange.
    + destruct (scan_bucket_result_invariants_facts (AzureBlobScanner.scanner env azure)
                  bucket_name) as (r3 & Hr3 & _ & _ & _ & _ & Hlev & _).
      assert (r3 = r) as -> by congruence.
      destruct (decide (access_level r ∈ [PRIVATE; UNKNOWN])) as [Hin|Hnot].
      * repeat (apply elem_of_cons in Hin as [->|Hin];
                [apply (bool_decide_unpack _); by vm_compute|]).
        by apply elem_of_nil in Hin.
      * apply Hlev in Hnot.
        destruct (scan_bucket_result_invariants_facts (AzureBlobScanner.scanner env azure)
                    bucket_name) as (r4 & Hr4 & _ & _ & _ & _ & _ & Himp & _).
        assert (r4 = r) as -> by congruence.
        rewrite (Himp Hnot) in Hex. discriminate.
Qed.

(** X21. A scan over all providers returns exactly one result per scanner, in
    the order AWS, GCP, Azure: no task raises, so the filter after
    [gather] drops nothing, and each result is the one the scanner's own
    [scan_bucket] returns. *)
Theorem scan_all_providers_three_results (aws gcp azure : Scanner) (name : string) :
  exists r1 r2 r3,
    BaseScanner.scan_bucket aws name = Returned r1
    /\ BaseScanner.scan_bucket gcp name = Returned r2
    /\ BaseScanner.scan_bucket azure name = Returned r3
    /\ ScanOrchestrator.scan_bucket (ScanOrchestrator.init aws gcp azure) name None
       = Returned [r1; r2; r3]
    /\ provider r1 = sc_provider aws
    /\ provider r2 = sc_provider gcp
    /\ provider r3 = sc_provider azure.
Proof.
  destruct (scan_bucket_result_invariants_facts aws name) as (r1 & H1 & P1 & _).
  destruct (scan_bucket_result_invariants_facts gcp name) as (r2 & H2 & P2 & _).
  destruct (scan_bucket_result_invariants_facts azure name) as (r3 & H3 & P3 & _).
  exists r1, r2, r3. repeat split; try done.
  unfold ScanOrchestrator.scan_bucket, ScanOrchestrator.init.
  cbn [ScanOrchestrator.scanners map snd]. rewrite H1, H2, H3. reflexivity.
Qed.

End ProviderScanProperties.

(** * Further code: the consumers of the orchestrator

    [QueueConsumer.process_task] of [src/queue/consumer.py] and the route
    [scan_bucket_immediate] of [src/api/routes.py]. *)

Module Consumers.
Import PyStr Py BaseScanner.

(** [provider.value] *)
Definition provider_value (provider : CloudProvider) : string :=
  match provider with
  | AWS_S3 => "aws_s3"
  | GCP_GCS => "gcp_gcs"
  | AZURE_BLOB => "azure_blob"
  end.

(** [repr] of a str over the code points 0..255. The quote is the double
    quote when the text holds a single quote and no double quote, and the
    single quote otherwise; the quote and the backslash are escaped with a
    backslash; tab, line feed and carriage return are written \t, \n,
    \r; the other code points that are not printable (below 32, 127,
    128..160 and 173) are written \xhh with two lower-case hexadecimal
    digits. *)
Definition backslash : ascii := ascii_of_N 92.

Definition hex_digit (n : N) : ascii :=
  if (n <? 10)%N then ascii_of_N (48 + n) else ascii_of_N (87 + n).

Definition repr_char (quote c : ascii) : string :=
  let n := N_of_ascii c in
  if Ascii.eqb c quote || Ascii.eqb c backslash
  then String backslash (String c EmptyString)
  else if (n =? 9)%N then String backslash "t"
  else if (n =? 10)%N then String backslash "n"
  else if (n =? 13)%N then String backslash "r"
  else if (n <? 32)%N || (n =? 127)%N
          || ((128 <=? n)%N && (n <=? 160)%N) || (n =? 173)%N
  then String backslash
         (String "x" (String (hex_digit (n / 16)) (String (hex_digit (n mod 16))
                                                     EmptyString)))
  else String c EmptyString.

Fixpoint repr_chars (quote : ascii) (s : string) : string :=
  match s with
  | EmptyString => EmptyString
  | String c s' => repr_char quote c +:+ repr_chars quote s'
  end.

Definition repr (s : string) : string :=
  let quote :=
    if contains "'" s && negb (contains Providers.dq s) then ascii_of_N 34 else "'"%char in
  String quote (repr_chars quote s) +:+ String quote EmptyString.

(** [CloudProvider(value)]: the member with that value, or the
    [ValueError] of [Enum], whose text is
    ["%r is not a valid %s" % (value, cls.__qualname__)]. *)
Definition CloudProvider_of (value : string) : outcome CloudProvider :=
  if String.eqb value "aws_s3" then Returned AWS_S3
  else if String.eqb value "gcp_gcs" then Returned GCP_GCS
  else if String.eqb value "azure_blob" then Returned AZURE_BLOB
  else Raised (ValueError (repr value +:+ " is not a valid CloudProvider")).

(** [access_level.value] *)
Definition access_level_value (level : BucketAccessLevel) : string :=
  match level with
  | PRIVATE => "private"
  | PUBLIC_READ => "public-read"
  | PUBLIC_WRITE => "public-write"
  | PUBLIC_READ_WRITE => "public-read-write"
  | AUTHENTICATED_READ => "authenticated-read"
  | UNKNOWN => "unknown"
  end.

(** A task of the queue: [task.get('bucket_name')] and
    [task.get('provider')], the latter possibly absent. *)
Record task : Type := {
  task_bucket_name : string;
  task_provider : option string
}.

(** The calls of the callback made by a loop over the results: the loop
    ends with the first call that raises. *)
Fixpoint callback_calls (result_callback : BucketScanResult -> outcome unit)
    (results : list BucketScanResult) : list BucketScanResult :=
  match results with
  | [] => []
  | result :: results' =>
      match result_callback result with
      | Returned _ => result :: callback_calls result_callback results'
      | Raised _ => [result]
      end
  end.

(** [QueueConsumer.process_task], which returns nothing and raises
    nothing: what it does is call the callback, and the model gives the
    results it calls it with, in order. *)
Definition process_task (orchestrator : ScanOrchestrator.t) (t : task)
    (result_callback : option (BucketScanResult -> outcome unit))
  : list BucketScanResult :=
  let bucket_name := task_bucket_name t in
  let provider_str := task_provider t in
  let body : outcome (list BucketScanResult) :=
    provider ← match provider_str with
               | Some (String _ _ as value) =>
                   p ← CloudProvider_of value; Returned (Some p)
               | _ => Returned None
               end;
    results ← ScanOrchestrator.scan_bucket orchestrator bucket_name provider;
    Returned (match result_callback with
              | Some callback => callback_calls callback results
              | None => []
              end) in
  match body with
  | Returned calls => calls
  | Raised _ => []
  end.

(** The dict handed to [create_scan_result]. *)
Record result_data : Type := {
  rd_bucket_name : string;
  rd_provider : string;
  rd_exists : bool;
  rd_is_accessible : bool;
  rd_access_level : string;
  rd_url : string;
  rd_permissions : list string;
  rd_files_found : option (list string);
  rd_sensitive_files : option (list string);
  rd_risk_level : string;
  rd_risk_score : Z;
  rd_error : option string;
  rd_metadata : option (list (string * string))
}.

Definition result_data_of (result : BucketScanResult) : result_data :=
  let '(risk_level, risk_score) := WorkerService.result_risk result in
  {| rd_bucket_name := bucket_name result;
     rd_provider := provider_value (provider result);
     rd_exists := exists_ result;
     rd_is_accessible := is_accessible result;
     rd_access_level := access_level_value (access_level result);
     rd_url := url result;
     rd_permissions := permissions result;
     rd_files_found := files_found result;
     rd_sensitive_files := sensitive_files result;
     rd_risk_level := risk_level;
     rd_risk_score := risk_score;
     rd_error := error result;
     rd_metadata := metadata result |}.

(** What a route answers: a value, or an [HTTPException]. *)
Inductive response (A : Type) : Type :=
| Ok (a : A)
| HTTPException (status_code : Z) (detail : string).
Arguments Ok {A} a.
Arguments HTTPException {A} status_code detail.

(** What the route depends on: the orchestrator its constructor gives or
    what the constructor raises, [db.create_scan_result] followed by
    [to_dict], and [str] of an [HTTPException]. *)
Record Web (Saved : Type) : Type := {
  make_orchestrator : outcome ScanOrchestrator.t;
  create_scan_result : result_data -> outcome Saved;
  str_of_HTTPException : Z -> string -> string
}.
Arguments make_orchestrator {Saved} _.
Arguments create_scan_result {Saved} _ _.
Arguments str_of_HTTPException {Saved} _ _ _.

(** The loop that stores the results. *)
Fixpoint save_results {Saved} (web : Web Saved) (results : list BucketScanResult)
    (saved_results : list Saved) : outcome (list Saved) :=
  match results with
  | [] => Returned saved_results
  | result :: results' =>
      db_result ← create_scan_result web (result_data_of result);
      save_results web results' (saved_results ++ [db_result])
  end.

(** The exceptions in flight inside the [try] block of the route: one of
    the modelled classes, or the [HTTPException] raised there. *)
Inductive route_exn : Type :=
| Python (e : exn)
| Http (status_code : Z) (detail : string).

Definition lift {A} (m : outcome A) : A + route_exn :=
  match m with
  | Returned a => inl a
  | Raised e => inr (Python e)
  end.

(** [scan_bucket_immediate] *)
Definition scan_bucket_immediate {Saved} (web : Web Saved)
    (request_bucket_name : string) (request_provider : option string)
  : response (list Saved) :=
  let body : list Saved + route_exn :=
    match lift (make_orchestrator web) with
    | inr e => inr e
    | inl orchestrator =>
        let provider : option CloudProvider + route_exn :=
          match request_provider with
          | Some (String _ _ as value) =>
              match CloudProvider_of value with
              | Returned p => inl (Some p)
              | Raised (ValueError _) =>
                  inr (Http 400 ("Invalid provider: " +:+ value))
              | Raised e => inr (Python e)
              end
          | _ => inl None
          end in
        match provider with
        | inr e => inr e
        | inl provider =>
            match lift (ScanOrchestrator.scan_bucket orchestrator
                          request_bucket_name provider) with
            | inr e => inr e
            | inl results => lift (save_results web results [])
            end
        end
    end in
  match body with
  | inl saved_results => Ok saved_results
  | inr (Python e) => HTTPException 500 (str_of_exn e)
  | inr (Http status_code detail) =>
      HTTPException 500 (str_of_HTTPException web status_code detail)
  end.

End Consumers.

(** * Properties of the consumers *)

Section ConsumerProperties.
Import PyStr Py BaseScanner Providers Consumers.
#[local] Arguments ScanOrchestrator.scan_bucket : simpl never.

Lemma string_length_app (a b : string) :
  String.length (a +:+ b) = (String.length a + String.length b)%nat.
Proof.
  induction a as [|c a IH]; [reflexivity|].
  change (String c a +:+ b) with (String c (a +:+ b)).
  cbn [String.length]. by rewrite IH.
Qed.

Lemma string_app_inj_r (a b s : string) : a +:+ s = b +:+ s -> a = b.
Proof.
  revert b. induction a as [|c a IH]; intros [|d b] H.
  - done.
  - apply (f_equal String.length) in H. rewrite !string_length_app in H.
    cbn [String.length] in H. lia.
  - apply (f_equal String.length) in H. rewrite !string_length_app in H.
    cbn [String.length] in H. lia.
  - change (String c (a +:+ s) = String d (b +:+ s)) in H.
    injection H as -> H. f_equal. by apply IH.
Qed.

(** X22. Within one provider (and, for Azure, one storage account) two bucket
    names with the same URL are the same name. *)
Theorem bucket_url_injective :
  (forall name1 name2,
     AWSS3Scanner._get_bucket_url name1 = AWSS3Scanner._get_bucket_url name2 ->
     name1 = name2)
  /\ (forall name1 name2,
        GCPStorageScanner._get_bucket_url name1
        = GCPStorageScanner._get_bucket_url name2 ->
        name1 = name2)
  /\ (forall self name1 name2,
        AzureBlobScanner._get_bucket_url self name1
        = AzureBlobScanner._get_bucket_url self name2 ->
        name1 = name2).
Proof.
  split; [|split].
  - intros name1 name2 H. unfold AWSS3Scanner._get_bucket_url in H.
    apply (String.app_inj "https://") in H. by apply string_app_inj_r in H.
  - intros name1 name2 H. unfold GCPStorageScanner._get_bucket_url in H.
    by apply (String.app_inj "https://storage.googleapis.com/") in H.
  - intros self name1 name2 H. unfold AzureBlobScanner._get_bucket_url in H.
    apply (String.app_inj "https://") in H.
    apply (String.app_inj (Probes.AzureBlobScanner.account_name self)) in H.
    by apply (String.app_inj ".blob.core.windows.net/") in H.
Qed.

(** What the later proofs use of [CloudProvider(value)] and [provider.value]. *)
Lemma cloud_provider_value_round_trip_facts :
  (forall provider, CloudProvider_of (provider_value provider) = Returned provider)
  /\ (forall value provider,
        CloudProvider_of value = Returned provider -> value = provider_value provider)
  /\ (forall value,
        value ∉ ["aws_s3"; "gcp_gcs"; "azure_blob"] ->
        exists msg, CloudProvider_of value = Raised (ValueError msg))
  /\ (forall provider1 provider2,
        provider_value provider1 = provider_value provider2 -> provider1 = provider2).
Proof.
  split; [by intros []|]. split; [|split].
  - intros value provider. unfold CloudProvider_of.
    destruct (String.eqb_spec value "aws_s3") as [->|_]; [by intros [= <-]|].
    destruct (String.eqb_spec value "gcp_gcs") as [->|_]; [by intros [= <-]|].
    destruct (String.eqb_spec value "azure_blob") as [->|_]; [by intros [= <-]|].
    discriminate.
  - intros value Hnot. unfold CloudProvider_of.
    destruct (String.eqb_spec value "aws_s3") as [->|_].
    { exfalso. apply Hnot. apply (bool_decide_unpack _). by vm_compute. }
    destruct (String.eqb_spec value "gcp_gcs") as [->|_].
    { exfalso. apply Hnot. apply (bool_decide_unpack _). by vm_compute. }
    destruct (String.eqb_spec value "azure_blob") as [->|_].
    { exfalso. apply Hnot. apply (bool_decide_unpack _). by vm_compute. }
    by eexists.
  - by intros [] [] H.
Qed.


Lemma callback_calls_prefix callback results :
  callback_calls callback results `prefix_of` results.
Proof.
  induction results as [|result results IH]; cbn [callback_calls]; [done|].
  destruct (callback result).
  - by apply prefix_cons.
  - exists results. reflexivity.
Qed.

Lemma callback_calls_total callback results :
  (forall result, result ∈ results -> exists u, callback result = Returned u) ->
  callback_calls callback results = results.
Proof.
  induction results as [|result results IH]; intros Htotal; cbn [callback_calls];
    [done|].
  destruct (Htotal result) as [u ->]; [by left|].
  rewrite IH; [done|]. intros r Hr. apply Htotal. by right.
Qed.


Lemma save_results_from {Saved} (web : Web Saved) results saved :
  (exists stored,
     save_results web results saved = Returned (saved ++ stored)
     /\ Forall2 (fun result db_result =>
                   create_scan_result web (result_data_of result) = Returned db_result)
          results stored)
  \/ (exists result e,
        result ∈ results
        /\ create_scan_result web (result_data_of result) = Raised e
        /\ save_results web results saved = Raised e).
Proof.
  revert saved. induction results as [|result results IH]; intros saved;
    cbn [save_results].
  - left. exists []. split; [by rewrite app_nil_r|constructor].
  - destruct (create_scan_result web (result_data_of result)) as [db_result|e]
      eqn:Hdb; cbn [mbind outcome_bind bind].
    + destruct (IH (saved ++ [db_result])) as [(stored & Hs & Hall)|(r & e & Hin & He & Hs)].
      * left. exists (db_result :: stored). split.
        { rewrite Hs, <- app_assoc. reflexivity. }
        by constructor.
      * right. exists r, e. split; [by right|]. done.
    + right. exists result, e. split; [by left|]. done.
Qed.


End ConsumerProperties.

(** * Further code: the constructor of the Azure scanner *)

Module AzureInit.
Import PyStr Py Probes.AzureBlobScanner.

(** [s.split(sep)] for a separator of one character. *)
Fixpoint split_char (sep : ascii) (s : string) : list string :=
  match s with
  | EmptyString => [EmptyString]
  | String c s' =>
      if Ascii.eqb c sep then EmptyString :: split_char sep s'
      else match split_char sep s' with
           | first :: rest => String c first :: rest
           | [] => [String c EmptyString]
           end
  end.

(** The two ways the constructor makes a service client. *)
Record Sdk : Type := {
  from_connection_string : string -> outcome unit;
  BlobServiceClient : string -> string -> outcome unit
}.

(** Truth value of a string. *)
Definition non_empty (s : string) : bool :=
  match s with
  | EmptyString => false
  | String _ _ => true
  end.

(** The loop over the parts of the connection string: the account name it
    leaves, and whether [part.split('=')[1]] raised [IndexError]. *)
Fixpoint account_name_loop (parts : list string) (account_name : string)
  : string * bool :=
  match parts with
  | [] => (account_name, false)
  | part :: parts' =>
      if contains "AccountName=" part
      then match split_char "=" part with
           | _ :: value :: _ => account_name_loop parts' value
           | _ => (account_name, true)
           end
      else account_name_loop parts' account_name
  end.

(** [AzureBlobScanner.__init__]: the account name and whether a service
    client is set afterwards. *)
Definition __init__ (sdk : Sdk) (account_name account_key connection_string : string)
  : self_ :=
  if non_empty connection_string
  then
    match from_connection_string sdk connection_string with
    | Returned _ =>
        let '(name, raised) :=
          account_name_loop (split_char ";" connection_string) account_name in
        {| Probes.AzureBlobScanner.account_name := name;
           has_blob_service_client := negb raised |}
    | Raised _ =>
        {| Probes.AzureBlobScanner.account_name := account_name;
           has_blob_service_client := false |}
    end
  else if non_empty account_name && non_empty account_key
  then
    let account_url := "https://" +:+ account_name +:+ ".blob.core.windows.net" in
    {| Probes.AzureBlobScanner.account_name := account_name;
       has_blob_service_client :=
         match BlobServiceClient sdk account_url account_key with
         | Returned _ => true
         | Raised _ => false
         end |}
  else
    {| Probes.AzureBlobScanner.account_name := account_name;
       has_blob_service_client := false |}.

End AzureInit.

(** * Properties of the constructor of the Azure scanner *)

Section AzureInitProperties.
Import PyStr Py Probes.AzureBlobScanner AzureInit.

Lemma split_char_none sep s : char_in sep s = false -> split_char sep s = [s].
Proof.
  induction s as [|c s IH]; [done|]. cbn [char_in split_char].
  intros H. apply orb_false_iff in H as [Hc Hs].
  rewrite Ascii.eqb_sym, Hc, (IH Hs). reflexivity.
Qed.

Lemma split_char_first sep a b :
  char_in sep a = false ->
  split_char sep (a +:+ String sep b) = a :: split_char sep b.
Proof.
  induction a as [|c a IH].
  - intros _. change (EmptyString +:+ String sep b) with (String sep b).
    cbn [split_char]. by rewrite Ascii.eqb_refl.
  - cbn [char_in]. intros H. apply orb_false_iff in H as [Hc Ha].
    change (String c a +:+ String sep b) with (String c (a +:+ String sep b)).
    cbn [split_char]. rewrite Ascii.eqb_sym, Hc, (IH Ha). reflexivity.
Qed.

Lemma split_char_two sep s :
  char_in sep s = true -> exists x y rest, split_char sep s = x :: y :: rest.
Proof.
  induction s as [|c s IH]; [discriminate|]. cbn [char_in split_char].
  rewrite Ascii.eqb_sym. destruct (Ascii.eqb c sep).
  - intros _. destruct s as [|d s]; cbn [split_char]; [by eexists _, _, _|].
    destruct (Ascii.eqb d sep); [by eexists _, _, _|].
    destruct (split_char sep s); by eexists _, _, _.
  - cbn [orb]. intros H. destruct (IH H) as (x & y & rest & ->).
    by eexists _, _, _.
Qed.

Lemma strip_prefix_char_in p s rest c :
  strip_prefix p s = Some rest -> char_in c p = true -> char_in c s = true.
Proof.
  revert s. induction p as [|a p IH]; intros s; [discriminate 2|].
  cbn [strip_prefix char_in]. destruct s as [|b s]; [discriminate|].
  destruct (Ascii.eqb_spec a b) as [->|_]; [|discriminate].
  intros Hs Hc. cbn [char_in]. apply orb_true_iff in Hc as [Hc|Hc].
  - by rewrite Hc.
  - rewrite (IH s Hs Hc). apply orb_true_r.
Qed.

Lemma contains_char_in p s c :
  contains p s = true -> char_in c p = true -> char_in c s = true.
Proof.
  intros Hc Hp. induction s as [|b s IH].
  - cbn [contains] in Hc. destruct (strip_prefix p EmptyString) as [rest|] eqn:Hs;
      [|discriminate]. by apply (strip_prefix_char_in p _ rest).
  - cbn [contains] in Hc.
    destruct (strip_prefix p (String b s)) as [rest|] eqn:Hs.
    + by apply (strip_prefix_char_in p _ rest).
    + cbn [char_in]. rewrite (IH Hc). apply orb_true_r.
Qed.

(** The loop over the parts never raises: a part that contains the text
    "AccountName=" has a second field. *)
Lemma account_name_loop_total parts account_name :
  snd (account_name_loop parts account_name) = false.
Proof.
  revert account_name. induction parts as [|part parts IH]; intros account_name;
    cbn [account_name_loop]; [done|].
  destruct (contains "AccountName=" part) eqn:Hc; [|apply IH].
  destruct (split_char_two "=" part) as (x & y & rest & ->); [|apply IH].
  apply (contains_char_in "AccountName=" part); [done|reflexivity].
Qed.

(** X26. After the constructor a service client is set exactly when the call
    that makes it returned: [from_connection_string] for a connection
    string that is not empty, else the client made from account name and
    key when both are given. The account name is the argument unless a
    connection string was accepted, and also then when no part of the
    connection string contains "AccountName=". *)
Theorem azure_init_client_and_name (sdk : Sdk)
    (account_name account_key connection_string : string) :
  let self := __init__ sdk account_name account_key connection_string in
  (has_blob_service_client self = true
   <-> (connection_string <> ""
        /\ exists u, from_connection_string sdk connection_string = Returned u)
       \/ (connection_string = "" /\ account_name <> "" /\ account_key <> ""
           /\ exists u,
                BlobServiceClient sdk
                  ("https://" +:+ account_name +:+ ".blob.core.windows.net")
                  account_key = Returned u))
  /\ (has_blob_service_client self = false \/ connection_string = "" ->
      Probes.AzureBlobScanner.account_name self = account_name)
  /\ (Forall (fun part => contains "AccountName=" part = false)
        (split_char ";" connection_string) ->
      Probes.AzureBlobScanner.account_name self = account_name).
Proof.
  cbv zeta. unfold __init__.
  destruct connection_string as [|c cs] eqn:Hcs; cbn [non_empty].
  - destruct account_name as [|a an]; cbn [non_empty andb].
    { cbn. split; [|done]. split; [done|]. intros [[? _]|(_ & ? & _)]; done. }
    destruct account_key as [|k ak]; cbn [non_empty andb].
    { cbn. split; [|done]. split; [done|]. intros [[? _]|(_ & _ & ? & _)]; done. }
    destruct (BlobServiceClient sdk _ _) as [u|e] eqn:Hnew; cbn.
    + split; [|done]. split; [|done]. intros _. right. repeat split; try done.
      by exists u.
    + split; [|done]. split; [done|].
      intros [[? _]|(_ & _ & _ & u & Hu)]; [done|]. congruence.
  - rewrite <- Hcs.
    destruct (from_connection_string sdk connection_string) as [u|e] eqn:Hfrom.
    + pose proof (account_name_loop_total (split_char ";" connection_string)
                    account_name) as Htotal.
      destruct (account_name_loop (split_char ";" connection_string) account_name)
        as [name raised] eqn:Hloop.
      cbn [snd] in Htotal. subst raised. cbn. split; [|split].
      * split; [|done]. intros _. left. split; [by subst|by exists u].
      * intros [?|?]; [done|]. by subst.
      * intros Hall. clear Hcs.
        assert (forall parts account_name name,
                  Forall (fun part => contains "AccountName=" part = false) parts ->
                  account_name_loop parts account_name = (name, false) ->
                  name = account_name) as Hno.
        { clear. induction parts as [|part parts IH]; intros account_name name Hall;
            cbn [account_name_loop]; [by intros [= <-]|].
          apply Forall_cons in Hall as [-> Hall]. by apply IH. }
        by apply (Hno _ _ _ Hall Hloop).
    + cbn. split; [|done]. split; [done|].
      intros [[_ [u Hu]]|[? _]]; [congruence|by subst].
Qed.

(** X27. A connection string of the usual form gives back the account name it
    was made with, when neither the account name nor the key contains a
    semicolon, the account name contains no equals sign, and the key part
    does not contain the text "AccountName=". *)
Theorem azure_init_reads_account_name (sdk : Sdk)
    (account_name account_key name key : string) :
  let connection_string :=
    "DefaultEndpointsProtocol=https;AccountName=" +:+ name
    +:+ ";AccountKey=" +:+ key in
  char_in ";" name = false ->
  char_in "=" name = false ->
  char_in ";" key = false ->
  contains "AccountName=" ("AccountKey=" +:+ key) = false ->
  (exists u, from_connection_string sdk connection_string = Returned u) ->
  __init__ sdk account_name account_key connection_string
  = {| Probes.AzureBlobScanner.account_name := name;
       has_blob_service_client := true |}.
Proof.
  cbv zeta. intros Hn1 Hn2 Hk1 Hk2 [u Hfrom]. unfold __init__.
  set (cs := "DefaultEndpointsProtocol=https;AccountName=" +:+ name
             +:+ ";AccountKey=" +:+ key) in *.
  assert (non_empty cs = true) as -> by reflexivity. rewrite Hfrom.
  assert (split_char ";" cs
          = ["DefaultEndpointsProtocol=https"; "AccountName=" +:+ name;
             "AccountKey=" +:+ key]) as ->.
  { change cs with ("DefaultEndpointsProtocol=https"
                    +:+ String ";" ("AccountName=" +:+ name
                                    +:+ String ";" ("AccountKey=" +:+ key))).
    rewrite split_char_first by reflexivity. f_equal.
    assert ("AccountName=" +:+ name +:+ String ";" ("AccountKey=" +:+ key)
            = ("AccountName=" +:+ name) +:+ String ";" ("AccountKey=" +:+ key))
      as -> by (cbn; reflexivity).
    rewrite split_char_first.
    - f_equal. apply split_char_none. cbn. exact Hk1.
    - cbn. exact Hn1. }
  cbn [account_name_loop].
  assert (contains "AccountName=" "DefaultEndpointsProtocol=https" = false) as ->
    by reflexivity.
  assert (contains "AccountName=" ("AccountName=" +:+ name) = true) as ->
    by reflexivity.
  assert (split_char "=" ("AccountName=" +:+ name) = ["AccountName"; name]) as ->.
  { change ("AccountName=" +:+ name) with ("AccountName" +:+ String "=" name).
    rewrite split_char_first by reflexivity. f_equal. by apply split_char_none. }
  rewrite Hk2. reflexivity.
Qed.

Definition accepting_sdk : Sdk :=
  {| from_connection_string := fun _ => Returned tt;
     BlobServiceClient := fun _ _ => Returned tt |}.

Lemma azure_init_reads_account_name_witness :
  __init__ accepting_sdk "" ""
    ("DefaultEndpointsProtocol=https;AccountName=" +:+ "acct"
     +:+ ";AccountKey=" +:+ "a2V5")
  = {| Probes.AzureBlobScanner.account_name := "acct";
       has_blob_service_client := true |}.
Proof.
  apply (azure_init_reads_account_name accepting_sdk "" "" "acct" "a2V5");
    try reflexivity.
  by exists tt.
Defined.

End AzureInitProperties.

(** * Letter case *)

Section LetterCaseProperties.
Import PyStr Re Py.
#[local] Arguments ContentAnalyzer.any_pattern : simpl never.
#[local] Arguments contains_any : simpl never.

Lemma lower_char_idempotent c : lower_char (lower_char c) = lower_char c.
Proof. destruct c as [[] [] [] [] [] [] [] []]; reflexivity. Qed.

Lemma lower_idempotent s : lower (lower s) = lower s.
Proof.
  induction s as [|c s IH]; cbn [lower]; [done|].
  by rewrite lower_char_idempotent, IH.
Qed.

#[local] Arguments lower : simpl never.

Lemma existsb_map_lower (p : string -> bool) files :
  (forall f, p (lower (lower f)) = p (lower f)) ->
  existsb (fun f => p (lower f)) (map lower files)
  = existsb (fun f => p (lower f)) files.
Proof.
  intros Hp. induction files as [|f files IH]; cbn [map existsb]; [done|].
  by rewrite Hp, IH.
Qed.

(** X28. Upper and lower case are not told apart. The content analyzer detects
    in a listing put in lower case the lower-case forms of the names it
    detects in the listing itself; the scanner's own detection of the
    lower-case listing is its detection of the listing, put in lower
    case. A name and its lower-case form match the same categories and
    earn the high-risk bonus alike, and the permission checker rates a
    listing and its lower-case form the same. *)
Theorem detection_ignores_case (files : list string) :
  (forall g, g ∈ ContentAnalyzer._detect_sensitive_files (map lower files)
             <-> exists f, f ∈ ContentAnalyzer._detect_sensitive_files files
                           /\ g = lower f)
  /\ BaseScanner._detect_sensitive_files (map lower files)
     = map lower (BaseScanner._detect_sensitive_files files)
  /\ (forall file c, matches_category c (lower file) = matches_category c file)
  /\ (forall file, is_high_risk (lower file) = is_high_risk file)
  /\ (forall public writable perms,
        PermissionChecker._calculate_risk_level public writable perms
          (Some (map lower files))
        = PermissionChecker._calculate_risk_level public writable perms
            (Some files)).
Proof.
  assert (forall file,
            matches_any ContentAnalyzer.SENSITIVE_PATTERNS (lower file)
            = matches_any ContentAnalyzer.SENSITIVE_PATTERNS file) as Hany.
  { intros file. unfold matches_any. by rewrite lower_idempotent. }
  split; [|split; [|split; [|split]]].
  - intros g. rewrite detect_elem_of, list_elem_of_fmap. split.
    + intros [(f & -> & Hf) Hm]. exists f. split; [|done].
      apply detect_elem_of. split; [done|]. by rewrite <- Hany.
    + intros (f & Hf & ->). apply detect_elem_of in Hf as [Hf Hm].
      split; [by exists f|]. by rewrite Hany.
  - rewrite !base_detect_filter.
    induction files as [|f files IH]; cbn [map List.filter]; [done|].
    rewrite lower_idempotent, IH.
    by destruct (contains_any BaseScanner.sensitive_patterns (lower f)).
  - intros file c. unfold matches_category. by rewrite lower_idempotent.
  - intros file. unfold is_high_risk. by rewrite lower_idempotent.
  - intros public writable perms.
    rewrite !_calculate_risk_level_table.
    cbn [default from_option id].
    rewrite (existsb_map_lower
               (contains_any PermissionChecker.sensitive_patterns));
      [done|]. intros f. by rewrite lower_idempotent.
Qed.

End LetterCaseProperties.
